(** * Aspia: server-side authenticator and file-transfer coordinator

    A shallow embedding of
    - [base::ServerAuthenticator] (source/base/net/server_authenticator.cc) and
    - [client::FileTransfer] (client/file_transfer.cc),
    followed by the properties of the specification that concern them.

    Both classes are single-threaded objects driven by callbacks.  A member
    function is embedded as a command over the object's fields that also
    records, in order, the calls it makes on its collaborators (channel,
    timer, delegate, window proxy, request consumer).  A command has no
    result where the C++ has undefined behaviour (a null [unique_ptr]
    dereferenced, [front()] of an empty list). *)

From Stdlib Require Import ZArith Lia.
From stdpp Require Import base option list strings gmap.

Open Scope Z_scope.

(** ** Commands: state, a log of outgoing calls, undefined behaviour *)

Section Cmd.
Context {St Ev : Type}.

Definition Cmd (A : Type) : Type := St → option (A * St * list Ev).

Definition cmd_ret {A} (a : A) : Cmd A := λ s, Some (a, s, []).

Definition cmd_bind {A B} (k : A → Cmd B) (m : Cmd A) : Cmd B :=
  λ s, match m s with
       | None => None
       | Some (a, s1, e1) =>
           match k a s1 with
           | None => None
           | Some (b, s2, e2) => Some (b, s2, e1 ++ e2)
           end
       end.

(** Read the fields. *)
Definition get : Cmd St := λ s, Some (s, s, []).
(** Assign to fields. *)
Definition modify (f : St → St) : Cmd unit := λ s, Some (tt, f s, []).
(** Call a collaborator. *)
Definition call (e : Ev) : Cmd unit := λ s, Some (tt, s, [e]).
(** Undefined behaviour. *)
Definition undefined {A} : Cmd A := λ _, None.
(** [return;] and an empty statement. *)
Definition skip : Cmd unit := cmd_ret tt.

(** Every completed run of [m] relates the state before, the calls made
    and the state after by [R]. *)
Definition keeps (R : St → list Ev → St → Prop) {A} (m : Cmd A) : Prop :=
  ∀ s a s' calls, m s = Some (a, s', calls) → R s calls s'.
End Cmd.

Arguments Cmd : clear implicits.

#[global] Instance Cmd_ret {St Ev} : MRet (Cmd St Ev) := @cmd_ret St Ev.
#[global] Instance Cmd_bind {St Ev} : MBind (Cmd St Ev) := @cmd_bind St Ev.

(** A byte string: [base::ByteArray] and the [bytes] fields of the wire
    messages ([fromStdString] and [toStdString] only change the container). *)
Abbreviation ByteArray := (list Byte.byte).

(** [x.empty()] *)
Definition is_empty {A} (x : list A) : bool :=
  match x with [] => true | _ :: _ => false end.

(** C++ truth value of [x & flag]. *)
Definition has_flag (x flag : Z) : bool := negb (Z.land x flag =? 0).

(** * base::ServerAuthenticator *)

Module ServerAuthenticator.

(** [std::u16string]: a sequence of UTF-16 code units. *)
Abbreviation U16String := (list Z).

(** ** Wire messages (proto/key_exchange.proto, seen through the accessors
    the authenticator uses) *)

(** [proto::Identify] is an open proto3 enumeration: a value that is not
    one of its enumerators is kept as a number. *)
Inductive Identify :=
  | IDENTIFY_SRP
  | IDENTIFY_ANONYMOUS
  | IDENTIFY_unrecognized (value : Z).

Record ProtoVersion := {
  version_major : Z;
  version_minor : Z;
  version_patch : Z }.

Record ClientHello := {
  client_hello_encryption : Z;
  client_hello_identify : Identify;
  client_hello_iv : ByteArray;
  client_hello_public_key : ByteArray }.

Record ServerHello := {
  server_hello_encryption : Z;
  server_hello_iv : ByteArray }.

Record SrpIdentify := {
  identify_username : ByteArray }.

Record SrpServerKeyExchange := {
  server_key_exchange_number : ByteArray;
  server_key_exchange_generator : ByteArray;
  server_key_exchange_salt : ByteArray;
  server_key_exchange_b : ByteArray;
  server_key_exchange_iv : ByteArray }.

Record SrpClientKeyExchange := {
  client_key_exchange_a : ByteArray;
  client_key_exchange_iv : ByteArray }.

Record SessionChallenge := {
  session_challenge_session_types : Z;
  session_challenge_version : ProtoVersion }.

Record SessionResponse := {
  session_response_session_type : Z;
  session_response_version : ProtoVersion }.

(** What [channel_->send(serialize(...))] is given. *)
Inductive Message :=
  | MsgServerHello (m : ServerHello)
  | MsgSrpServerKeyExchange (m : SrpServerKeyExchange)
  | MsgSessionChallenge (m : SessionChallenge).

(** ** Enumerations of the class *)

Inductive State := STOPPED | PENDING | SUCCESS | FAILED.

Inductive InternalState :=
  | READ_CLIENT_HELLO
  | SEND_SERVER_HELLO
  | READ_IDENTIFY
  | SEND_SERVER_KEY_EXCHANGE
  | READ_CLIENT_KEY_EXCHANGE
  | SEND_SESSION_CHALLENGE
  | READ_SESSION_RESPONSE.

Inductive AnonymousAccess := ENABLE | DISABLE.

#[global] Instance State_eq_dec : EqDecision State.
Proof. solve_decision. Defined.
#[global] Instance InternalState_eq_dec : EqDecision InternalState.
Proof. solve_decision. Defined.
#[global] Instance AnonymousAccess_eq_dec : EqDecision AnonymousAccess.
Proof. solve_decision. Defined.

(** [base::User] (base/net/user.h). *)
Record User := {
  user_name : U16String;
  user_group : ByteArray;
  user_salt : ByteArray;
  user_verifier : ByteArray;
  user_sessions : Z;
  user_flags : Z }.

(** [base::UserList], read through [find] and [seedKey]. *)
Record UserList := {
  UserList_find : U16String → User;
  UserList_seedKey : ByteArray }.

Inductive HashType := BLAKE2b512 | BLAKE2s256.

(** ** Collaborators

    The authenticator is compiled against headers that are not part of the
    sources at hand: the protocol enumerators, the protobuf parsers, the key
    pair, the hash, the big numbers and SRP arithmetic, the AEAD factories
    and CPU detection.  They are the fields of [Platform]; the authenticator
    below is written once for every platform. *)
Class Platform := {
  (** proto::Encryption flags and their distinctness as enumerators. *)
  ENCRYPTION_AES256_GCM : Z;
  ENCRYPTION_CHACHA20_POLY1305 : Z;
  ENCRYPTION_distinct : ENCRYPTION_AES256_GCM ≠ ENCRYPTION_CHACHA20_POLY1305;
  (** [parse(buffer, &message)]; [None] when it returns false. *)
  parse_ClientHello : ByteArray → option ClientHello;
  parse_SrpIdentify : ByteArray → option SrpIdentify;
  parse_SrpClientKeyExchange : ByteArray → option SrpClientKeyExchange;
  parse_SessionResponse : ByteArray → option SessionResponse;
  (** build/version.h *)
  ASPIA_VERSION_MAJOR : Z;
  ASPIA_VERSION_MINOR : Z;
  ASPIA_VERSION_PATCH : Z;
  (** base/cpuid.h *)
  CPUID_hasAesNi : bool;
  (** base/crypto/key_pair.h; [KeyPair_default] is [KeyPair()]. *)
  KeyPair : Type;
  KeyPair_default : KeyPair;
  KeyPair_fromPrivateKey : ByteArray → KeyPair;
  KeyPair_isValid : KeyPair → bool;
  KeyPair_sessionKey : KeyPair → ByteArray → ByteArray;
  (** base/crypto/generic_hash.h: the digest of the chunks added in order. *)
  GenericHash_result : HashType → list ByteArray → ByteArray;
  (** base/crypto/big_num.h; [BigNum_default] is [BigNum()]. *)
  BigNum : Type;
  BigNum_default : BigNum;
  BigNum_fromStdString : ByteArray → BigNum;
  BigNum_fromByteArray : ByteArray → BigNum;
  BigNum_isValid : BigNum → bool;
  BigNum_toStdString : BigNum → ByteArray;
  BigNum_toByteArray : BigNum → ByteArray;
  (** base/crypto/srp_constants.h and srp_math.h *)
  pairByGroup : ByteArray → option (ByteArray * ByteArray);
  kSrpNgPair_8192 : ByteArray * ByteArray;
  SrpMath_calc_v : U16String → ByteArray → BigNum → BigNum → BigNum → BigNum;
  SrpMath_calc_B : BigNum → BigNum → BigNum → BigNum → BigNum;
  SrpMath_verify_A_mod_N : BigNum → BigNum → bool;
  SrpMath_calc_u : BigNum → BigNum → BigNum → BigNum;
  SrpMath_calcServerKey : BigNum → BigNum → BigNum → BigNum → BigNum → BigNum;
  (** base/net/user.h and base/strings/unicode.h *)
  User_isValid : User → bool;
  User_ENABLED : Z;
  utf16FromUtf8 : ByteArray → U16String;
  (** base/crypto/message_{en,de}cryptor_openssl.h: [None] is a null
      pointer. *)
  MessageEncryptor : Type;
  MessageDecryptor : Type;
  createEncryptorForAes256Gcm : ByteArray → ByteArray → option MessageEncryptor;
  createDecryptorForAes256Gcm : ByteArray → ByteArray → option MessageDecryptor;
  createEncryptorForChaCha20Poly1305 : ByteArray → ByteArray → option MessageEncryptor;
  createDecryptorForChaCha20Poly1305 : ByteArray → ByteArray → option MessageDecryptor;
}.

Section Authenticator.
Context `{Platform}.

(** [base::Version]. *)
Record Version := {
  Version_major : Z;
  Version_minor : Z;
  Version_patch : Z }.

(** The calls the authenticator makes on its channel, timer and delegate. *)
Inductive Call :=
  | channel_send (m : Message)
  | channel_setListener (attached : bool)
  | channel_resume
  | channel_pause
  | channel_setEncryptor (e : MessageEncryptor)
  | channel_setDecryptor (d : MessageDecryptor)
  | channel_reset
  | timer_start
  | timer_stop
  | delegate_onComplete.

(** The data members.  [channel_] tells whether the [unique_ptr] holds a
    channel; [user_list_] is [None] for a null pointer.  The delegate is only
    ever called, which [delegate_onComplete] records. *)
Record Fields := {
  state_ : State;
  internal_state_ : InternalState;
  channel_ : bool;
  user_list_ : option UserList;
  anonymous_access_ : AnonymousAccess;
  session_types_ : Z;
  key_pair_ : KeyPair;
  encrypt_iv_ : ByteArray;
  decrypt_iv_ : ByteArray;
  session_key_ : ByteArray;
  identify_ : Identify;
  encryption_ : Z;
  session_type_ : Z;
  peer_version_ : Version;
  user_name_ : U16String;
  N_ : BigNum;
  g_ : BigNum;
  s_ : BigNum;
  v_ : BigNum;
  b_ : BigNum;
  B_ : BigNum;
  A_ : BigNum }.

(** Assignment to one data member. *)
Definition set_state_ (x : State) (a : Fields) : Fields :=
  {| state_ := x; internal_state_ := internal_state_ a; channel_ := channel_ a;
     user_list_ := user_list_ a; anonymous_access_ := anonymous_access_ a;
     session_types_ := session_types_ a; key_pair_ := key_pair_ a;
     encrypt_iv_ := encrypt_iv_ a; decrypt_iv_ := decrypt_iv_ a;
     session_key_ := session_key_ a; identify_ := identify_ a;
     encryption_ := encryption_ a; session_type_ := session_type_ a;
     peer_version_ := peer_version_ a; user_name_ := user_name_ a; N_ := N_ a; g_ := g_ a;
     s_ := s_ a; v_ := v_ a; b_ := b_ a; B_ := B_ a; A_ := A_ a |}.
Definition set_internal_state_ (x : InternalState) (a : Fields) : Fields :=
  {| state_ := state_ a; internal_state_ := x; channel_ := channel_ a;
     user_list_ := user_list_ a; anonymous_access_ := anonymous_access_ a;
     session_types_ := session_types_ a; key_pair_ := key_pair_ a;
     encrypt_iv_ := encrypt_iv_ a; decrypt_iv_ := decrypt_iv_ a;
     session_key_ := session_key_ a; identify_ := identify_ a;
     encryption_ := encryption_ a; session_type_ := session_type_ a;
     peer_version_ := peer_version_ a; user_name_ := user_name_ a; N_ := N_ a; g_ := g_ a;
     s_ := s_ a; v_ := v_ a; b_ := b_ a; B_ := B_ a; A_ := A_ a |}.
Definition set_channel_ (x : bool) (a : Fields) : Fields :=
  {| state_ := state_ a; internal_state_ := internal_state_ a; channel_ := x;
     user_list_ := user_list_ a; anonymous_access_ := anonymous_access_ a;
     session_types_ := session_types_ a; key_pair_ := key_pair_ a;
     encrypt_iv_ := encrypt_iv_ a; decrypt_iv_ := decrypt_iv_ a;
     session_key_ := session_key_ a; identify_ := identify_ a;
     encryption_ := encryption_ a; session_type_ := session_type_ a;
     peer_version_ := peer_version_ a; user_name_ := user_name_ a; N_ := N_ a; g_ := g_ a;
     s_ := s_ a; v_ := v_ a; b_ := b_ a; B_ := B_ a; A_ := A_ a |}.
Definition set_user_list_ (x : option UserList) (a : Fields) : Fields :=
  {| state_ := state_ a; internal_state_ := internal_state_ a; channel_ := channel_ a;
     user_list_ := x; anonymous_access_ := anonymous_access_ a;
     session_types_ := session_types_ a; key_pair_ := key_pair_ a;
     encrypt_iv_ := encrypt_iv_ a; decrypt_iv_ := decrypt_iv_ a;
     session_key_ := session_key_ a; identify_ := identify_ a;
     encryption_ := encryption_ a; session_type_ := session_type_ a;
     peer_version_ := peer_version_ a; user_name_ := user_name_ a; N_ := N_ a; g_ := g_ a;
     s_ := s_ a; v_ := v_ a; b_ := b_ a; B_ := B_ a; A_ := A_ a |}.
Definition set_anonymous_access_ (x : AnonymousAccess) (a : Fields) : Fields :=
  {| state_ := state_ a; internal_state_ := internal_state_ a; channel_ := channel_ a;
     user_list_ := user_list_ a; anonymous_access_ := x;
     session_types_ := session_types_ a; key_pair_ := key_pair_ a;
     encrypt_iv_ := encrypt_iv_ a; decrypt_iv_ := decrypt_iv_ a;
     session_key_ := session_key_ a; identify_ := identify_ a;
     encryption_ := encryption_ a; session_type_ := session_type_ a;
     peer_version_ := peer_version_ a; user_name_ := user_name_ a; N_ := N_ a; g_ := g_ a;
     s_ := s_ a; v_ := v_ a; b_ := b_ a; B_ := B_ a; A_ := A_ a |}.
Definition set_session_types_ (x : Z) (a : Fields) : Fields :=
  {| state_ := state_ a; internal_state_ := internal_state_ a; channel_ := channel_ a;
     user_list_ := user_list_ a; anonymous_access_ := anonymous_access_ a;
     session_types_ := x; key_pair_ := key_pair_ a; encrypt_iv_ := encrypt_iv_ a;
     decrypt_iv_ := decrypt_iv_ a; session_key_ := session_key_ a;
     identify_ := identify_ a; encryption_ := encryption_ a;
     session_type_ := session_type_ a; peer_version_ := peer_version_ a;
     user_name_ := user_name_ a; N_ := N_ a; g_ := g_ a; s_ := s_ a; v_ := v_ a;
     b_ := b_ a; B_ := B_ a; A_ := A_ a |}.
Definition set_key_pair_ (x : KeyPair) (a : Fields) : Fields :=
  {| state_ := state_ a; internal_state_ := internal_state_ a; channel_ := channel_ a;
     user_list_ := user_list_ a; anonymous_access_ := anonymous_access_ a;
     session_types_ := session_types_ a; key_pair_ := x; encrypt_iv_ := encrypt_iv_ a;
     decrypt_iv_ := decrypt_iv_ a; session_key_ := session_key_ a;
     identify_ := identify_ a; encryption_ := encryption_ a;
     session_type_ := session_type_ a; peer_version_ := peer_version_ a;
     user_name_ := user_name_ a; N_ := N_ a; g_ := g_ a; s_ := s_ a; v_ := v_ a;
     b_ := b_ a; B_ := B_ a; A_ := A_ a |}.
Definition set_encrypt_iv_ (x : ByteArray) (a : Fields) : Fields :=
  {| state_ := state_ a; internal_state_ := internal_state_ a; channel_ := channel_ a;
     user_list_ := user_list_ a; anonymous_access_ := anonymous_access_ a;
     session_types_ := session_types_ a; key_pair_ := key_pair_ a; encrypt_iv_ := x;
     decrypt_iv_ := decrypt_iv_ a; session_key_ := session_key_ a;
     identify_ := identify_ a; encryption_ := encryption_ a;
     session_type_ := session_type_ a; peer_version_ := peer_version_ a;
     user_name_ := user_name_ a; N_ := N_ a; g_ := g_ a; s_ := s_ a; v_ := v_ a;
     b_ := b_ a; B_ := B_ a; A_ := A_ a |}.
Definition set_decrypt_iv_ (x : ByteArray) (a : Fields) : Fields :=
  {| state_ := state_ a; internal_state_ := internal_state_ a; channel_ := channel_ a;
     user_list_ := user_list_ a; anonymous_access_ := anonymous_access_ a;
     session_types_ := session_types_ a; key_pair_ := key_pair_ a;
     encrypt_iv_ := encrypt_iv_ a; decrypt_iv_ := x; session_key_ := session_key_ a;
     identify_ := identify_ a; encryption_ := encryption_ a;
     session_type_ := session_type_ a; peer_version_ := peer_version_ a;
     user_name_ := user_name_ a; N_ := N_ a; g_ := g_ a; s_ := s_ a; v_ := v_ a;
     b_ := b_ a; B_ := B_ a; A_ := A_ a |}.
Definition set_session_key_ (x : ByteArray) (a : Fields) : Fields :=
  {| state_ := state_ a; internal_state_ := internal_state_ a; channel_ := channel_ a;
     user_list_ := user_list_ a; anonymous_access_ := anonymous_access_ a;
     session_types_ := session_types_ a; key_pair_ := key_pair_ a;
     encrypt_iv_ := encrypt_iv_ a; decrypt_iv_ := decrypt_iv_ a; session_key_ := x;
     identify_ := identify_ a; encryption_ := encryption_ a;
     session_type_ := session_type_ a; peer_version_ := peer_version_ a;
     user_name_ := user_name_ a; N_ := N_ a; g_ := g_ a; s_ := s_ a; v_ := v_ a;
     b_ := b_ a; B_ := B_ a; A_ := A_ a |}.
Definition set_identify_ (x : Identify) (a : Fields) : Fields :=
  {| state_ := state_ a; internal_state_ := internal_state_ a; channel_ := channel_ a;
     user_list_ := user_list_ a; anonymous_access_ := anonymous_access_ a;
     session_types_ := session_types_ a; key_pair_ := key_pair_ a;
     encrypt_iv_ := encrypt_iv_ a; decrypt_iv_ := decrypt_iv_ a;
     session_key_ := session_key_ a; identify_ := x; encryption_ := encryption_ a;
     session_type_ := session_type_ a; peer_version_ := peer_version_ a;
     user_name_ := user_name_ a; N_ := N_ a; g_ := g_ a; s_ := s_ a; v_ := v_ a;
     b_ := b_ a; B_ := B_ a; A_ := A_ a |}.
Definition set_encryption_ (x : Z) (a : Fields) : Fields :=
  {| state_ := state_ a; internal_state_ := internal_state_ a; channel_ := channel_ a;
     user_list_ := user_list_ a; anonymous_access_ := anonymous_access_ a;
     session_types_ := session_types_ a; key_pair_ := key_pair_ a;
     encrypt_iv_ := encrypt_iv_ a; decrypt_iv_ := decrypt_iv_ a;
     session_key_ := session_key_ a; identify_ := identify_ a; encryption_ := x;
     session_type_ := session_type_ a; peer_version_ := peer_version_ a;
     user_name_ := user_name_ a; N_ := N_ a; g_ := g_ a; s_ := s_ a; v_ := v_ a;
     b_ := b_ a; B_ := B_ a; A_ := A_ a |}.
Definition set_session_type_ (x : Z) (a : Fields) : Fields :=
  {| state_ := state_ a; internal_state_ := internal_state_ a; channel_ := channel_ a;
     user_list_ := user_list_ a; anonymous_access_ := anonymous_access_ a;
     session_types_ := session_types_ a; key_pair_ := key_pair_ a;
     encrypt_iv_ := encrypt_iv_ a; decrypt_iv_ := decrypt_iv_ a;
     session_key_ := session_key_ a; identify_ := identify_ a;
     encryption_ := encryption_ a; session_type_ := x; peer_version_ := peer_version_ a;
     user_name_ := user_name_ a; N_ := N_ a; g_ := g_ a; s_ := s_ a; v_ := v_ a;
     b_ := b_ a; B_ := B_ a; A_ := A_ a |}.
Definition set_peer_version_ (x : Version) (a : Fields) : Fields :=
  {| state_ := state_ a; internal_state_ := internal_state_ a; channel_ := channel_ a;
     user_list_ := user_list_ a; anonymous_access_ := anonymous_access_ a;
     session_types_ := session_types_ a; key_pair_ := key_pair_ a;
     encrypt_iv_ := encrypt_iv_ a; decrypt_iv_ := decrypt_iv_ a;
     session_key_ := session_key_ a; identify_ := identify_ a;
     encryption_ := encryption_ a; session_type_ := session_type_ a; peer_version_ := x;
     user_name_ := user_name_ a; N_ := N_ a; g_ := g_ a; s_ := s_ a; v_ := v_ a;
     b_ := b_ a; B_ := B_ a; A_ := A_ a |}.
Definition set_user_name_ (x : U16String) (a : Fields) : Fields :=
  {| state_ := state_ a; internal_state_ := internal_state_ a; channel_ := channel_ a;
     user_list_ := user_list_ a; anonymous_access_ := anonymous_access_ a;
     session_types_ := session_types_ a; key_pair_ := key_pair_ a;
     encrypt_iv_ := encrypt_iv_ a; decrypt_iv_ := decrypt_iv_ a;
     session_key_ := session_key_ a; identify_ := identify_ a;
     encryption_ := encryption_ a; session_type_ := session_type_ a;
     peer_version_ := peer_version_ a; user_name_ := x; N_ := N_ a; g_ := g_ a; s_ := s_ a;
     v_ := v_ a; b_ := b_ a; B_ := B_ a; A_ := A_ a |}.
Definition set_N_ (x : BigNum) (a : Fields) : Fields :=
  {| state_ := state_ a; internal_state_ := internal_state_ a; channel_ := channel_ a;
     user_list_ := user_list_ a; anonymous_access_ := anonymous_access_ a;
     session_types_ := session_types_ a; key_pair_ := key_pair_ a;
     encrypt_iv_ := encrypt_iv_ a; decrypt_iv_ := decrypt_iv_ a;
     session_key_ := session_key_ a; identify_ := identify_ a;
     encryption_ := encryption_ a; session_type_ := session_type_ a;
     peer_version_ := peer_version_ a; user_name_ := user_name_ a; N_ := x; g_ := g_ a;
     s_ := s_ a; v_ := v_ a; b_ := b_ a; B_ := B_ a; A_ := A_ a |}.
Definition set_g_ (x : BigNum) (a : Fields) : Fields :=
  {| state_ := state_ a; internal_state_ := internal_state_ a; channel_ := channel_ a;
     user_list_ := user_list_ a; anonymous_access_ := anonymous_access_ a;
     session_types_ := session_types_ a; key_pair_ := key_pair_ a;
     encrypt_iv_ := encrypt_iv_ a; decrypt_iv_ := decrypt_iv_ a;
     session_key_ := session_key_ a; identify_ := identify_ a;
     encryption_ := encryption_ a; session_type_ := session_type_ a;
     peer_version_ := peer_version_ a; user_name_ := user_name_ a; N_ := N_ a; g_ := x;
     s_ := s_ a; v_ := v_ a; b_ := b_ a; B_ := B_ a; A_ := A_ a |}.
Definition set_s_ (x : BigNum) (a : Fields) : Fields :=
  {| state_ := state_ a; internal_state_ := internal_state_ a; channel_ := channel_ a;
     user_list_ := user_list_ a; anonymous_access_ := anonymous_access_ a;
     session_types_ := session_types_ a; key_pair_ := key_pair_ a;
     encrypt_iv_ := encrypt_iv_ a; decrypt_iv_ := decrypt_iv_ a;
     session_key_ := session_key_ a; identify_ := identify_ a;
     encryption_ := encryption_ a; session_type_ := session_type_ a;
     peer_version_ := peer_version_ a; user_name_ := user_name_ a; N_ := N_ a; g_ := g_ a;
     s_ := x; v_ := v_ a; b_ := b_ a; B_ := B_ a; A_ := A_ a |}.
Definition set_v_ (x : BigNum) (a : Fields) : Fields :=
  {| state_ := state_ a; internal_state_ := internal_state_ a; channel_ := channel_ a;
     user_list_ := user_list_ a; anonymous_access_ := anonymous_access_ a;
     session_types_ := session_types_ a; key_pair_ := key_pair_ a;
     encrypt_iv_ := encrypt_iv_ a; decrypt_iv_ := decrypt_iv_ a;
     session_key_ := session_key_ a; identify_ := identify_ a;
     encryption_ := encryption_ a; session_type_ := session_type_ a;
     peer_version_ := peer_version_ a; user_name_ := user_name_ a; N_ := N_ a; g_ := g_ a;
     s_ := s_ a; v_ := x; b_ := b_ a; B_ := B_ a; A_ := A_ a |}.
Definition set_b_ (x : BigNum) (a : Fields) : Fields :=
  {| state_ := state_ a; internal_state_ := internal_state_ a; channel_ := channel_ a;
     user_list_ := user_list_ a; anonymous_access_ := anonymous_access_ a;
     session_types_ := session_types_ a; key_pair_ := key_pair_ a;
     encrypt_iv_ := encrypt_iv_ a; decrypt_iv_ := decrypt_iv_ a;
     session_key_ := session_key_ a; identify_ := identify_ a;
     encryption_ := encryption_ a; session_type_ := session_type_ a;
     peer_version_ := peer_version_ a; user_name_ := user_name_ a; N_ := N_ a; g_ := g_ a;
     s_ := s_ a; v_ := v_ a; b_ := x; B_ := B_ a; A_ := A_ a |}.
Definition set_B_ (x : BigNum) (a : Fields) : Fields :=
  {| state_ := state_ a; internal_state_ := internal_state_ a; channel_ := channel_ a;
     user_list_ := user_list_ a; anonymous_access_ := anonymous_access_ a;
     session_types_ := session_types_ a; key_pair_ := key_pair_ a;
     encrypt_iv_ := encrypt_iv_ a; decrypt_iv_ := decrypt_iv_ a;
     session_key_ := session_key_ a; identify_ := identify_ a;
     encryption_ := encryption_ a; session_type_ := session_type_ a;
     peer_version_ := peer_version_ a; user_name_ := user_name_ a; N_ := N_ a; g_ := g_ a;
     s_ := s_ a; v_ := v_ a; b_ := b_ a; B_ := x; A_ := A_ a |}.
Definition set_A_ (x : BigNum) (a : Fields) : Fields :=
  {| state_ := state_ a; internal_state_ := internal_state_ a; channel_ := channel_ a;
     user_list_ := user_list_ a; anonymous_access_ := anonymous_access_ a;
     session_types_ := session_types_ a; key_pair_ := key_pair_ a;
     encrypt_iv_ := encrypt_iv_ a; decrypt_iv_ := decrypt_iv_ a;
     session_key_ := session_key_ a; identify_ := identify_ a;
     encryption_ := encryption_ a; session_type_ := session_type_ a;
     peer_version_ := peer_version_ a; user_name_ := user_name_ a; N_ := N_ a; g_ := g_ a;
     s_ := s_ a; v_ := v_ a; b_ := b_ a; B_ := B_ a; A_ := x |}.

(** A member function: a command over the data members. *)
Abbreviation Method := (Cmd Fields Call).

(** Modelled from the spec: the in-class initialisers of
    base/net/server_authenticator.h, which is not among the sources.  The
    authenticator is constructed idle ([STOPPED], waiting for the client
    hello) and its default configuration has no key pair, no allowed session
    types and disallows anonymous access. *)
Definition constructed : Fields :=
  {| state_ := STOPPED; internal_state_ := READ_CLIENT_HELLO; channel_ := false;
     user_list_ := None; anonymous_access_ := DISABLE; session_types_ := 0;
     key_pair_ := KeyPair_default; encrypt_iv_ := []; decrypt_iv_ := [];
     session_key_ := []; identify_ := IDENTIFY_SRP; encryption_ := 0;
     session_type_ := 0;
     peer_version_ := {| Version_major := 0; Version_minor := 0; Version_patch := 0 |};
     user_name_ := []; N_ := BigNum_default; g_ := BigNum_default; s_ := BigNum_default;
     v_ := BigNum_default; b_ := BigNum_default; B_ := BigNum_default;
     A_ := BigNum_default |}.

(** [channel_->f(...)]: undefined behaviour when [channel_] is null. *)
Definition on_channel (c : Call) : Method unit :=
  a ← get; if channel_ a then call c else undefined.

(** Modelled from the spec: [base::BitSet<uint32_t>::value] (base/bitset.h
    is not among the sources), the 32-bit value the set was made from. *)
Definition BitSet_value (v : Z) : Z := v `mod` 2 ^ 32.

(** Modelled from the spec: [base::BitSet<uint32_t>::count], which the spec
    reads as the population count of the 32-bit value. *)
Definition BitSet_count (v : Z) : Z :=
  Z.of_nat (length (filter (λ i, Z.testbit (BitSet_value v) i = true) (seqZ 0 32))).

(** [ServerAuthenticator::onFailed] *)
Definition onFailed : Method unit :=
  a ← get;
  if negb (channel_ a) then skip
  else
    call timer_stop;;
    call (channel_setListener false);;
    call channel_reset;;
    modify (set_channel_ false);;
    modify (set_state_ FAILED);;
    call delegate_onComplete.

(** [ServerAuthenticator::start].  The [DCHECK]s are debug-only and the
    delegate is taken to be non-null. *)
Definition start (channel : bool) (user_list : option UserList) : Method unit :=
  a ← get;
  if bool_decide (state_ a ≠ STOPPED) then skip
  else
    modify (set_channel_ channel);;
    modify (set_user_list_ user_list);;
    modify (set_state_ PENDING);;
    let listen : Method unit :=
      call timer_start;;
      on_channel (channel_setListener true);;
      on_channel channel_resume in
    if bool_decide (anonymous_access_ a = ENABLE) && negb (KeyPair_isValid (key_pair_ a))
    then onFailed
    else if bool_decide (anonymous_access_ a = ENABLE) then
      if negb (KeyPair_isValid (key_pair_ a)) then onFailed
      else if session_types_ a =? 0 then onFailed
      else listen
    else
      if negb (session_types_ a =? 0) then onFailed
      else listen.

(** [ServerAuthenticator::setPrivateKey]; [random_iv] is what
    [Random::byteArray(kIvSize)] returns in this call. *)
Definition setPrivateKey (private_key random_iv : ByteArray) : Method bool :=
  a ← get;
  if bool_decide (state_ a ≠ STOPPED) then mret false
  else if is_empty private_key then mret false
  else
    modify (set_key_pair_ (KeyPair_fromPrivateKey private_key));;
    if negb (KeyPair_isValid (KeyPair_fromPrivateKey private_key)) then mret false
    else
      modify (set_encrypt_iv_ random_iv);;
      if is_empty random_iv then mret false
      else mret true.

(** [ServerAuthenticator::setAnonymousAccess] *)
Definition setAnonymousAccess (anonymous_access : AnonymousAccess) (session_types : Z)
    : Method bool :=
  a ← get;
  if bool_decide (state_ a ≠ STOPPED) then mret false
  else
    let finish : Method bool :=
      modify (set_anonymous_access_ anonymous_access);;
      mret true in
    if bool_decide (anonymous_access = ENABLE) then
      if negb (KeyPair_isValid (key_pair_ a)) then mret false
      else if session_types =? 0 then mret false
      else modify (set_session_types_ session_types);; finish
    else
      modify (set_session_types_ 0);; finish.

(** [ServerAuthenticator::takeChannel]: the result tells whether a channel
    is handed over. *)
Definition takeChannel : Method bool :=
  a ← get;
  if bool_decide (state_ a ≠ SUCCESS) then mret false
  else modify (set_channel_ false);; mret (channel_ a).

(** [ServerAuthenticator::onDisconnected] *)
Definition onDisconnected : Method unit := onFailed.

(** [ServerAuthenticator::onSessionKeyChanged] *)
Definition onSessionKeyChanged : Method bool :=
  a ← get;
  let '(encryptor, decryptor) :=
    if encryption_ a =? ENCRYPTION_AES256_GCM then
      (createEncryptorForAes256Gcm (session_key_ a) (encrypt_iv_ a),
       createDecryptorForAes256Gcm (session_key_ a) (decrypt_iv_ a))
    else
      (createEncryptorForChaCha20Poly1305 (session_key_ a) (encrypt_iv_ a),
       createDecryptorForChaCha20Poly1305 (session_key_ a) (decrypt_iv_ a)) in
  match encryptor, decryptor with
  | Some e, Some d =>
      on_channel (channel_setEncryptor e);;
      on_channel (channel_setDecryptor d);;
      mret true
  | _, _ => onFailed;; mret false
  end.

(** [ServerAuthenticator::doSessionChallenge] *)
Definition doSessionChallenge : Method unit :=
  a ← get;
  on_channel (channel_send (MsgSessionChallenge
    {| session_challenge_session_types := session_types_ a;
       session_challenge_version :=
         {| version_major := ASPIA_VERSION_MAJOR;
            version_minor := ASPIA_VERSION_MINOR;
            version_patch := ASPIA_VERSION_PATCH |} |})).

(** [ServerAuthenticator::onClientHello] *)
Definition onClientHello (buffer : ByteArray) : Method unit :=
  match parse_ClientHello buffer with
  | None => onFailed
  | Some client_hello =>
    if negb (has_flag (client_hello_encryption client_hello) ENCRYPTION_AES256_GCM) &&
       negb (has_flag (client_hello_encryption client_hello) ENCRYPTION_CHACHA20_POLY1305)
    then onFailed
    else
      modify (set_identify_ (client_hello_identify client_hello));;
      a ← get;
      (* the statements after the [switch (identify_)] *)
      let after_switch : Method unit :=
        (* [server_hello] once the cipher is chosen *)
        let reply (iv : ByteArray) : Method unit :=
          let server_hello :=
            {| server_hello_encryption :=
                 if has_flag (client_hello_encryption client_hello) ENCRYPTION_AES256_GCM &&
                    CPUID_hasAesNi
                 then ENCRYPTION_AES256_GCM
                 else ENCRYPTION_CHACHA20_POLY1305;
               server_hello_iv := iv |} in
          modify (set_internal_state_ SEND_SERVER_HELLO);;
          modify (set_encryption_ (server_hello_encryption server_hello));;
          on_channel (channel_send (MsgServerHello server_hello)) in
        if KeyPair_isValid (key_pair_ a) then
          modify (set_decrypt_iv_ (client_hello_iv client_hello));;
          if is_empty (client_hello_iv client_hello) then onFailed
          else
            let peer_public_key := client_hello_public_key client_hello in
            if is_empty peer_public_key then onFailed
            else
              let temp := KeyPair_sessionKey (key_pair_ a) peer_public_key in
              if is_empty temp then onFailed
              else
                modify (set_session_key_ (GenericHash_result BLAKE2s256 [temp]));;
                if is_empty (GenericHash_result BLAKE2s256 [temp]) then onFailed
                else reply (encrypt_iv_ a)
        else reply [] in
      match client_hello_identify client_hello with
      | IDENTIFY_SRP => after_switch
      | IDENTIFY_ANONYMOUS =>
          if bool_decide (anonymous_access_ a = ENABLE) then onFailed
          else after_switch
      | IDENTIFY_unrecognized _ => onFailed
      end
  end.

(** [ServerAuthenticator::onIdentify]; [random_b] and [random_iv] are what
    [Random::byteArray(128)] and [Random::byteArray(kIvSize)] return. *)
Definition onIdentify (buffer random_b random_iv : ByteArray) : Method unit :=
  match parse_SrpIdentify buffer with
  | None => onFailed
  | Some identify =>
    modify (set_user_name_ (utf16FromUtf8 (identify_username identify)));;
    a ← get;
    if is_empty (user_name_ a) then onFailed
    else
      match user_list_ a with
      | None => undefined
      | Some user_list =>
        let user := UserList_find user_list (user_name_ a) in
        let enabled := User_isValid user && has_flag (user_flags user) User_ENABLED in
        (* the body of [do { ... } while (false)] *)
        (if enabled then modify (set_session_types_ (user_sessions user)) else skip);;
        match (if enabled then pairByGroup (user_group user) else None) with
        | Some Ng_pair =>
            modify (set_N_ (BigNum_fromStdString (Ng_pair.1)));;
            modify (set_g_ (BigNum_fromStdString (Ng_pair.2)));;
            modify (set_s_ (BigNum_fromByteArray (user_salt user)));;
            modify (set_v_ (BigNum_fromByteArray (user_verifier user)))
        | None =>
            modify (set_session_types_ 0);;
            modify (set_N_ (BigNum_fromStdString (kSrpNgPair_8192.1)));;
            modify (set_g_ (BigNum_fromStdString (kSrpNgPair_8192.2)));;
            modify (set_s_ (BigNum_fromByteArray
              (GenericHash_result BLAKE2b512
                 [UserList_seedKey user_list; identify_username identify])));;
            c ← get;
            modify (set_v_ (SrpMath_calc_v (user_name_ c) (UserList_seedKey user_list)
                              (s_ c) (N_ c) (g_ c)))
        end;;
        modify (set_b_ (BigNum_fromByteArray random_b));;
        c ← get;
        modify (set_B_ (SrpMath_calc_B (b_ c) (N_ c) (g_ c) (v_ c)));;
        c ← get;
        if negb (BigNum_isValid (N_ c)) || negb (BigNum_isValid (g_ c)) ||
           negb (BigNum_isValid (s_ c)) || negb (BigNum_isValid (B_ c))
        then onFailed
        else
          modify (set_internal_state_ SEND_SERVER_KEY_EXCHANGE);;
          modify (set_encrypt_iv_ random_iv);;
          on_channel (channel_send (MsgSrpServerKeyExchange
            {| server_key_exchange_number := BigNum_toStdString (N_ c);
               server_key_exchange_generator := BigNum_toStdString (g_ c);
               server_key_exchange_salt := BigNum_toStdString (s_ c);
               server_key_exchange_b := BigNum_toStdString (B_ c);
               server_key_exchange_iv := random_iv |}))
      end
  end.

(** [ServerAuthenticator::createSrpKey] *)
Definition createSrpKey : Method ByteArray :=
  a ← get;
  if negb (SrpMath_verify_A_mod_N (A_ a) (N_ a)) then mret []
  else
    let u := SrpMath_calc_u (A_ a) (B_ a) (N_ a) in
    let server_key := SrpMath_calcServerKey (A_ a) (v_ a) u (b_ a) (N_ a) in
    mret (BigNum_toByteArray server_key).

(** [ServerAuthenticator::onClientKeyExchange] *)
Definition onClientKeyExchange (buffer : ByteArray) : Method unit :=
  match parse_SrpClientKeyExchange buffer with
  | None => onFailed
  | Some client_key_exchange =>
    modify (set_A_ (BigNum_fromStdString (client_key_exchange_a client_key_exchange)));;
    modify (set_decrypt_iv_ (client_key_exchange_iv client_key_exchange));;
    a ← get;
    if negb (BigNum_isValid (A_ a)) || is_empty (decrypt_iv_ a) then onFailed
    else
      srp_key ← createSrpKey;
      if is_empty srp_key then onFailed
      else
        if (encryption_ a =? ENCRYPTION_AES256_GCM) ||
           (encryption_ a =? ENCRYPTION_CHACHA20_POLY1305)
        then
          modify (set_session_key_ (GenericHash_result BLAKE2s256
            ((if is_empty (session_key_ a) then [] else [session_key_ a]) ++ [srp_key])));;
          changed ← onSessionKeyChanged;
          if negb changed then skip
          else
            modify (set_internal_state_ SEND_SESSION_CHALLENGE);;
            doSessionChallenge
        else onFailed
  end.

(** [ServerAuthenticator::onSessionResponse] *)
Definition onSessionResponse (buffer : ByteArray) : Method unit :=
  on_channel channel_pause;;
  on_channel (channel_setListener false);;
  match parse_SessionResponse buffer with
  | None => onFailed
  | Some session_response =>
    let version := session_response_version session_response in
    modify (set_peer_version_
      {| Version_major := version_major version;
         Version_minor := version_minor version;
         Version_patch := version_patch version |});;
    let session_type := session_response_session_type session_response in
    if negb (BitSet_count session_type =? 1) then onFailed
    else
      modify (set_session_type_ (BitSet_value session_type));;
      a ← get;
      if negb (has_flag (session_types_ a) (session_type_ a)) then onFailed
      else
        call timer_stop;;
        modify (set_state_ SUCCESS);;
        call delegate_onComplete
  end.

(** [ServerAuthenticator::onMessageReceived]; [NOTREACHED()] is a debug
    assertion and does nothing in a release build. *)
Definition onMessageReceived (buffer random_b random_iv : ByteArray) : Method unit :=
  a ← get;
  match internal_state_ a with
  | READ_CLIENT_HELLO => onClientHello buffer
  | READ_IDENTIFY => onIdentify buffer random_b random_iv
  | READ_CLIENT_KEY_EXCHANGE => onClientKeyExchange buffer
  | READ_SESSION_RESPONSE => onSessionResponse buffer
  | _ => skip
  end.

(** [ServerAuthenticator::onMessageWritten] *)
Definition onMessageWritten : Method unit :=
  a ← get;
  match internal_state_ a with
  | SEND_SERVER_HELLO =>
      changed ← (if negb (is_empty (session_key_ a)) then onSessionKeyChanged else mret true);
      if negb changed then skip
      else
        match identify_ a with
        | IDENTIFY_SRP => modify (set_internal_state_ READ_IDENTIFY)
        | IDENTIFY_ANONYMOUS => doSessionChallenge
        | IDENTIFY_unrecognized _ => skip
        end
  | SEND_SERVER_KEY_EXCHANGE => modify (set_internal_state_ READ_CLIENT_KEY_EXCHANGE)
  | SEND_SESSION_CHALLENGE => modify (set_internal_state_ READ_SESSION_RESPONSE)
  | _ => skip
  end.

(** ** Executions

    What the channel and the timer do to a started authenticator: a message
    arrives, a message has been written, the connection is lost, and the timer
    that [start] arms with [onFailed] runs out. *)
Inductive Event :=
  | ev_message (buffer random_b random_iv : ByteArray)
  | ev_written
  | ev_disconnected
  | ev_timeout.

Definition handle (e : Event) : Method unit :=
  match e with
  | ev_message buffer random_b random_iv => onMessageReceived buffer random_b random_iv
  | ev_written => onMessageWritten
  | ev_disconnected => onDisconnected
  | ev_timeout => onFailed
  end.

Fixpoint run (events : list Event) : Method unit :=
  match events with
  | [] => skip
  | e :: rest => handle e;; run rest
  end.

End Authenticator.
End ServerAuthenticator.

(** * client::FileTransfer *)

Module FileTransfer.

(** ** Wire messages (proto/file_transfer.proto, seen through the accessors
    the coordinator uses) *)

(** [proto::FileError], an open proto3 enumeration. *)
Inductive FileError :=
  | FILE_ERROR_SUCCESS
  | FILE_ERROR_UNKNOWN
  | FILE_ERROR_PATH_ALREADY_EXISTS
  | FILE_ERROR_other (value : Z).

#[global] Instance FileError_eq_dec : EqDecision FileError.
Proof. solve_decision. Defined.

Record FilePacket := {
  packet_data : ByteArray;
  packet_flags : Z }.

(** [proto::FileRequest]: [has_x()] is [is_Some] of field [x].  The
    coordinator tests the fields in a fixed order, so nothing is assumed about
    how many of them are set. *)
Record FileRequest := {
  create_directory_request : option string;
  upload_request : option (string * bool);
  download_request : option string;
  packet_request : option Z;
  packet : option FilePacket }.

Record FileReply := {
  error_code : FileError;
  reply_packet : FilePacket }.

(** [common::FileTaskTarget] *)
Inductive FileTaskTarget := LOCAL | REMOTE.

(** ** Types of the class *)

Inductive TransferType := DOWNLOADER | UPLOADER.

(** [FileTransfer::Error::Type] *)
Inductive ErrorType :=
  | QUEUE
  | CREATE_DIRECTORY
  | CREATE_FILE
  | OPEN_FILE
  | ALREADY_EXISTS
  | WRITE_FILE
  | READ_FILE
  | OTHER.

(** [FileTransfer::Error::Action] *)
Inductive Action :=
  | ACTION_ASK
  | ACTION_ABORT
  | ACTION_SKIP
  | ACTION_SKIP_ALL
  | ACTION_REPLACE
  | ACTION_REPLACE_ALL.

#[global] Instance ErrorType_eq_dec : EqDecision ErrorType.
Proof. solve_decision. Defined.
#[global] Instance Action_eq_dec : EqDecision Action.
Proof. solve_decision. Defined.

#[global] Instance ErrorType_countable : Countable ErrorType.
Proof.
  refine (inj_countable'
    (λ t, match t with
          | QUEUE => 0 | CREATE_DIRECTORY => 1 | CREATE_FILE => 2 | OPEN_FILE => 3
          | ALREADY_EXISTS => 4 | WRITE_FILE => 5 | READ_FILE => 6 | OTHER => 7
          end%nat)
    (λ n, match n with
          | 0 => QUEUE | 1 => CREATE_DIRECTORY | 2 => CREATE_FILE | 3 => OPEN_FILE
          | 4 => ALREADY_EXISTS | 5 => WRITE_FILE | 6 => READ_FILE | _ => OTHER
          end%nat) _).
  by intros [].
Defined.

(** [FileTransfer::Error] *)
Record Error := {
  Error_type : ErrorType;
  Error_code : FileError;
  Error_path : string }.

(** [FileTransfer::Item] *)
Record Item := {
  item_name : string;
  item_is_directory : bool;
  item_size : Z }.

(** [client::FileTransferTask] *)
Record FileTransferTask := {
  sourcePath : string;
  targetPath : string;
  isDirectory : bool;
  size : Z;
  overwrite : bool }.

Definition setOverwrite (x : bool) (t : FileTransferTask) : FileTransferTask :=
  {| sourcePath := sourcePath t; targetPath := targetPath t;
     isDirectory := isDirectory t; size := size t; overwrite := x |}.

(** A [FinishCallback] given to [start], told apart by a handle. *)
Abbreviation FinishCallback := nat.

(** ** Collaborators

    Constants of headers that are not part of the sources at hand. *)
Class Platform := {
  (** common/file_packet.h *)
  kMaxFilePacketSize : Z;
  (** proto::FilePacket::Flags and proto::FilePacketRequest::Flags *)
  LAST_PACKET : Z;
  NO_FLAGS : Z;
  CANCEL : Z;
  (** The enumerators of [FileTransfer::Error::Action] as numbers. *)
  Action_value : Action → Z;
}.

Section Coordinator.
Context `{Platform}.

(** ** The action table *)

Record ActionsMap := {
  type : ErrorType;
  available_actions : Z;
  default_action : Action }.

Definition kActions : list ActionsMap :=
  [ {| type := CREATE_DIRECTORY;
       available_actions :=
         Z.lor (Z.lor (Action_value ACTION_ABORT) (Action_value ACTION_SKIP))
               (Action_value ACTION_SKIP_ALL);
       default_action := ACTION_ASK |};
    {| type := CREATE_FILE;
       available_actions :=
         Z.lor (Z.lor (Action_value ACTION_ABORT) (Action_value ACTION_SKIP))
               (Action_value ACTION_SKIP_ALL);
       default_action := ACTION_ASK |};
    {| type := OPEN_FILE;
       available_actions :=
         Z.lor (Z.lor (Action_value ACTION_ABORT) (Action_value ACTION_SKIP))
               (Action_value ACTION_SKIP_ALL);
       default_action := ACTION_ASK |};
    {| type := ALREADY_EXISTS;
       available_actions :=
         Z.lor (Z.lor (Z.lor (Z.lor (Action_value ACTION_ABORT) (Action_value ACTION_SKIP))
                             (Action_value ACTION_SKIP_ALL))
                      (Action_value ACTION_REPLACE))
               (Action_value ACTION_REPLACE_ALL);
       default_action := ACTION_ASK |};
    {| type := WRITE_FILE;
       available_actions :=
         Z.lor (Z.lor (Action_value ACTION_ABORT) (Action_value ACTION_SKIP))
               (Action_value ACTION_SKIP_ALL);
       default_action := ACTION_ASK |};
    {| type := READ_FILE;
       available_actions :=
         Z.lor (Z.lor (Action_value ACTION_ABORT) (Action_value ACTION_SKIP))
               (Action_value ACTION_SKIP_ALL);
       default_action := ACTION_ASK |};
    {| type := OTHER;
       available_actions := Action_value ACTION_ABORT;
       default_action := ACTION_ASK |} ].

(** The loop of [availableActions] and [defaultAction]: the first row of
    the table whose type is [t]. *)
Fixpoint first_row (t : ErrorType) (rows : list ActionsMap) : option ActionsMap :=
  match rows with
  | [] => None
  | row :: rows' => if bool_decide (type row = t) then Some row else first_row t rows'
  end.

(** [FileTransfer::Error::availableActions] *)
Definition availableActions (e : Error) : Z :=
  match first_row (Error_type e) kActions with
  | Some row => available_actions row
  | None => 0
  end.

(** [FileTransfer::Error::defaultAction] *)
Definition defaultAction (e : Error) : Action :=
  match first_row (Error_type e) kActions with
  | Some row => default_action row
  | None => ACTION_ABORT
  end.

(** ** Requests

    [client::FileRequestFactory] builds the requests; its header
    client/file_request_factory.h is not among the sources.  A factory is bound
    to one endpoint, which the coordinator keeps in place of the factory. *)

(** Modelled from the spec: [FileRequestFactory::createDirectoryRequest], a
    request with its [create_directory_request] set to [path]. *)
Definition createDirectoryRequest (path : string) : FileRequest :=
  {| create_directory_request := Some path; upload_request := None;
     download_request := None; packet_request := None; packet := None |}.

(** Modelled from the spec: [FileRequestFactory::uploadRequest], a request
    with its [upload_request] set to [path] and [overwrite]. *)
Definition uploadRequest (path : string) (overwrite : bool) : FileRequest :=
  {| create_directory_request := None; upload_request := Some (path, overwrite);
     download_request := None; packet_request := None; packet := None |}.

(** Modelled from the spec: [FileRequestFactory::downloadRequest], a request
    with its [download_request] set to [path]. *)
Definition downloadRequest (path : string) : FileRequest :=
  {| create_directory_request := None; upload_request := None;
     download_request := Some path; packet_request := None; packet := None |}.

(** Modelled from the spec: [FileRequestFactory::packetRequest], a request
    with its [packet_request] set to [flags]. *)
Definition packetRequest (flags : Z) : FileRequest :=
  {| create_directory_request := None; upload_request := None;
     download_request := None; packet_request := Some flags; packet := None |}.

(** Modelled from the spec: [FileRequestFactory::packet], a request that
    carries the packet [p]. *)
Definition packetOf (p : FilePacket) : FileRequest :=
  {| create_directory_request := None; upload_request := None;
     download_request := None; packet_request := None; packet := Some p |}.

(** The calls the coordinator makes on the window proxy, the request
    consumer, the queue builder, the cancel timer and the finish callback. *)
Inductive Call :=
  | window_start
  | window_stop
  | window_setCurrentItem (source_path target_path : string)
  | window_setCurrentProgress (total task : Z)
  | window_errorOccurred (e : Error)
  | doRequest (target : FileTaskTarget) (request : FileRequest)
  | queue_builder_start (target : FileTaskTarget)
      (source_path target_path : string) (items : list Item)
  | cancel_timer_start
  | cancel_timer_stop
  | callback (f : FinishCallback).

(** The data members.  A factory pointer is [None] while null and else the
    endpoint the factory is bound to; [queue_builder_] tells whether the
    pointer holds a builder, [cancel_timer_] whether the timer is active, and
    [finish_callback_] is [None] for an empty [std::function]. *)
Record Fields := {
  type_ : TransferType;
  request_factory_source_ : option FileTaskTarget;
  request_factory_target_ : option FileTaskTarget;
  queue_builder_ : bool;
  cancel_timer_ : bool;
  actions_ : gmap ErrorType Action;
  tasks_ : list FileTransferTask;
  finish_callback_ : option FinishCallback;
  total_size_ : Z;
  total_transfered_size_ : Z;
  task_transfered_size_ : Z;
  total_percentage_ : Z;
  task_percentage_ : Z;
  is_canceled_ : bool }.

(** Assignment to one data member. *)
Definition set_type_ (x : TransferType) (a : Fields) : Fields :=
  {| type_ := x; request_factory_source_ := request_factory_source_ a;
     request_factory_target_ := request_factory_target_ a;
     queue_builder_ := queue_builder_ a; cancel_timer_ := cancel_timer_ a;
     actions_ := actions_ a; tasks_ := tasks_ a; finish_callback_ := finish_callback_ a;
     total_size_ := total_size_ a; total_transfered_size_ := total_transfered_size_ a;
     task_transfered_size_ := task_transfered_size_ a;
     total_percentage_ := total_percentage_ a; task_percentage_ := task_percentage_ a;
     is_canceled_ := is_canceled_ a |}.
Definition set_request_factory_source_ (x : option FileTaskTarget) (a : Fields) : Fields :=
  {| type_ := type_ a; request_factory_source_ := x;
     request_factory_target_ := request_factory_target_ a;
     queue_builder_ := queue_builder_ a; cancel_timer_ := cancel_timer_ a;
     actions_ := actions_ a; tasks_ := tasks_ a; finish_callback_ := finish_callback_ a;
     total_size_ := total_size_ a; total_transfered_size_ := total_transfered_size_ a;
     task_transfered_size_ := task_transfered_size_ a;
     total_percentage_ := total_percentage_ a; task_percentage_ := task_percentage_ a;
     is_canceled_ := is_canceled_ a |}.
Definition set_request_factory_target_ (x : option FileTaskTarget) (a : Fields) : Fields :=
  {| type_ := type_ a; request_factory_source_ := request_factory_source_ a;
     request_factory_target_ := x; queue_builder_ := queue_builder_ a;
     cancel_timer_ := cancel_timer_ a; actions_ := actions_ a; tasks_ := tasks_ a;
     finish_callback_ := finish_callback_ a; total_size_ := total_size_ a;
     total_transfered_size_ := total_transfered_size_ a;
     task_transfered_size_ := task_transfered_size_ a;
     total_percentage_ := total_percentage_ a; task_percentage_ := task_percentage_ a;
     is_canceled_ := is_canceled_ a |}.
Definition set_queue_builder_ (x : bool) (a : Fields) : Fields :=
  {| type_ := type_ a; request_factory_source_ := request_factory_source_ a;
     request_factory_target_ := request_factory_target_ a; queue_builder_ := x;
     cancel_timer_ := cancel_timer_ a; actions_ := actions_ a; tasks_ := tasks_ a;
     finish_callback_ := finish_callback_ a; total_size_ := total_size_ a;
     total_transfered_size_ := total_transfered_size_ a;
     task_transfered_size_ := task_transfered_size_ a;
     total_percentage_ := total_percentage_ a; task_percentage_ := task_percentage_ a;
     is_canceled_ := is_canceled_ a |}.
Definition set_cancel_timer_ (x : bool) (a : Fields) : Fields :=
  {| type_ := type_ a; request_factory_source_ := request_factory_source_ a;
     request_factory_target_ := request_factory_target_ a;
     queue_builder_ := queue_builder_ a; cancel_timer_ := x; actions_ := actions_ a;
     tasks_ := tasks_ a; finish_callback_ := finish_callback_ a;
     total_size_ := total_size_ a; total_transfered_size_ := total_transfered_size_ a;
     task_transfered_size_ := task_transfered_size_ a;
     total_percentage_ := total_percentage_ a; task_percentage_ := task_percentage_ a;
     is_canceled_ := is_canceled_ a |}.
Definition set_actions_ (x : gmap ErrorType Action) (a : Fields) : Fields :=
  {| type_ := type_ a; request_factory_source_ := request_factory_source_ a;
     request_factory_target_ := request_factory_target_ a;
     queue_builder_ := queue_builder_ a; cancel_timer_ := cancel_timer_ a; actions_ := x;
     tasks_ := tasks_ a; finish_callback_ := finish_callback_ a;
     total_size_ := total_size_ a; total_transfered_size_ := total_transfered_size_ a;
     task_transfered_size_ := task_transfered_size_ a;
     total_percentage_ := total_percentage_ a; task_percentage_ := task_percentage_ a;
     is_canceled_ := is_canceled_ a |}.
Definition set_tasks_ (x : list FileTransferTask) (a : Fields) : Fields :=
  {| type_ := type_ a; request_factory_source_ := request_factory_source_ a;
     request_factory_target_ := request_factory_target_ a;
     queue_builder_ := queue_builder_ a; cancel_timer_ := cancel_timer_ a;
     actions_ := actions_ a; tasks_ := x; finish_callback_ := finish_callback_ a;
     total_size_ := total_size_ a; total_transfered_size_ := total_transfered_size_ a;
     task_transfered_size_ := task_transfered_size_ a;
     total_percentage_ := total_percentage_ a; task_percentage_ := task_percentage_ a;
     is_canceled_ := is_canceled_ a |}.
Definition set_finish_callback_ (x : option FinishCallback) (a : Fields) : Fields :=
  {| type_ := type_ a; request_factory_source_ := request_factory_source_ a;
     request_factory_target_ := request_factory_target_ a;
     queue_builder_ := queue_builder_ a; cancel_timer_ := cancel_timer_ a;
     actions_ := actions_ a; tasks_ := tasks_ a; finish_callback_ := x;
     total_size_ := total_size_ a; total_transfered_size_ := total_transfered_size_ a;
     task_transfered_size_ := task_transfered_size_ a;
     total_percentage_ := total_percentage_ a; task_percentage_ := task_percentage_ a;
     is_canceled_ := is_canceled_ a |}.
Definition set_total_size_ (x : Z) (a : Fields) : Fields :=
  {| type_ := type_ a; request_factory_source_ := request_factory_source_ a;
     request_factory_target_ := request_factory_target_ a;
     queue_builder_ := queue_builder_ a; cancel_timer_ := cancel_timer_ a;
     actions_ := actions_ a; tasks_ := tasks_ a; finish_callback_ := finish_callback_ a;
     total_size_ := x; total_transfered_size_ := total_transfered_size_ a;
     task_transfered_size_ := task_transfered_size_ a;
     total_percentage_ := total_percentage_ a; task_percentage_ := task_percentage_ a;
     is_canceled_ := is_canceled_ a |}.
Definition set_total_transfered_size_ (x : Z) (a : Fields) : Fields :=
  {| type_ := type_ a; request_factory_source_ := request_factory_source_ a;
     request_factory_target_ := request_factory_target_ a;
     queue_builder_ := queue_builder_ a; cancel_timer_ := cancel_timer_ a;
     actions_ := actions_ a; tasks_ := tasks_ a; finish_callback_ := finish_callback_ a;
     total_size_ := total_size_ a; total_transfered_size_ := x;
     task_transfered_size_ := task_transfered_size_ a;
     total_percentage_ := total_percentage_ a; task_percentage_ := task_percentage_ a;
     is_canceled_ := is_canceled_ a |}.
Definition set_task_transfered_size_ (x : Z) (a : Fields) : Fields :=
  {| type_ := type_ a; request_factory_source_ := request_factory_source_ a;
     request_factory_target_ := request_factory_target_ a;
     queue_builder_ := queue_builder_ a; cancel_timer_ := cancel_timer_ a;
     actions_ := actions_ a; tasks_ := tasks_ a; finish_callback_ := finish_callback_ a;
     total_size_ := total_size_ a; total_transfered_size_ := total_transfered_size_ a;
     task_transfered_size_ := x; total_percentage_ := total_percentage_ a;
     task_percentage_ := task_percentage_ a; is_canceled_ := is_canceled_ a |}.
Definition set_total_percentage_ (x : Z) (a : Fields) : Fields :=
  {| type_ := type_ a; request_factory_source_ := request_factory_source_ a;
     request_factory_target_ := request_factory_target_ a;
     queue_builder_ := queue_builder_ a; cancel_timer_ := cancel_timer_ a;
     actions_ := actions_ a; tasks_ := tasks_ a; finish_callback_ := finish_callback_ a;
     total_size_ := total_size_ a; total_transfered_size_ := total_transfered_size_ a;
     task_transfered_size_ := task_transfered_size_ a; total_percentage_ := x;
     task_percentage_ := task_percentage_ a; is_canceled_ := is_canceled_ a |}.
Definition set_task_percentage_ (x : Z) (a : Fields) : Fields :=
  {| type_ := type_ a; request_factory_source_ := request_factory_source_ a;
     request_factory_target_ := request_factory_target_ a;
     queue_builder_ := queue_builder_ a; cancel_timer_ := cancel_timer_ a;
     actions_ := actions_ a; tasks_ := tasks_ a; finish_callback_ := finish_callback_ a;
     total_size_ := total_size_ a; total_transfered_size_ := total_transfered_size_ a;
     task_transfered_size_ := task_transfered_size_ a;
     total_percentage_ := total_percentage_ a; task_percentage_ := x;
     is_canceled_ := is_canceled_ a |}.
Definition set_is_canceled_ (x : bool) (a : Fields) : Fields :=
  {| type_ := type_ a; request_factory_source_ := request_factory_source_ a;
     request_factory_target_ := request_factory_target_ a;
     queue_builder_ := queue_builder_ a; cancel_timer_ := cancel_timer_ a;
     actions_ := actions_ a; tasks_ := tasks_ a; finish_callback_ := finish_callback_ a;
     total_size_ := total_size_ a; total_transfered_size_ := total_transfered_size_ a;
     task_transfered_size_ := task_transfered_size_ a;
     total_percentage_ := total_percentage_ a; task_percentage_ := task_percentage_ a;
     is_canceled_ := x |}.

(** A member function: a command over the data members. *)
Abbreviation Method := (Cmd Fields Call).

(** Modelled from the spec: the in-class initialisers of
    client/file_transfer.h, which is not among the sources.  A coordinator that
    has just been constructed for [type] has an empty queue, no sticky
    actions, null factories, no queue builder, zero counters, and is not
    cancelled. *)
Definition constructed (type : TransferType) : Fields :=
  {| type_ := type; request_factory_source_ := None; request_factory_target_ := None;
     queue_builder_ := false; cancel_timer_ := false; actions_ := ∅; tasks_ := [];
     finish_callback_ := None; total_size_ := 0; total_transfered_size_ := 0;
     task_transfered_size_ := 0; total_percentage_ := 0; task_percentage_ := 0;
     is_canceled_ := false |}.

(** An [int64_t] result: signed overflow is undefined behaviour. *)
Definition int64 (x : Z) : Method Z :=
  if bool_decide (- 2 ^ 63 ≤ x < 2 ^ 63) then mret x else undefined.

(** Conversion of an [int64_t] to [int]. *)
Definition to_int (x : Z) : Z := (x + 2 ^ 31) `mod` 2 ^ 32 - 2 ^ 31.

(** [factory->...]: undefined behaviour when the factory pointer is null;
    the result is the endpoint the built request is addressed to. *)
Definition factory (f : Fields → option FileTaskTarget) : Method FileTaskTarget :=
  a ← get;
  match f a with
  | Some target => mret target
  | None => undefined
  end.

(** [FileTransfer::frontTask]: [tasks_.front()], undefined on an empty
    list. *)
Definition frontTask : Method FileTransferTask :=
  a ← get;
  match tasks_ a with
  | front :: _ => mret front
  | [] => undefined
  end.

(** [while (!tasks_.empty()) tasks_.pop_front();] *)
Fixpoint pop_all (tasks : list FileTransferTask) : list FileTransferTask :=
  match tasks with
  | [] => []
  | _ :: rest => pop_all rest
  end.

(** [tasks_.pop_front()] on a non-empty list. *)
Definition pop_front (tasks : list FileTransferTask) : list FileTransferTask :=
  match tasks with
  | [] => []
  | _ :: rest => rest
  end.

(** [FileTransfer::onFinished] *)
Definition onFinished : Method unit :=
  a ← get;
  modify (set_finish_callback_ None);;
  match finish_callback_ a with
  | Some f =>
      call window_stop;;
      call (callback f)
  | None => skip
  end.

(** [FileTransfer::setActionForErrorType] *)
Definition setActionForErrorType (error_type : ErrorType) (action : Action) : Method unit :=
  modify (λ a, set_actions_ (<[error_type := action]> (actions_ a)) a).

(** [FileTransfer::doFrontTask] *)
Definition doFrontTask (overwrite : bool) : Method unit :=
  modify (set_task_percentage_ 0);;
  modify (set_task_transfered_size_ 0);;
  front ← frontTask;
  let front_task := setOverwrite overwrite front in
  modify (λ a, set_tasks_ (front_task :: pop_front (tasks_ a)) a);;
  call (window_setCurrentItem (sourcePath front_task) (targetPath front_task));;
  if isDirectory front_task then
    target ← factory request_factory_target_;
    call (doRequest target (createDirectoryRequest (targetPath front_task)))
  else
    source ← factory request_factory_source_;
    call (doRequest source (downloadRequest (sourcePath front_task))).

(** [FileTransfer::doNextTask] *)
Definition doNextTask : Method unit :=
  a ← get;
  (if is_canceled_ a then modify (set_tasks_ (pop_all (tasks_ a))) else skip);;
  a ← get;
  (if negb (is_empty (tasks_ a)) then modify (set_tasks_ (pop_front (tasks_ a))) else skip);;
  a ← get;
  if is_empty (tasks_ a) then
    (if cancel_timer_ a
     then modify (set_cancel_timer_ false);; call cancel_timer_stop
     else skip);;
    onFinished
  else doFrontTask false.

(** [FileTransfer::setAction]; [NOTREACHED()] is a debug assertion. *)
Definition setAction (error_type : ErrorType) (action : Action) : Method unit :=
  match action with
  | ACTION_ABORT => onFinished
  | ACTION_REPLACE | ACTION_REPLACE_ALL =>
      (if bool_decide (action = ACTION_REPLACE_ALL)
       then setActionForErrorType error_type action
       else skip);;
      doFrontTask true
  | ACTION_SKIP | ACTION_SKIP_ALL =>
      (if bool_decide (action = ACTION_SKIP_ALL)
       then setActionForErrorType error_type action
       else skip);;
      doNextTask
  | ACTION_ASK => skip
  end.

(** [FileTransfer::onError] *)
Definition onError (type : ErrorType) (code : FileError) (path : string) : Method unit :=
  a ← get;
  match actions_ a !! type with
  | Some default_action => setAction type default_action
  | None =>
      call (window_errorOccurred
        {| Error_type := type; Error_code := code; Error_path := path |})
  end.

(** [FileTransfer::start] *)
Definition start (source_path target_path : string) (items : list Item)
    (finish_callback : option FinishCallback) : Method unit :=
  modify (set_finish_callback_ finish_callback);;
  a ← get;
  match type_ a with
  | DOWNLOADER =>
      modify (set_request_factory_source_ (Some REMOTE));;
      modify (set_request_factory_target_ (Some LOCAL))
  | UPLOADER =>
      modify (set_request_factory_source_ (Some LOCAL));;
      modify (set_request_factory_target_ (Some REMOTE))
  end;;
  call window_start;;
  source ← factory request_factory_source_;
  modify (set_queue_builder_ true);;
  call (queue_builder_start source source_path target_path items).

(** The callback [start] gives to the queue builder; [queue] and
    [total_size] are what [takeQueue()] and [totalSize()] return. *)
Definition onQueueBuilderFinished (error_code : FileError)
    (queue : list FileTransferTask) (total_size : Z) : Method unit :=
  (if bool_decide (error_code = FILE_ERROR_SUCCESS) then
     a ← get;
     if queue_builder_ a then
       modify (set_tasks_ queue);;
       modify (set_total_size_ total_size);;
       if is_empty queue then onFinished else doFrontTask false
     else undefined
   else onError QUEUE FILE_ERROR_UNKNOWN "");;
  modify (set_queue_builder_ false).

(** [FileTransfer::stop] *)
Definition stop : Method unit :=
  a ← get;
  if queue_builder_ a then
    modify (set_queue_builder_ false);;
    onFinished
  else
    modify (set_is_canceled_ true);;
    modify (set_cancel_timer_ true);;
    call cancel_timer_start.

(** [FileTransfer::targetReply] *)
Definition targetReply (request : FileRequest) (reply : FileReply) : Method unit :=
  a ← get;
  if is_empty (tasks_ a) then skip
  else if bool_decide (is_Some (create_directory_request request)) then
    if bool_decide (error_code reply = FILE_ERROR_SUCCESS) ||
       bool_decide (error_code reply = FILE_ERROR_PATH_ALREADY_EXISTS)
    then doNextTask
    else
      front ← frontTask;
      onError CREATE_DIRECTORY (error_code reply) (targetPath front)
  else if bool_decide (is_Some (upload_request request)) then
    if bool_decide (error_code reply ≠ FILE_ERROR_SUCCESS) then
      let error_type :=
        if bool_decide (error_code reply = FILE_ERROR_PATH_ALREADY_EXISTS)
        then ALREADY_EXISTS else CREATE_FILE in
      front ← frontTask;
      onError error_type (error_code reply) (targetPath front)
    else
      source ← factory request_factory_source_;
      call (doRequest source (packetRequest NO_FLAGS))
  else
    match packet request with
    | Some request_packet =>
      if bool_decide (error_code reply ≠ FILE_ERROR_SUCCESS) then
        front ← frontTask;
        onError WRITE_FILE (error_code reply) (targetPath front)
      else
        front ← frontTask;
        let full_task_size := size front in
        (if negb (full_task_size =? 0) && negb (total_size_ a =? 0) then
           let packet_size := kMaxFilePacketSize in
           task_transfered ← int64 (task_transfered_size_ a + packet_size);
           modify (set_task_transfered_size_ task_transfered);;
           packet_size ←
             (if full_task_size <? task_transfered then
                excess ← int64 (task_transfered - full_task_size);
                modify (set_task_transfered_size_ full_task_size);;
                mret excess
              else mret packet_size);
           total_transfered ← int64 (total_transfered_size_ a + packet_size);
           modify (set_total_transfered_size_ total_transfered);;
           b ← get;
           task_scaled ← int64 (task_transfered_size_ b * 100);
           total_scaled ← int64 (total_transfered_size_ b * 100);
           let task_percentage := to_int (task_scaled `quot` full_task_size) in
           let total_percentage := to_int (total_scaled `quot` total_size_ b) in
           if negb (task_percentage =? task_percentage_ b) ||
              negb (total_percentage =? total_percentage_ b)
           then
             modify (set_task_percentage_ task_percentage);;
             modify (set_total_percentage_ total_percentage);;
             call (window_setCurrentProgress total_percentage task_percentage)
           else skip
         else skip);;
        if has_flag (packet_flags request_packet) LAST_PACKET then doNextTask
        else
          b ← get;
          let flags := if is_canceled_ b then CANCEL else NO_FLAGS in
          source ← factory request_factory_source_;
          call (doRequest source (packetRequest flags))
    | None => onError OTHER FILE_ERROR_UNKNOWN ""
    end.

(** [FileTransfer::sourceReply] *)
Definition sourceReply (request : FileRequest) (reply : FileReply) : Method unit :=
  a ← get;
  if is_empty (tasks_ a) then skip
  else if bool_decide (is_Some (download_request request)) then
    front_task ← frontTask;
    if bool_decide (error_code reply ≠ FILE_ERROR_SUCCESS) then
      onError OPEN_FILE (error_code reply) (sourcePath front_task)
    else
      target ← factory request_factory_target_;
      call (doRequest target (uploadRequest (targetPath front_task) (overwrite front_task)))
  else if bool_decide (is_Some (packet_request request)) then
    if bool_decide (error_code reply ≠ FILE_ERROR_SUCCESS) then
      front ← frontTask;
      onError READ_FILE (error_code reply) (sourcePath front)
    else
      target ← factory request_factory_target_;
      call (doRequest target (packetOf (reply_packet reply)))
  else onError OTHER FILE_ERROR_UNKNOWN "".

(** [FileTransfer::onReply]; [target] is [request->target()]. *)
Definition onReply (target : FileTaskTarget) (request : FileRequest) (reply : FileReply)
    : Method unit :=
  a ← get;
  match type_ a, target with
  | DOWNLOADER, LOCAL => targetReply request reply
  | DOWNLOADER, REMOTE => sourceReply request reply
  | UPLOADER, LOCAL => sourceReply request reply
  | UPLOADER, REMOTE => targetReply request reply
  end.

(** ** Executions

    What can happen to a coordinator: the calls of its public interface, a
    reply delivered by the producer proxy, the queue builder reporting, and
    the cancel timer running out. *)
Inductive Event :=
  | ev_start (source_path target_path : string) (items : list Item)
      (finish_callback : option FinishCallback)
  | ev_stop
  | ev_setAction (error_type : ErrorType) (action : Action)
  | ev_reply (target : FileTaskTarget) (request : FileRequest) (reply : FileReply)
  | ev_queue_built (error_code : FileError) (queue : list FileTransferTask) (total_size : Z)
  | ev_cancel_timer.

(** Modelled from the spec: the queue builder and the cancel timer
    (client/file_transfer_queue_builder.cc and base/waitable_timer.h are not
    among the sources).  A builder that was destroyed reports nothing, and the
    single-shot timer armed by [stop] runs [onFinished] when it expires while
    active. *)
Definition handle (e : Event) : Method unit :=
  match e with
  | ev_start source_path target_path items finish_callback =>
      start source_path target_path items finish_callback
  | ev_stop => stop
  | ev_setAction error_type action => setAction error_type action
  | ev_reply target request reply => onReply target request reply
  | ev_queue_built error_code queue total_size =>
      a ← get;
      if queue_builder_ a then onQueueBuilderFinished error_code queue total_size
      else skip
  | ev_cancel_timer =>
      a ← get;
      if cancel_timer_ a then modify (set_cancel_timer_ false);; onFinished
      else skip
  end.

Fixpoint run (events : list Event) : Method unit :=
  match events with
  | [] => skip
  | e :: rest => handle e;; run rest
  end.

End Coordinator.
End FileTransfer.

(** * Platforms to run the code on

    Stand-ins for the collaborators, small enough to evaluate: they let the
    embedded code run on concrete inputs. *)

Module Bench.
Import ServerAuthenticator.

(** A client hello laid out as: encryption mask, identify method, twelve
    bytes of IV, public key. *)
Definition parse_ClientHello (buffer : ByteArray) : option ClientHello :=
  match buffer with
  | encryption :: identify :: rest =>
      Some {| client_hello_encryption := Z.of_N (Byte.to_N encryption);
              client_hello_identify :=
                match Byte.to_N identify with
                | 0%N => IDENTIFY_SRP
                | 1%N => IDENTIFY_ANONYMOUS
                | n => IDENTIFY_unrecognized (Z.of_N n)
                end;
              client_hello_iv := take 12 rest;
              client_hello_public_key := drop 12 rest |}
  | _ => None
  end.

(** A session response laid out as one byte of session type. *)
Definition parse_SessionResponse (buffer : ByteArray) : option SessionResponse :=
  match buffer with
  | [session_type] =>
      Some {| session_response_session_type := Z.of_N (Byte.to_N session_type);
              session_response_version :=
                {| version_major := 1; version_minor := 3; version_patch := 0 |} |}
  | _ => None
  end.

Definition parse_SrpClientKeyExchange (buffer : ByteArray) : option SrpClientKeyExchange :=
  match buffer with
  | [] => None
  | _ => Some {| client_key_exchange_a := take 1 buffer;
                 client_key_exchange_iv := drop 1 buffer |}
  end.

(** The authenticator's platform, with or without AES-NI. *)
Definition authenticator (aes_ni : bool) : Platform :=
  {| ENCRYPTION_AES256_GCM := 1;
     ENCRYPTION_CHACHA20_POLY1305 := 2;
     ENCRYPTION_distinct := ltac:(discriminate);
     ServerAuthenticator.parse_ClientHello := parse_ClientHello;
     parse_SrpIdentify := λ buffer, Some {| identify_username := buffer |};
     ServerAuthenticator.parse_SrpClientKeyExchange := parse_SrpClientKeyExchange;
     ServerAuthenticator.parse_SessionResponse := parse_SessionResponse;
     ASPIA_VERSION_MAJOR := 1;
     ASPIA_VERSION_MINOR := 3;
     ASPIA_VERSION_PATCH := 0;
     CPUID_hasAesNi := aes_ni;
     KeyPair := ByteArray;
     KeyPair_default := [];
     KeyPair_fromPrivateKey := λ private_key, private_key;
     KeyPair_isValid := λ key, negb (is_empty key);
     KeyPair_sessionKey := λ key peer, key ++ peer;
     GenericHash_result := λ _ chunks, concat chunks;
     BigNum := ByteArray;
     BigNum_default := [];
     BigNum_fromStdString := λ x, x;
     BigNum_fromByteArray := λ x, x;
     BigNum_isValid := λ x, negb (is_empty x);
     BigNum_toStdString := λ x, x;
     BigNum_toByteArray := λ x, x;
     pairByGroup := λ group, if is_empty group then None else Some ([Byte.x0b], [Byte.x02]);
     kSrpNgPair_8192 := ([Byte.x0b], [Byte.x02]);
     SrpMath_calc_v := λ _ seed s _ _, seed ++ s;
     SrpMath_calc_B := λ b _ g v, b ++ g ++ v;
     SrpMath_verify_A_mod_N := λ A _, negb (is_empty A);
     SrpMath_calc_u := λ A B _, A ++ B;
     SrpMath_calcServerKey := λ A v u b _, A ++ v ++ u ++ b;
     User_isValid := λ user, negb (is_empty (user_name user));
     User_ENABLED := 1;
     utf16FromUtf8 := map (λ c, Z.of_N (Byte.to_N c));
     MessageEncryptor := Z * ByteArray * ByteArray;
     MessageDecryptor := Z * ByteArray * ByteArray;
     createEncryptorForAes256Gcm := λ key iv, Some (1, key, iv);
     createDecryptorForAes256Gcm := λ key iv, Some (1, key, iv);
     createEncryptorForChaCha20Poly1305 := λ key iv, Some (2, key, iv);
     createDecryptorForChaCha20Poly1305 := λ key iv, Some (2, key, iv) |}.

(** A user list without users. *)
Definition no_users : UserList :=
  {| UserList_find := λ _,
       {| user_name := []; user_group := []; user_salt := []; user_verifier := [];
          user_sessions := 0; user_flags := 0 |};
     UserList_seedKey := [Byte.x5a] |}.

(** A user list with the one user "a", enabled, allowed session type 0x2. *)
Definition one_user : UserList :=
  {| UserList_find := λ name,
       if bool_decide (name = [97])
       then {| user_name := name; user_group := [Byte.x08]; user_salt := [Byte.x51];
               user_verifier := [Byte.x76]; user_sessions := 2; user_flags := 1 |}
       else {| user_name := []; user_group := []; user_salt := []; user_verifier := [];
               user_sessions := 0; user_flags := 0 |};
     UserList_seedKey := [Byte.x5a] |}.

(** The authenticator after [start] with its default configuration. *)
Definition pending (aes_ni : bool) : @Fields (authenticator aes_ni) :=
  set_state_ PENDING (set_user_list_ (Some no_users) (set_channel_ true constructed)).

(** Twelve bytes of IV. *)
Definition iv12 : ByteArray := replicate 12 Byte.x11.

(** A client hello: the encryption mask, the identify method, an IV and a
    one-byte public key. *)
Definition client_hello (encryption identify : Byte.byte) : ByteArray :=
  encryption :: identify :: iv12 ++ [Byte.x33].

(** The SRP handshake of user "a" up to the session challenge: client
    hello, identify, client key exchange, each answer written out. *)
Definition srp_handshake (aes_ni : bool)
    : Cmd (@Fields (authenticator aes_ni)) (@Call (authenticator aes_ni)) unit :=
  start true (Some one_user);;
  onMessageReceived (client_hello Byte.x03 Byte.x00) [] [];;
  onMessageWritten;;
  onMessageReceived [Byte.x61] [Byte.x62] iv12;;
  onMessageWritten;;
  onMessageReceived (Byte.x41 :: iv12) [] [];;
  onMessageWritten.

(** The authenticator when the session challenge has been written. *)
Definition challenged (aes_ni : bool) : @Fields (authenticator aes_ni) :=
  match srp_handshake aes_ni constructed with
  | Some (_, a, _) => a
  | None => constructed
  end.

(** The platform with AES-NI. *)
Definition accelerated : Platform := authenticator true.

(** An authenticator configured with a private key and an IV. *)
Definition keyed (aes_ni : bool) : @Fields (authenticator aes_ni) :=
  set_encrypt_iv_ iv12
    (set_key_pair_ (H := authenticator aes_ni) [Byte.x07] constructed).

(** The keyed authenticator, started on the user list of "a", after
    [events]. *)
Definition reached (aes_ni : bool) (events : list Event) : @Fields (authenticator aes_ni) :=
  match (start true (Some one_user);; run events) (keyed aes_ni) with
  | Some (_, a, _) => a
  | None => constructed
  end.

(** The calls made during [events] from state [a]. *)
Definition heard (aes_ni : bool) (events : list Event) (a : @Fields (authenticator aes_ni))
    : list (@Call (authenticator aes_ni)) :=
  match run events a with
  | Some (_, _, calls) => calls
  | None => []
  end.

(** The client hello of an SRP client and the server hello written out. *)
Definition greeting : list Event :=
  [ev_message (client_hello Byte.x03 Byte.x00) [] []; ev_written].

(** The client hello of an anonymous client. *)
Definition anonymous_greeting : Event :=
  ev_message (client_hello Byte.x02 Byte.x01) [] [].

(** The identify message of the user with the one-letter [name], and the
    server key exchange written out. *)
Definition introduction (name : Byte.byte) : list Event :=
  [ev_message [name] [Byte.x62] iv12; ev_written].

(** The client key exchange, and the session challenge written out. *)
Definition exchange : list Event :=
  [ev_message (Byte.x41 :: iv12) [] []; ev_written].

(** The session response that asks for [session_type]. *)
Definition response (session_type : Byte.byte) : Event :=
  ev_message [session_type] [] [].

(** The coordinator's platform: packets of one mebibyte. *)
Definition coordinator : FileTransfer.Platform :=
  {| FileTransfer.kMaxFilePacketSize := 1048576;
     FileTransfer.LAST_PACKET := 2;
     FileTransfer.NO_FLAGS := 0;
     FileTransfer.CANCEL := 1;
     FileTransfer.Action_value := λ action,
       match action with
       | FileTransfer.ACTION_ASK => 0
       | FileTransfer.ACTION_ABORT => 1
       | FileTransfer.ACTION_SKIP => 2
       | FileTransfer.ACTION_SKIP_ALL => 4
       | FileTransfer.ACTION_REPLACE => 8
       | FileTransfer.ACTION_REPLACE_ALL => 16
       end |}.

(** A downloader's executions. *)
Section Downloads.
Import FileTransfer.
#[local] Existing Instance coordinator.

(** The state a downloader is in after [events], counted from its
    construction. *)
Definition after (events : list Event) : Fields :=
  match run events (constructed DOWNLOADER) with
  | Some (_, a, _) => a
  | None => constructed DOWNLOADER
  end.

(** The calls made during [events] from state [a]. *)
Definition calls_during (events : list Event) (a : Fields) : list Call :=
  match run events a with
  | Some (_, _, calls) => calls
  | None => []
  end.

(** The file [name] of [bytes] bytes, as a task and as an item. *)
Definition file (name : string) (bytes : Z) : FileTransferTask :=
  {| sourcePath := "src/" +:+ name; targetPath := "dst/" +:+ name;
     isDirectory := false; size := bytes; overwrite := false |}.

Definition item (name : string) (bytes : Z) : Item :=
  {| item_name := name; item_is_directory := false; item_size := bytes |}.

(** A reply with [code] that carries no packet. *)
Definition answer (code : FileError) : FileReply :=
  {| error_code := code; reply_packet := {| packet_data := []; packet_flags := 0 |} |}.

(** A reply that carries a packet of one byte with [flags]. *)
Definition data (flags : Z) : FileReply :=
  {| error_code := FILE_ERROR_SUCCESS;
     reply_packet := {| packet_data := [Byte.x41]; packet_flags := flags |} |}.

(** [start] and the queue builder reporting [queue]. *)
Definition begin (items : list Item) (queue : list FileTransferTask) (total : Z)
    : list Event :=
  [ ev_start "src" "dst" items (Some 7%nat);
    ev_queue_built FILE_ERROR_SUCCESS queue total ].

(** The source opens file [name] and the target creates it. *)
Definition opened (name : string) : list Event :=
  [ ev_reply REMOTE (downloadRequest ("src/" +:+ name)) (answer FILE_ERROR_SUCCESS);
    ev_reply LOCAL (uploadRequest ("dst/" +:+ name) false) (answer FILE_ERROR_SUCCESS) ].

(** The source delivers a packet with [flags]. *)
Definition read (flags : Z) : Event :=
  ev_reply REMOTE (packetRequest 0) (data flags).

(** The target has written the packet with [flags]. *)
Definition written (flags : Z) : Event :=
  ev_reply LOCAL (packetOf (reply_packet (data flags))) (answer FILE_ERROR_SUCCESS).

(** One file of one byte is copied: its only packet is the last one. *)
Definition copy_one_byte : list Event :=
  begin [item "a" 1] [file "a" 1] 1 ++ opened "a" ++ [read 2; written 2].

(** One file of a mebibyte and a byte: the first of its two packets has
    been written and the second, the last one, has been read. *)
Definition second_packet_read : list Event :=
  begin [item "a" 1048577] [file "a" 1048577] 1048577 ++ opened "a" ++
  [read 0; written 0; read 2].

(** Two files; the target reports that the first one exists already. *)
Definition collision : list Event :=
  begin [item "a" 1; item "b" 1] [file "a" 1; file "b" 1] 2 ++
  [ ev_reply REMOTE (downloadRequest "src/a") (answer FILE_ERROR_SUCCESS);
    ev_reply LOCAL (uploadRequest "dst/a" false) (answer FILE_ERROR_PATH_ALREADY_EXISTS) ].

(** After "replace all": the first file is copied over the existing one,
    and the second one exists already, too. *)
Definition second_collision : list Event :=
  [ ev_reply REMOTE (downloadRequest "src/a") (answer FILE_ERROR_SUCCESS);
    ev_reply LOCAL (uploadRequest "dst/a" true) (answer FILE_ERROR_SUCCESS);
    read 2; written 2;
    ev_reply REMOTE (downloadRequest "src/b") (answer FILE_ERROR_SUCCESS);
    ev_reply LOCAL (uploadRequest "dst/b" false) (answer FILE_ERROR_PATH_ALREADY_EXISTS) ].

(** An empty queue, then everything that reaches [onFinished] again. *)
Definition finish_four_times : list Event :=
  [ ev_queue_built FILE_ERROR_SUCCESS [] 0; ev_stop; ev_cancel_timer;
    ev_setAction OTHER ACTION_ABORT ].

End Downloads.

End Bench.

(** * Statements about the authenticator *)

Section AuthenticatorStatements.
Import ServerAuthenticator.
Context `{Platform}.

(** The calls [onFailed] makes while the channel exists. *)
Definition failure_calls : list Call :=
  [timer_stop; channel_setListener false; channel_reset; delegate_onComplete].

(** The cipher [onClientHello] puts into the server hello. *)
Definition chosen_cipher (client_hello : ClientHello) : Z :=
  if has_flag (client_hello_encryption client_hello) ENCRYPTION_AES256_GCM && CPUID_hasAesNi
  then ENCRYPTION_AES256_GCM
  else ENCRYPTION_CHACHA20_POLY1305.

(** A session response is accepted when it parses, names exactly one
    session type, and that type is among the allowed ones. *)
Definition accepted (a : Fields) (buffer : ByteArray) : Prop :=
  ∃ r, parse_SessionResponse buffer = Some r ∧
       BitSet_count (session_response_session_type r) = 1 ∧
       Z.land (session_types_ a) (BitSet_value (session_response_session_type r)) ≠ 0.

(** The client advertises cipher [flag]. *)
Definition advertises (client_hello : ClientHello) (flag : Z) : Prop :=
  has_flag (client_hello_encryption client_hello) flag = true.

(** The cipher selection as the specification words it: AES-256-GCM exactly
    when the client advertised it and the CPU has AES-NI, and otherwise
    ChaCha20-Poly1305, which the client then advertised. *)
Definition cipher_as_specified (a : Fields) (buffer : ByteArray) : Prop :=
  ∀ client_hello a' calls server_hello,
    parse_ClientHello buffer = Some client_hello →
    advertises client_hello ENCRYPTION_AES256_GCM ∨
      advertises client_hello ENCRYPTION_CHACHA20_POLY1305 →
    onClientHello buffer a = Some (tt, a', calls) →
    channel_send (MsgServerHello server_hello) ∈ calls →
    (server_hello_encryption server_hello = ENCRYPTION_AES256_GCM ↔
       advertises client_hello ENCRYPTION_AES256_GCM ∧ CPUID_hasAesNi = true) ∧
    (server_hello_encryption server_hello ≠ ENCRYPTION_AES256_GCM →
       server_hello_encryption server_hello = ENCRYPTION_CHACHA20_POLY1305 ∧
       advertises client_hello ENCRYPTION_CHACHA20_POLY1305).

End AuthenticatorStatements.

(** * Statements about the coordinator *)

Section CoordinatorStatements.
Import FileTransfer.
Context `{Platform}.

(** The action policy as the specification's table words it for an error
    kind that offers only to abort: the available actions are exactly
    [ACTION_ABORT] and the default is to ask. *)
Definition abort_only_as_specified (e : Error) : Prop :=
  availableActions e = Action_value ACTION_ABORT ∧ defaultAction e = ACTION_ASK.

(** No finish callback is invoked in [calls]. *)
Definition quiet (calls : list Call) : Prop := ∀ f, callback f ∉ calls.

(** [calls] invokes the finish callback [f] once, directly after telling
    the window to stop, and invokes no other callback. *)
Definition finished_once (f : FinishCallback) (calls : list Call) : Prop :=
  ∃ before after,
    calls = before ++ window_stop :: callback f :: after ∧ quiet before ∧ quiet after.

(** How a run may treat the stored finish callback: leave it stored and
    not invoke it, or take it out and invoke it once. *)
Definition finish_relation (a : Fields) (calls : list Call) (a' : Fields) : Prop :=
  match finish_callback_ a with
  | None => finish_callback_ a' = None ∧ quiet calls
  | Some f =>
      (finish_callback_ a' = Some f ∧ quiet calls) ∨
      (finish_callback_ a' = None ∧ finished_once f calls)
  end.

Definition is_start (e : Event) : Prop :=
  match e with
  | ev_start _ _ _ _ => True
  | _ => False
  end.

(** The "apply to all" answers. *)
Definition sticky (action : Action) : Prop :=
  action = ACTION_SKIP_ALL ∨ action = ACTION_REPLACE_ALL.

(** The answers that concern the current item only. *)
Definition plain (action : Action) : Prop :=
  action = ACTION_SKIP ∨ action = ACTION_REPLACE.

(** [calls] shows no error of kind [t] to the window. *)
Definition unprompted (t : ErrorType) (calls : list Call) : Prop :=
  ∀ code path,
    window_errorOccurred {| Error_type := t; Error_code := code; Error_path := path |}
      ∉ calls.

(** The event does not record another "apply to all" answer for [t] than
    [choice]. *)
Definition keeps_choice (t : ErrorType) (choice : Action) (e : Event) : Prop :=
  match e with
  | ev_setAction t' action => t' = t → sticky action → action = choice
  | _ => True
  end.

(** While [choice] is recorded for [t] it stays recorded and no error of
    kind [t] is shown. *)
Definition sticky_relation (t : ErrorType) (choice : Action)
    (a : Fields) (calls : list Call) (a' : Fields) : Prop :=
  actions_ a !! t = Some choice →
  actions_ a' !! t = Some choice ∧ unprompted t calls.

(** [calls] shows no error at all to the window. *)
Definition silent (calls : list Call) : Prop := ∀ e, window_errorOccurred e ∉ calls.

(** A run that records nothing and shows no error. *)
Definition records_nothing (a : Fields) (calls : list Call) (a' : Fields) : Prop :=
  actions_ a' = actions_ a ∧ silent calls.

(** A run that does not touch the total of transferred bytes. *)
Definition total_kept (a : Fields) (calls : list Call) (a' : Fields) : Prop :=
  total_transfered_size_ a' = total_transfered_size_ a.

(** What [targetReply] adds to the total for one written packet of a task
    that stands at [task_transfered] of [task_size] bytes. *)
Definition packet_charge (task_size task_transfered : Z) : Z :=
  if task_size <? task_transfered + kMaxFilePacketSize
  then task_transfered + kMaxFilePacketSize - task_size
  else kMaxFilePacketSize.

(** A run through which the total of transferred bytes does not shrink. *)
Definition total_grows (a : Fields) (calls : list Call) (a' : Fields) : Prop :=
  total_transfered_size_ a ≤ total_transfered_size_ a'.

End CoordinatorStatements.

(** * Further statements about the authenticator *)

Section AuthenticatorBehaviourStatements.
Import ServerAuthenticator.
Context `{Platform}.

(** The configuration [start] goes on with: anonymous access enabled with a
    valid key pair and some session type, or not enabled with no session
    type. *)
Definition consistent (a : Fields) : Prop :=
  (anonymous_access_ a = ENABLE ∧ KeyPair_isValid (key_pair_ a) = true ∧
   session_types_ a ≠ 0) ∨
  (anonymous_access_ a ≠ ENABLE ∧ session_types_ a = 0).

(** The calls [start] makes when it goes on. *)
Definition listen_calls : list Call :=
  [timer_start; channel_setListener true; channel_resume].

(** The configuration: what the setters set. *)
Definition same_configuration (a a' : Fields) : Prop :=
  key_pair_ a' = key_pair_ a ∧ encrypt_iv_ a' = encrypt_iv_ a ∧
  session_types_ a' = session_types_ a ∧ anonymous_access_ a' = anonymous_access_ a.

(** The session key [onClientHello] derives with the configured key pair. *)
Definition agreed_key (a : Fields) (client_hello : ClientHello) : ByteArray :=
  GenericHash_result BLAKE2s256
    [KeyPair_sessionKey (key_pair_ a) (client_hello_public_key client_hello)].

(** A client hello the authenticator can use: it advertises a supported
    cipher and, when a key pair is configured, it brings an IV and a public key
    from which a session key can be derived. *)
Definition usable (a : Fields) (client_hello : ClientHello) : Prop :=
  (advertises client_hello ENCRYPTION_AES256_GCM ∨
   advertises client_hello ENCRYPTION_CHACHA20_POLY1305) ∧
  (KeyPair_isValid (key_pair_ a) = true →
     client_hello_iv client_hello ≠ [] ∧
     client_hello_public_key client_hello ≠ [] ∧
     KeyPair_sessionKey (key_pair_ a) (client_hello_public_key client_hello) ≠ [] ∧
     agreed_key a client_hello ≠ []).

(** The encryptor and decryptor for the negotiated cipher, the session key
    and the two IVs, when both can be created. *)
Definition session_ciphers (a : Fields) : option (MessageEncryptor * MessageDecryptor) :=
  if encryption_ a =? ENCRYPTION_AES256_GCM then
    match createEncryptorForAes256Gcm (session_key_ a) (encrypt_iv_ a),
          createDecryptorForAes256Gcm (session_key_ a) (decrypt_iv_ a) with
    | Some e, Some d => Some (e, d)
    | _, _ => None
    end
  else
    match createEncryptorForChaCha20Poly1305 (session_key_ a) (encrypt_iv_ a),
          createDecryptorForChaCha20Poly1305 (session_key_ a) (decrypt_iv_ a) with
    | Some e, Some d => Some (e, d)
    | _, _ => None
    end.

(** A user the authenticator takes the SRP parameters from: the record is
    valid and enabled and its group is a known one. *)
Definition registered (user : User) : Prop :=
  User_isValid user = true ∧ has_flag (user_flags user) User_ENABLED = true ∧
  is_Some (pairByGroup (user_group user)).

(** The salt made up for a name that is not registered. *)
Definition decoy_salt (user_list : UserList) (username : ByteArray) : BigNum :=
  BigNum_fromByteArray
    (GenericHash_result BLAKE2b512 [UserList_seedKey user_list; username]).

(** The verifier made up for a name that is not registered. *)
Definition decoy_verifier (user_list : UserList) (username : ByteArray) : BigNum :=
  SrpMath_calc_v (utf16FromUtf8 username) (UserList_seedKey user_list)
    (decoy_salt user_list username)
    (BigNum_fromStdString (kSrpNgPair_8192.1)) (BigNum_fromStdString (kSrpNgPair_8192.2)).

(** The session challenge for the allowed session types. *)
Definition challenge (session_types : Z) : Message :=
  MsgSessionChallenge
    {| session_challenge_session_types := session_types;
       session_challenge_version :=
         {| version_major := ASPIA_VERSION_MAJOR;
            version_minor := ASPIA_VERSION_MINOR;
            version_patch := ASPIA_VERSION_PATCH |} |}.

(** The session key after SRP: the hash of the earlier session key, when
    there is one, followed by the SRP key. *)
Definition rekeyed (a : Fields) (srp_key : ByteArray) : ByteArray :=
  GenericHash_result BLAKE2s256
    ((if is_empty (session_key_ a) then [] else [session_key_ a]) ++ [srp_key]).

(** The SRP numbers the server key exchange is made of are all valid. *)
Definition valid_numbers (a : Fields) : Prop :=
  BigNum_isValid (N_ a) = true ∧ BigNum_isValid (g_ a) = true ∧
  BigNum_isValid (s_ a) = true ∧ BigNum_isValid (B_ a) = true.

(** The server key exchange made of the SRP numbers and the IV. *)
Definition server_key_exchange (a : Fields) : Message :=
  MsgSrpServerKeyExchange
    {| server_key_exchange_number := BigNum_toStdString (N_ a);
       server_key_exchange_generator := BigNum_toStdString (g_ a);
       server_key_exchange_salt := BigNum_toStdString (s_ a);
       server_key_exchange_b := BigNum_toStdString (B_ a);
       server_key_exchange_iv := encrypt_iv_ a |}.

(** The SRP key [createSrpKey] computes from the client's public value [A]
    when [A mod N] is not zero. *)
Definition server_srp_key (a : Fields) (A : BigNum) : ByteArray :=
  BigNum_toByteArray
    (SrpMath_calcServerKey A (v_ a) (SrpMath_calc_u A (B_ a) (N_ a)) (b_ a) (N_ a)).

(** A client key exchange the authenticator can go on with. *)
Definition acceptable_key_exchange (a : Fields) (m : SrpClientKeyExchange) : Prop :=
  let A := BigNum_fromStdString (client_key_exchange_a m) in
  BigNum_isValid A = true ∧
  client_key_exchange_iv m ≠ [] ∧
  SrpMath_verify_A_mod_N A (N_ a) = true ∧
  server_srp_key a A ≠ [] ∧
  (encryption_ a = ENCRYPTION_AES256_GCM ∨ encryption_ a = ENCRYPTION_CHACHA20_POLY1305).

(** A run that leaves the outcome alone or fails. *)
Definition keeps_or_fails (a : Fields) (calls : list Call) (a' : Fields) : Prop :=
  state_ a' = state_ a ∨ state_ a' = FAILED.

(** A run that leaves the allowed session types alone. *)
Definition keeps_session_types (a : Fields) (calls : list Call) (a' : Fields) : Prop :=
  session_types_ a' = session_types_ a.

(** A run that stays in its step of the handshake, with the identify method
    it has. *)
Definition stays (a : Fields) (calls : list Call) (a' : Fields) : Prop :=
  internal_state_ a' = internal_state_ a ∧ identify_ a' = identify_ a.

(** A run that stays in its step of the handshake or moves on to sending
    the session challenge. *)
Definition stays_or_challenges (a : Fields) (calls : list Call) (a' : Fields) : Prop :=
  internal_state_ a' = internal_state_ a ∨ internal_state_ a' = SEND_SESSION_CHALLENGE.

(** Where an authenticator stands that succeeded: it has read the session
    response, and the session type it took from it is one bit, an allowed
    one. *)
Definition success_is_sound (a : Fields) : Prop :=
  state_ a = SUCCESS →
  internal_state_ a = READ_SESSION_RESPONSE ∧
  BitSet_count (session_type_ a) = 1 ∧
  Z.land (session_types_ a) (session_type_ a) ≠ 0.

(** The steps of the handshake after the identify message. *)
Definition identified (a : Fields) : Prop :=
  internal_state_ a = SEND_SERVER_KEY_EXCHANGE ∨
  internal_state_ a = READ_CLIENT_KEY_EXCHANGE ∨
  internal_state_ a = SEND_SESSION_CHALLENGE ∨
  internal_state_ a = READ_SESSION_RESPONSE.

(** Without a channel a run changes neither the outcome nor the missing
    channel, and calls nobody. *)
Definition dead (a : Fields) (calls : list Call) (a' : Fields) : Prop :=
  channel_ a = false →
  channel_ a' = false ∧ state_ a' = state_ a ∧ calls = [].

(** How a run tells the delegate: while the outcome is pending the delegate
    has not been called, and a run that decides the outcome has called it. *)
Definition reports (a : Fields) (calls : list Call) (a' : Fields) : Prop :=
  (state_ a' = PENDING → state_ a = PENDING ∧ delegate_onComplete ∉ calls) ∧
  (state_ a = PENDING → state_ a' ≠ PENDING → delegate_onComplete ∈ calls).

(** An authenticator that has not succeeded and either has lost its channel
    or is past the identify message with no session type allowed. *)
Definition barred (a : Fields) : Prop :=
  state_ a ≠ SUCCESS ∧ (channel_ a = false ∨ (identified a ∧ session_types_ a = 0)).

(** An authenticator that has not succeeded and waits for the server hello
    of an anonymous client to be written. *)
Definition stuck (a : Fields) : Prop :=
  state_ a ≠ SUCCESS ∧ internal_state_ a = SEND_SERVER_HELLO ∧
  identify_ a = IDENTIFY_ANONYMOUS.

End AuthenticatorBehaviourStatements.

(** * Further statements about the coordinator *)

Section CoordinatorBehaviourStatements.
Import FileTransfer.
Context `{Platform}.

(** What a task is to copy, leaving aside whether its target may be
    overwritten. *)
Definition job (t : FileTransferTask) : string * string * bool * Z :=
  (sourcePath t, targetPath t, isDirectory t, size t).

(** A run after which the queue is a tail of what it was. *)
Definition dequeues (a : Fields) (calls : list Call) (a' : Fields) : Prop :=
  (job <$> tasks_ a') `suffix_of` (job <$> tasks_ a).

Definition is_queue_built (e : Event) : Prop :=
  match e with
  | ev_queue_built _ _ _ => True
  | _ => False
  end.

(** The calls [onFinished] makes for the stored finish callback. *)
Definition finish_calls (finish_callback : option FinishCallback) : list Call :=
  match finish_callback with
  | Some f => [window_stop; callback f]
  | None => []
  end.

(** The endpoint a coordinator of [type] reads from, and the one it writes
    to. *)
Definition source_of (type : TransferType) : FileTaskTarget :=
  match type with DOWNLOADER => REMOTE | UPLOADER => LOCAL end.

Definition target_of (type : TransferType) : FileTaskTarget :=
  match type with DOWNLOADER => LOCAL | UPLOADER => REMOTE end.

(** A run that does not take a cancellation back. *)
Definition stays_canceled (a : Fields) (calls : list Call) (a' : Fields) : Prop :=
  is_canceled_ a = true → is_canceled_ a' = true.

(** The kind of error a failed reply of the target stands for. *)
Definition target_failure (request : FileRequest) (code : FileError) : ErrorType :=
  if bool_decide (is_Some (create_directory_request request)) then CREATE_DIRECTORY
  else if bool_decide (is_Some (upload_request request)) then
    if bool_decide (code = FILE_ERROR_PATH_ALREADY_EXISTS) then ALREADY_EXISTS
    else CREATE_FILE
  else WRITE_FILE.

(** The kind of error a failed reply of the source stands for. *)
Definition source_failure (request : FileRequest) : ErrorType :=
  if bool_decide (is_Some (download_request request)) then OPEN_FILE else READ_FILE.

(** No task of the queue has a negative size. *)
Definition sized (tasks : list FileTransferTask) : Prop :=
  Forall (λ t, 0 ≤ size t) tasks.

(** The bytes counted for the front task lie within its size. *)
Definition within_task (a : Fields) : Prop :=
  match tasks_ a with
  | front :: _ => 0 ≤ task_transfered_size_ a ≤ size front
  | [] => True
  end.

(** The queue builder delivers no task of negative size. *)
Definition sane (e : Event) : Prop :=
  match e with
  | ev_queue_built _ queue _ => sized queue
  | _ => True
  end.

(** A run that keeps the task counter within the front task. *)
Definition within_kept (a : Fields) (calls : list Call) (a' : Fields) : Prop :=
  sized (tasks_ a) ∧ within_task a → sized (tasks_ a') ∧ within_task a'.

(** Only progress is reported in [calls]. *)
Definition progress_only (calls : list Call) : Prop :=
  ∀ c, c ∈ calls → ∃ total task, c = window_setCurrentProgress total task.

End CoordinatorBehaviourStatements.

(** * Reasoning about commands *)

Section CmdLogic.
Context {St Ev : Type} (R : St → list Ev → St → Prop).
Hypothesis R_refl : ∀ s, R s [] s.
Hypothesis R_trans : ∀ s1 c1 s2 c2 s3, R s1 c1 s2 → R s2 c2 s3 → R s1 (c1 ++ c2) s3.

Lemma keeps_ret {A} (a : A) : keeps R (mret a : Cmd St Ev A).
Proof. intros s a' s' calls [= _ <- <-]. apply R_refl. Qed.

Lemma keeps_skip : keeps R (skip : Cmd St Ev unit).
Proof. apply keeps_ret. Qed.

Lemma keeps_get : keeps R (get : Cmd St Ev St).
Proof. intros s a' s' calls [= _ <- <-]. apply R_refl. Qed.

Lemma keeps_undefined {A} : keeps R (undefined : Cmd St Ev A).
Proof. intros s a s' calls [=]. Qed.

Lemma keeps_modify (f : St → St) : (∀ s, R s [] (f s)) → keeps R (modify f : Cmd St Ev unit).
Proof. intros Hf s a' s' calls [= _ <- <-]. apply Hf. Qed.

Lemma keeps_call (c : Ev) : (∀ s, R s [c] s) → keeps R (call c : Cmd St Ev unit).
Proof. intros Hc s a' s' calls [= _ <- <-]. apply Hc. Qed.

Lemma keeps_bind {A B} (m : Cmd St Ev A) (k : A → Cmd St Ev B) :
  keeps R m → (∀ a, keeps R (k a)) → keeps R (m ≫= k).
Proof.
  intros Hm Hk s b s' calls. unfold mbind, Cmd_bind, cmd_bind.
  destruct (m s) as [[[a s1] c1]|] eqn:Em; [|discriminate].
  destruct (k a s1) as [[[b' s2] c2]|] eqn:Ek; [|discriminate].
  intros [= <- <- <-]. eapply R_trans; [eapply Hm | eapply Hk]; eassumption.
Qed.

(** The continuation of [get] may be studied at the state it reads. *)
Lemma keeps_get_bind {B} (k : St → Cmd St Ev B) :
  (∀ s b s' calls, k s s = Some (b, s', calls) → R s calls s') → keeps R (get ≫= k).
Proof.
  intros Hk s b s' calls. unfold mbind, Cmd_bind, cmd_bind, get.
  destruct (k s s) as [[[b' s2] c2]|] eqn:Ek; [|discriminate].
  intros [= <- <- <-]. simpl. eapply Hk. eassumption.
Qed.

Lemma get_bind_run {B} (k : St → Cmd St Ev B) (s : St) : (get ≫= k) s = k s s.
Proof.
  unfold mbind, Cmd_bind, cmd_bind, get. by destruct (k s s) as [[[? ?] ?]|].
Qed.
End CmdLogic.

(** Unfold a member function down to the state it returns. *)
Ltac run_method :=
  cbv beta iota delta
    [mbind mret Cmd_bind Cmd_ret cmd_bind cmd_ret get modify call skip undefined];
  simpl.

(** Walk through a member function built from steps that keep [R]. *)
Ltac keeps_walk Hrefl Htrans base :=
  repeat first
    [ progress intros
    | match goal with H : _ |- keeps _ _ => solve [apply H] end
    | apply (keeps_bind _ Htrans)
    | apply (keeps_ret _ Hrefl)
    | apply (keeps_skip _ Hrefl)
    | apply (keeps_get _ Hrefl)
    | apply keeps_undefined
    | apply keeps_modify; base
    | apply keeps_call; base
    | match goal with
      | |- keeps _ (if ?c then _ else _) => destruct c
      | |- keeps _ (match ?x with _ => _ end) => destruct x
      | |- keeps _ (let _ := _ in _) => cbv zeta
      end ].

(** * Properties of the authenticator *)

Section AuthenticatorProperties.
Import ServerAuthenticator.
Context `{Platform}.

Lemma onFailed_with_channel (a : Fields) :
  channel_ a = true →
  onFailed a = Some (tt, set_state_ FAILED (set_channel_ false a),
                     [timer_stop; channel_setListener false; channel_reset;
                      delegate_onComplete]).
Proof. intros Hc. unfold onFailed. run_method. rewrite Hc. reflexivity. Qed.

(** C8.  While the authenticator is not [STOPPED], [setPrivateKey] and
    [setAnonymousAccess] return false, leave every data member as it was
    (the key pair, the IV, the session types and the anonymous-access mode
    among them) and call no collaborator. *)
Theorem setters_rejected_unless_stopped (a : Fields)
    (private_key random_iv : ByteArray)
    (anonymous_access : AnonymousAccess) (session_types : Z) :
  state_ a ≠ STOPPED →
  setPrivateKey private_key random_iv a = Some (false, a, []) ∧
  setAnonymousAccess anonymous_access session_types a = Some (false, a, []).
Proof.
  intros Hstate. unfold setPrivateKey, setAnonymousAccess. run_method.
  rewrite (bool_decide_eq_true_2 _ Hstate). split; reflexivity.
Qed.

(** C6.  A message received over the channel in [READ_SESSION_RESPONSE] is
    handled to the end; the authenticator becomes [SUCCESS] and calls the
    delegate's [onComplete] exactly when the response parses, its session
    type has exactly one bit set and that bit is allowed; in every other
    case it becomes [FAILED]. *)
Theorem session_response_outcome (a : Fields) (buffer random_b random_iv : ByteArray) :
  channel_ a = true →
  internal_state_ a = READ_SESSION_RESPONSE →
  ∃ a' calls,
    onMessageReceived buffer random_b random_iv a = Some (tt, a', calls) ∧
    ((state_ a' = SUCCESS ∧ delegate_onComplete ∈ calls) ↔ accepted a buffer) ∧
    (¬ accepted a buffer → state_ a' = FAILED).
Proof.
  intros Hc Hi. unfold onMessageReceived, accepted. run_method. rewrite Hi.
  unfold onSessionResponse, on_channel. run_method. repeat (rewrite Hc; simpl).
  destruct (parse_SessionResponse buffer) as [r|] eqn:Hparse.
  - run_method. destruct (BitSet_count _ =? 1) eqn:Hcount; simpl.
    + apply Z.eqb_eq in Hcount.
      unfold has_flag. simpl.
      match goal with |- context [Z.land ?x ?y =? 0] => destruct (Z.land x y =? 0) eqn:Hand end;
        simpl.
      * apply Z.eqb_eq in Hand.
        unfold onFailed. run_method. rewrite Hc. simpl.
        eexists _, _. split; [reflexivity|]. simpl. split; [split|].
        -- intros [? _]; discriminate.
        -- intros (r' & [= <-] & _ & Hne). contradiction.
        -- reflexivity.
      * apply Z.eqb_neq in Hand.
        eexists _, _. split; [reflexivity|]. simpl. split; [split|].
        -- intros _. eauto.
        -- intros _. split; [reflexivity|]. repeat constructor.
        -- intros Hn. exfalso. apply Hn. eauto.
    + apply Z.eqb_neq in Hcount.
      unfold onFailed. run_method. rewrite Hc. simpl.
      eexists _, _. split; [reflexivity|]. simpl. split; [split|].
      * intros [? _]; discriminate.
      * intros (r' & [= <-] & Hone & _). contradiction.
      * reflexivity.
  - unfold onFailed. run_method. rewrite Hc. simpl.
    eexists _, _. split; [reflexivity|]. simpl. split; [split|].
    + intros [? _]; discriminate.
    + intros (r' & [=] & _).
    + reflexivity.
Qed.

(** [onClientHello] either fails through [onFailed], or answers with one
    server hello that carries the chosen cipher. *)
Lemma onClientHello_outcome (a : Fields) (buffer : ByteArray) (client_hello : ClientHello) :
  channel_ a = true →
  parse_ClientHello buffer = Some client_hello →
  ∃ a',
    (onClientHello buffer a = Some (tt, a', failure_calls) ∧ state_ a' = FAILED) ∨
    (∃ iv, onClientHello buffer a =
             Some (tt, a', [channel_send (MsgServerHello
                     {| server_hello_encryption := chosen_cipher client_hello;
                        server_hello_iv := iv |})]) ∧
           internal_state_ a' = SEND_SERVER_HELLO ∧
           encryption_ a' = chosen_cipher client_hello ∧
           state_ a' = state_ a).
Proof.
  intros Hc Hparse. unfold onClientHello, chosen_cipher. rewrite Hparse.
  unfold on_channel, onFailed. run_method.
  repeat first
    [ rewrite Hc; simpl
    | match goal with
      | |- context [match client_hello_identify ?h with _ => _ end] =>
          destruct (client_hello_identify h); simpl
      | |- context [if ?c then _ else _] => destruct c eqn:?; simpl
      end ];
  eexists; first [ left; split; reflexivity | right; eexists; repeat split; reflexivity ].
Qed.

(** With anonymous access enabled, an anonymous client hello is refused. *)
Lemma onClientHello_anonymous_enabled (a : Fields) (buffer : ByteArray)
    (client_hello : ClientHello) :
  channel_ a = true →
  parse_ClientHello buffer = Some client_hello →
  advertises client_hello ENCRYPTION_AES256_GCM ∨
    advertises client_hello ENCRYPTION_CHACHA20_POLY1305 →
  client_hello_identify client_hello = IDENTIFY_ANONYMOUS →
  anonymous_access_ a = ENABLE →
  onClientHello buffer a =
    Some (tt, set_state_ FAILED (set_channel_ false (set_identify_ IDENTIFY_ANONYMOUS a)),
          failure_calls).
Proof.
  unfold advertises. intros Hc Hparse Hadv Hid Hanon.
  unfold onClientHello. rewrite Hparse, Hid.
  replace (negb _ && negb _) with false by (destruct Hadv as [-> | ->]; simpl;
    rewrite ?andb_false_r; reflexivity).
  unfold onFailed. run_method. rewrite Hanon. simpl. rewrite Hc. reflexivity.
Qed.

(** With anonymous access not enabled and no key pair installed, an
    anonymous client hello is answered with a server hello. *)
Lemma onClientHello_anonymous_disabled (a : Fields) (buffer : ByteArray)
    (client_hello : ClientHello) :
  channel_ a = true →
  parse_ClientHello buffer = Some client_hello →
  advertises client_hello ENCRYPTION_AES256_GCM ∨
    advertises client_hello ENCRYPTION_CHACHA20_POLY1305 →
  client_hello_identify client_hello = IDENTIFY_ANONYMOUS →
  anonymous_access_ a ≠ ENABLE →
  KeyPair_isValid (key_pair_ a) = false →
  onClientHello buffer a =
    Some (tt, set_encryption_ (chosen_cipher client_hello)
                (set_internal_state_ SEND_SERVER_HELLO
                   (set_identify_ IDENTIFY_ANONYMOUS a)),
          [channel_send (MsgServerHello
             {| server_hello_encryption := chosen_cipher client_hello;
                server_hello_iv := [] |})]).
Proof.
  unfold advertises. intros Hc Hparse Hadv Hid Hanon Hkey.
  unfold onClientHello. rewrite Hparse, Hid.
  replace (negb _ && negb _) with false by (destruct Hadv as [-> | ->]; simpl;
    rewrite ?andb_false_r; reflexivity).
  unfold on_channel, chosen_cipher. run_method.
  rewrite (bool_decide_eq_false_2 _ Hanon), Hkey. simpl. rewrite Hc. reflexivity.
Qed.

(** C5, as the code has it.  A client hello whose encryption mask meets
    {AES256_GCM, CHACHA20_POLY1305} is handled to the end, and a server hello
    that is sent carries AES256_GCM exactly when the client advertised
    AES256_GCM and the CPU reports AES-NI; in every other case it carries
    CHACHA20_POLY1305, whether or not the client advertised it. *)
Theorem server_hello_cipher (a : Fields) (buffer : ByteArray) (client_hello : ClientHello) :
  channel_ a = true →
  parse_ClientHello buffer = Some client_hello →
  advertises client_hello ENCRYPTION_AES256_GCM ∨
    advertises client_hello ENCRYPTION_CHACHA20_POLY1305 →
  ∃ a' calls,
    onClientHello buffer a = Some (tt, a', calls) ∧
    ∀ server_hello,
      channel_send (MsgServerHello server_hello) ∈ calls →
      (server_hello_encryption server_hello = ENCRYPTION_AES256_GCM ↔
         advertises client_hello ENCRYPTION_AES256_GCM ∧ CPUID_hasAesNi = true) ∧
      (¬ (advertises client_hello ENCRYPTION_AES256_GCM ∧ CPUID_hasAesNi = true) →
         server_hello_encryption server_hello = ENCRYPTION_CHACHA20_POLY1305).
Proof.
  intros Hc Hparse _.
  destruct (onClientHello_outcome a buffer client_hello Hc Hparse)
    as [a' [[Hrun _] | (iv & Hrun & _)]];
    exists a'; eexists; (split; [exact Hrun|]); intros server_hello Hin.
  - unfold failure_calls in Hin.
    repeat (apply elem_of_cons in Hin as [Hin | Hin]; [discriminate Hin|]).
    by apply elem_of_nil in Hin.
  - apply list_elem_of_singleton in Hin. injection Hin as ->. simpl.
    unfold chosen_cipher, advertises.
    pose proof ENCRYPTION_distinct as Hdistinct.
    destruct (has_flag _ ENCRYPTION_AES256_GCM); destruct CPUID_hasAesNi; simpl;
      (split; [split; [intros Heq | intros [Hadv Hni]] | intros Hno]);
      first [ congruence | tauto ].
Qed.

End AuthenticatorProperties.

(** * The authenticator on concrete inputs *)

Section AuthenticatorRuns.
Import ServerAuthenticator.

Example start_pending (aes_ni : bool) :
  start (H := Bench.authenticator aes_ni) true (Some Bench.no_users) constructed =
    Some (tt, Bench.pending aes_ni, [timer_start; channel_setListener true; channel_resume]).
Proof. reflexivity. Qed.

Example BitSet_count_examples :
  BitSet_count 0 = 0 ∧ BitSet_count 2 = 1 ∧ BitSet_count 3 = 2 ∧
  BitSet_count (2 ^ 31) = 1 ∧ BitSet_count (2 ^ 32 - 1) = 32.
Proof. repeat split; reflexivity. Qed.

Lemma setters_rejected_unless_stopped_witness :
  state_ (Bench.pending true) ≠ STOPPED ∧
  setPrivateKey [Byte.x07] Bench.iv12 (Bench.pending true) =
    Some (false, Bench.pending true, []) ∧
  setAnonymousAccess ENABLE 1 (Bench.pending true) =
    Some (false, Bench.pending true, []).
Proof.
  split; [discriminate|].
  apply (setters_rejected_unless_stopped (H := Bench.authenticator true)).
  discriminate.
Defined.

Example challenged_awaits_response :
  state_ (Bench.challenged true) = PENDING ∧
  internal_state_ (Bench.challenged true) = READ_SESSION_RESPONSE ∧
  channel_ (Bench.challenged true) = true ∧
  session_types_ (Bench.challenged true) = 2.
Proof. vm_compute. repeat split; reflexivity. Qed.

Example challenged_accepts_allowed_type :
  match onMessageReceived [Byte.x02] [] [] (Bench.challenged true) with
  | Some (_, a, calls) =>
      state_ a = SUCCESS ∧ session_type_ a = 2 ∧
      calls = [channel_pause; channel_setListener false; timer_stop; delegate_onComplete]
  | None => False
  end.
Proof. vm_compute. repeat split; reflexivity. Qed.

Example challenged_rejects_other_type :
  match onMessageReceived [Byte.x01] [] [] (Bench.challenged true) with
  | Some (_, a, calls) =>
      state_ a = FAILED ∧
      calls = [channel_pause; channel_setListener false; timer_stop;
               channel_setListener false; channel_reset; delegate_onComplete]
  | None => False
  end.
Proof. vm_compute. repeat split; reflexivity. Qed.

Lemma session_response_outcome_witness :
  let a := Bench.challenged true in
  channel_ a = true ∧
  internal_state_ a = READ_SESSION_RESPONSE ∧
  ∃ a' calls,
    onMessageReceived [Byte.x02] [] [] a = Some (tt, a', calls) ∧
    ((state_ a' = SUCCESS ∧ delegate_onComplete ∈ calls) ↔ accepted a [Byte.x02]) ∧
    (¬ accepted a [Byte.x02] → state_ a' = FAILED).
Proof.
  intros a.
  assert (channel_ a = true) as Hchannel by (vm_compute; reflexivity).
  assert (internal_state_ a = READ_SESSION_RESPONSE) as Hstate by (vm_compute; reflexivity).
  split; [exact Hchannel|]. split; [exact Hstate|].
  exact (session_response_outcome (H := Bench.authenticator true) a [Byte.x02] [] []
           Hchannel Hstate).
Defined.

Lemma server_hello_cipher_witness :
  let buffer := Bench.client_hello Byte.x03 Byte.x00 in
  let hello :=
    {| client_hello_encryption := 3; client_hello_identify := IDENTIFY_SRP;
       client_hello_iv := Bench.iv12; client_hello_public_key := [Byte.x33] |} in
  channel_ (Bench.pending true) = true ∧
  parse_ClientHello (Platform := Bench.authenticator true) buffer = Some hello ∧
  (advertises hello 1 ∨ advertises hello 2) ∧
  ∃ a' calls,
    onClientHello buffer (Bench.pending true) = Some (tt, a', calls) ∧
    ∀ server_hello,
      channel_send (MsgServerHello server_hello) ∈ calls →
      (server_hello_encryption server_hello = 1 ↔
         advertises hello 1 ∧ true = true) ∧
      (¬ (advertises hello 1 ∧ true = true) → server_hello_encryption server_hello = 2).
Proof.
  intros buffer hello.
  split; [reflexivity|]. split; [vm_compute; reflexivity|].
  split; [left; vm_compute; reflexivity|].
  apply (server_hello_cipher (H := Bench.authenticator true) (Bench.pending true)
           buffer hello); [reflexivity | vm_compute; reflexivity | left; vm_compute; reflexivity].
Defined.

Example hello_without_aes_ni :
  onClientHello (H := Bench.authenticator false)
    (Bench.client_hello Byte.x01 Byte.x00) (Bench.pending false) =
  Some (tt,
        set_encryption_ 2 (set_internal_state_ SEND_SERVER_HELLO (Bench.pending false)),
        [channel_send (MsgServerHello
           {| server_hello_encryption := 2; server_hello_iv := [] |})]).
Proof. vm_compute. reflexivity. Qed.

(** C5 as worded fails where the CPU has no AES-NI and the client
    advertises AES256_GCM alone: the server hello carries CHACHA20_POLY1305,
    which the client did not advertise. *)
Lemma cipher_as_specified_fails :
  ¬ cipher_as_specified (H := Bench.authenticator false) (Bench.pending false)
      (Bench.client_hello Byte.x01 Byte.x00).
Proof.
  intros Hspec.
  pose (hello :=
    {| client_hello_encryption := 1; client_hello_identify := IDENTIFY_SRP;
       client_hello_iv := Bench.iv12; client_hello_public_key := [Byte.x33] |}).
  pose (reply := {| server_hello_encryption := 2; server_hello_iv := [] |}).
  assert (Hparse : parse_ClientHello (Platform := Bench.authenticator false)
                     (Bench.client_hello Byte.x01 Byte.x00) = Some hello)
    by (vm_compute; reflexivity).
  assert (Hadv : advertises hello 1 ∨ advertises hello 2)
    by (left; vm_compute; reflexivity).
  assert (Hsent : channel_send (MsgServerHello reply) ∈
                    [channel_send (H := Bench.authenticator false) (MsgServerHello reply)])
    by repeat constructor.
  destruct (Hspec hello _ _ reply Hparse Hadv hello_without_aes_ni Hsent)
    as [_ Hchacha].
  destruct Hchacha as [_ Hadvertised]; [discriminate|].
  vm_compute in Hadvertised. discriminate Hadvertised.
Qed.

(** C1 against the code.  Anonymous access is enabled as the specification's
    scenario prescribes (key pair, session types 0x1) and the client hello
    asks for [IDENTIFY_ANONYMOUS] with a supported cipher: the authenticator
    fails and sends no server hello.  With the default configuration, which
    disallows anonymous access, the same hello is answered with a server hello
    and the authenticator moves on to [SEND_SERVER_HELLO]. *)
Theorem anonymous_hello_check_is_inverted :
  let hello := Bench.client_hello Byte.x02 Byte.x01 in
  match (setPrivateKey (H := Bench.authenticator true) [Byte.x07] Bench.iv12;;
         setAnonymousAccess ENABLE 1;;
         start true (Some Bench.no_users);;
         onMessageReceived hello [] []) constructed with
  | Some (_, a, calls) =>
      anonymous_access_ a = ENABLE ∧ state_ a = FAILED ∧
      calls = [timer_start; channel_setListener true; channel_resume;
               timer_stop; channel_setListener false; channel_reset;
               delegate_onComplete]
  | None => False
  end ∧
  match (start (H := Bench.authenticator true) true (Some Bench.no_users);;
         onMessageReceived hello [] []) constructed with
  | Some (_, a, calls) =>
      anonymous_access_ a = DISABLE ∧ state_ a = PENDING ∧
      internal_state_ a = SEND_SERVER_HELLO ∧
      calls = [timer_start; channel_setListener true; channel_resume;
               channel_send (MsgServerHello
                 {| server_hello_encryption := 2; server_hello_iv := [] |})]
  | None => False
  end.
Proof. vm_compute. repeat split; reflexivity. Qed.

End AuthenticatorRuns.

(** * Properties of the coordinator *)

Section CoordinatorProperties.
Import FileTransfer.
Context `{Platform}.

(** C4, as the code has it.  An error of type [OTHER] offers exactly
    [ACTION_ABORT] and its default action is [ACTION_ASK].  The table
    [kActions] has no row for [QUEUE]: for an error of that type
    [availableActions] returns the empty mask and [defaultAction] returns
    [ACTION_ABORT]. *)
Theorem abort_only_actions (code : FileError) (path : string) :
  (availableActions {| Error_type := OTHER; Error_code := code; Error_path := path |}
     = Action_value ACTION_ABORT ∧
   defaultAction {| Error_type := OTHER; Error_code := code; Error_path := path |}
     = ACTION_ASK) ∧
  (availableActions {| Error_type := QUEUE; Error_code := code; Error_path := path |} = 0 ∧
   defaultAction {| Error_type := QUEUE; Error_code := code; Error_path := path |}
     = ACTION_ABORT).
Proof. repeat split; reflexivity. Qed.

(** C10.  A target reply or a source reply that arrives while the task
    queue is empty is dropped: the handler returns at once, no request is
    issued, no error is raised, and no data member changes.  The same holds
    through [onReply], whichever endpoint the reply comes from. *)
Theorem replies_dropped_on_empty_queue (a : Fields) (target : FileTaskTarget)
    (request : FileRequest) (reply : FileReply) :
  tasks_ a = [] →
  targetReply request reply a = Some (tt, a, []) ∧
  sourceReply request reply a = Some (tt, a, []) ∧
  onReply target request reply a = Some (tt, a, []).
Proof.
  intros Hempty. unfold onReply, targetReply, sourceReply. run_method.
  rewrite Hempty. simpl. repeat split; try reflexivity.
  destruct (type_ a), target; simpl; rewrite Hempty; reflexivity.
Qed.

(** ** The finish callback *)

Lemma quiet_nil : quiet [].
Proof. intros f Hin. by apply elem_of_nil in Hin. Qed.

Lemma quiet_app (c1 c2 : list Call) : quiet c1 → quiet c2 → quiet (c1 ++ c2).
Proof. intros H1 H2 f [Hin | Hin]%elem_of_app; [eapply H1 | eapply H2]; eassumption. Qed.

Lemma quiet_one (c : Call) : (∀ f, c ≠ callback f) → quiet [c].
Proof. intros Hc f Hin%list_elem_of_singleton. by eapply Hc. Qed.

Lemma finish_relation_refl (a : Fields) : finish_relation a [] a.
Proof.
  unfold finish_relation. destruct (finish_callback_ a); [left|]; split;
    auto using quiet_nil.
Qed.

Lemma finish_relation_trans (a1 : Fields) c1 (a2 : Fields) c2 (a3 : Fields) :
  finish_relation a1 c1 a2 → finish_relation a2 c2 a3 → finish_relation a1 (c1 ++ c2) a3.
Proof.
  unfold finish_relation.
  destruct (finish_callback_ a1) as [f|].
  - intros [[E1 Q1] | [E1 (before & after & -> & Qb & Qa)]]; rewrite E1.
    + intros [[E2 Q2] | [E2 (before & after & -> & Qb & Qa)]].
      * left. split; [done | by apply quiet_app].
      * right. split; [done|]. exists (c1 ++ before), after.
        split; [by rewrite <- app_assoc | split; [by apply quiet_app | done]].
    + intros [E2 Q2]. right. split; [done|]. exists before, (after ++ c2).
      split; [by rewrite <- app_assoc | split; [done | by apply quiet_app]].
  - intros [E1 Q1]. rewrite E1. intros [E2 Q2]. split; [done | by apply quiet_app].
Qed.

Lemma keeps_finish_onFinished : keeps finish_relation onFinished.
Proof.
  intros a [] a' calls. unfold onFinished, finish_relation. run_method.
  destruct (finish_callback_ a) as [f|]; simpl; intros [= <- <-]; simpl.
  - right. split; [done|]. exists [], []. split; [done | split; apply quiet_nil].
  - split; [done | apply quiet_nil].
Qed.

(** A step that leaves the stored callback alone and invokes none. *)
Ltac finish_base :=
  intros; unfold finish_relation; simpl;
  match goal with
  | |- context [finish_callback_ ?a] =>
      destruct (finish_callback_ a); [left|]; split;
      first [ reflexivity | apply quiet_nil | apply quiet_one; discriminate ]
  end.

Ltac finish_walk := keeps_walk finish_relation_refl finish_relation_trans finish_base.

Lemma keeps_finish_frontTask : keeps finish_relation frontTask.
Proof. unfold frontTask. finish_walk. Qed.

Lemma keeps_finish_factory f : keeps finish_relation (factory f).
Proof. unfold factory. finish_walk. Qed.

Lemma keeps_finish_int64 x : keeps finish_relation (int64 x).
Proof. unfold int64. finish_walk. Qed.

Lemma keeps_finish_doFrontTask overwrite : keeps finish_relation (doFrontTask overwrite).
Proof.
  pose proof keeps_finish_frontTask. pose proof keeps_finish_factory.
  unfold doFrontTask. finish_walk.
Qed.

Lemma keeps_finish_doNextTask : keeps finish_relation doNextTask.
Proof.
  pose proof keeps_finish_onFinished. pose proof keeps_finish_doFrontTask.
  unfold doNextTask. finish_walk.
Qed.

Lemma keeps_finish_setAction t action : keeps finish_relation (setAction t action).
Proof.
  pose proof keeps_finish_onFinished. pose proof keeps_finish_doFrontTask.
  pose proof keeps_finish_doNextTask.
  unfold setAction, setActionForErrorType. destruct action; finish_walk.
Qed.

Lemma keeps_finish_onError t code path : keeps finish_relation (onError t code path).
Proof.
  pose proof keeps_finish_setAction.
  unfold onError. finish_walk.
Qed.

Lemma keeps_finish_targetReply request reply :
  keeps finish_relation (targetReply request reply).
Proof.
  pose proof keeps_finish_onError. pose proof keeps_finish_doNextTask.
  pose proof keeps_finish_frontTask. pose proof keeps_finish_factory.
  pose proof keeps_finish_int64.
  unfold targetReply. finish_walk.
Qed.

Lemma keeps_finish_sourceReply request reply :
  keeps finish_relation (sourceReply request reply).
Proof.
  pose proof keeps_finish_onError. pose proof keeps_finish_frontTask.
  pose proof keeps_finish_factory.
  unfold sourceReply. finish_walk.
Qed.

Lemma keeps_finish_handle (e : Event) : ¬ is_start e → keeps finish_relation (handle e).
Proof.
  pose proof keeps_finish_onFinished. pose proof keeps_finish_onError.
  pose proof keeps_finish_doFrontTask. pose proof keeps_finish_setAction.
  pose proof keeps_finish_targetReply. pose proof keeps_finish_sourceReply.
  destruct e; simpl; [tauto | intros _ ..];
    unfold stop, onReply, onQueueBuilderFinished; finish_walk.
Qed.

Lemma keeps_finish_run (events : list Event) :
  Forall (λ e, ¬ is_start e) events → keeps finish_relation (run events).
Proof.
  induction 1 as [|e events He _ IH]; simpl.
  - apply keeps_skip, finish_relation_refl.
  - apply (keeps_bind _ finish_relation_trans); [by apply keeps_finish_handle | done].
Qed.

Lemma start_stores_callback (a a1 : Fields) source_path target_path items finish_callback c1 :
  start source_path target_path items finish_callback a = Some (tt, a1, c1) →
  finish_callback_ a1 = finish_callback ∧ quiet c1.
Proof.
  unfold start, factory. run_method.
  destruct (type_ a); simpl; intros [= <- <-]; (split; [reflexivity|]);
    intros f Hin; repeat (apply elem_of_cons in Hin as [Hin | Hin]; [discriminate Hin|]);
    by apply elem_of_nil in Hin.
Qed.

(** C9.  In an execution that begins with [start] and does not call
    [start] again, whatever else happens (replies, answers to errors, [stop],
    the queue builder reporting, the cancel timer running out, each of which
    may reach [onFinished]), either no finish callback is invoked, or the one
    passed to [start] is invoked exactly once, directly after the window
    proxy is told to stop, and no other callback is invoked. *)
Theorem finish_callback_at_most_once (a a' : Fields)
    (source_path target_path : string) (items : list Item)
    (finish_callback : option FinishCallback) (events : list Event) (calls : list Call) :
  Forall (λ e, ¬ is_start e) events →
  run (ev_start source_path target_path items finish_callback :: events) a
    = Some (tt, a', calls) →
  quiet calls ∨ ∃ f, finish_callback = Some f ∧ finished_once f calls.
Proof.
  intros Hevents. simpl. unfold mbind, Cmd_bind, cmd_bind.
  destruct (start _ _ _ _ a) as [[[[] a1] c1]|] eqn:Hstart; [|discriminate].
  destruct (run events a1) as [[[[] a2] c2]|] eqn:Hrun; [|discriminate].
  intros [= <- <-].
  apply start_stores_callback in Hstart as [Hstored Hquiet].
  pose proof (keeps_finish_run events Hevents _ _ _ _ Hrun) as Hrel.
  unfold finish_relation in Hrel. rewrite Hstored in Hrel.
  destruct finish_callback as [f|].
  - destruct Hrel as [[_ Hq] | [_ (before & after & -> & Hb & Ha)]].
    + left. by apply quiet_app.
    + right. exists f. split; [done|]. exists (c1 ++ before), after.
      split; [by rewrite <- app_assoc | split; [by apply quiet_app | done]].
  - destruct Hrel as [_ Hq]. left. by apply quiet_app.
Qed.

(** ** Sticky actions *)

Lemma silent_nil : silent [].
Proof. intros e Hin. by apply elem_of_nil in Hin. Qed.

Lemma silent_app (c1 c2 : list Call) : silent c1 → silent c2 → silent (c1 ++ c2).
Proof. intros H1 H2 e [Hin | Hin]%elem_of_app; [eapply H1 | eapply H2]; eassumption. Qed.

Lemma silent_one (c : Call) : (∀ e, c ≠ window_errorOccurred e) → silent [c].
Proof. intros Hc e Hin%list_elem_of_singleton. by eapply Hc. Qed.

Lemma silent_unprompted t (calls : list Call) : silent calls → unprompted t calls.
Proof. intros Hs code path. apply Hs. Qed.

Lemma records_nothing_refl (a : Fields) : records_nothing a [] a.
Proof. split; [done | apply silent_nil]. Qed.

Lemma records_nothing_trans (a1 : Fields) c1 (a2 : Fields) c2 (a3 : Fields) :
  records_nothing a1 c1 a2 → records_nothing a2 c2 a3 → records_nothing a1 (c1 ++ c2) a3.
Proof. intros [E1 S1] [E2 S2]. split; [congruence | by apply silent_app]. Qed.

Ltac nothing_base :=
  intros; split; simpl;
  first [ reflexivity | apply silent_nil | apply silent_one; discriminate ].

Ltac nothing_walk := keeps_walk records_nothing_refl records_nothing_trans nothing_base.

Lemma keeps_nothing_onFinished : keeps records_nothing onFinished.
Proof. unfold onFinished. nothing_walk. Qed.

Lemma keeps_nothing_doFrontTask overwrite : keeps records_nothing (doFrontTask overwrite).
Proof. unfold doFrontTask, frontTask, factory. nothing_walk. Qed.

Lemma keeps_nothing_doNextTask : keeps records_nothing doNextTask.
Proof.
  pose proof keeps_nothing_onFinished. pose proof keeps_nothing_doFrontTask.
  unfold doNextTask. nothing_walk.
Qed.

(** What [setAction] records: the action for the type when it is an "apply
    to all" answer, and nothing otherwise; it shows no error. *)
Lemma setAction_records (a a' : Fields) t action calls :
  setAction t action a = Some (tt, a', calls) →
  actions_ a' =
    (if bool_decide (action = ACTION_SKIP_ALL ∨ action = ACTION_REPLACE_ALL)
     then <[t := action]> (actions_ a) else actions_ a) ∧
  silent calls.
Proof.
  pose proof keeps_nothing_onFinished as Hfin.
  pose proof keeps_nothing_doFrontTask as Hfront.
  pose proof keeps_nothing_doNextTask as Hnext.
  destruct action; unfold setAction, setActionForErrorType;
    cbv beta iota delta [mbind mret Cmd_bind Cmd_ret cmd_bind cmd_ret modify skip];
    simpl; intros Hrun.
  - injection Hrun as <- <-. split; [done | apply silent_nil].
  - by apply Hfin in Hrun.
  - destruct (doNextTask a) as [[[[] a1] c1]|] eqn:E; [|discriminate].
    injection Hrun as <- <-. by apply Hnext in E.
  - destruct (doNextTask _) as [[[[] a1] c1]|] eqn:E; [|discriminate].
    injection Hrun as <- <-. by apply Hnext in E.
  - destruct (doFrontTask true a) as [[[[] a1] c1]|] eqn:E; [|discriminate].
    injection Hrun as <- <-. by apply Hfront in E.
  - destruct (doFrontTask true _) as [[[[] a1] c1]|] eqn:E; [|discriminate].
    injection Hrun as <- <-. by apply Hfront in E.
Qed.

Section Sticky.
Variables (t : ErrorType) (choice : Action).

Lemma unprompted_nil : unprompted t [].
Proof. apply silent_unprompted, silent_nil. Qed.

Lemma unprompted_app (c1 c2 : list Call) :
  unprompted t c1 → unprompted t c2 → unprompted t (c1 ++ c2).
Proof.
  intros H1 H2 code path [Hin | Hin]%elem_of_app; [eapply H1 | eapply H2]; eassumption.
Qed.

Lemma sticky_relation_refl (a : Fields) : sticky_relation t choice a [] a.
Proof. intros Hrec. split; [done | apply unprompted_nil]. Qed.

Lemma sticky_relation_trans (a1 : Fields) c1 (a2 : Fields) c2 (a3 : Fields) :
  sticky_relation t choice a1 c1 a2 → sticky_relation t choice a2 c2 a3 →
  sticky_relation t choice a1 (c1 ++ c2) a3.
Proof.
  intros H1 H2 Hrec. destruct (H1 Hrec) as [Hrec2 U1]. destruct (H2 Hrec2) as [Hrec3 U2].
  split; [done | by apply unprompted_app].
Qed.

Lemma records_nothing_sticky (a : Fields) calls (a' : Fields) :
  records_nothing a calls a' → sticky_relation t choice a calls a'.
Proof. intros [E S] Hrec. rewrite E. split; [done | by apply silent_unprompted]. Qed.

Lemma keeps_nothing_sticky {A} (m : Cmd Fields Call A) :
  keeps records_nothing m → keeps (sticky_relation t choice) m.
Proof. intros Hm a x a' calls Hrun. eapply records_nothing_sticky, Hm, Hrun. Qed.

Lemma keeps_sticky_setAction t' action :
  (t' = t → sticky action → action = choice) →
  keeps (sticky_relation t choice) (setAction t' action).
Proof.
  intros Hsame a [] a' calls Hrun Hrec.
  apply setAction_records in Hrun as [-> Hsilent].
  split; [|by apply silent_unprompted].
  case_bool_decide as Hsticky; [|done].
  destruct (decide (t' = t)) as [-> | Hne].
  - rewrite (Hsame eq_refl Hsticky). apply lookup_insert_eq.
  - by rewrite lookup_insert_ne.
Qed.

Lemma keeps_sticky_onError t' code path :
  keeps (sticky_relation t choice) (onError t' code path).
Proof.
  unfold onError. apply keeps_get_bind. intros a [] a' calls.
  destruct (actions_ a !! t') as [recorded|] eqn:Hlook.
  - intros Hrun Hrec.
    assert (t' = t → sticky recorded → recorded = choice) as Hsame.
    { intros -> _. rewrite Hrec in Hlook. by injection Hlook. }
    exact (keeps_sticky_setAction t' recorded Hsame a tt a' calls Hrun Hrec).
  - intros [= <- <-] Hrec. split; [done|].
    intros code' path' Hin%list_elem_of_singleton. injection Hin as -> _ _. congruence.
Qed.

Ltac sticky_base :=
  intros; intros ?; split; simpl;
  first [ assumption | apply unprompted_nil
        | intros ? ? ?%list_elem_of_singleton; discriminate ].

Ltac sticky_walk := keeps_walk sticky_relation_refl sticky_relation_trans sticky_base.

Lemma keeps_sticky_targetReply request reply :
  keeps (sticky_relation t choice) (targetReply request reply).
Proof.
  pose proof keeps_sticky_onError.
  pose proof (keeps_nothing_sticky _ keeps_nothing_doNextTask).
  unfold targetReply, frontTask, factory, int64. sticky_walk.
Qed.

Lemma keeps_sticky_sourceReply request reply :
  keeps (sticky_relation t choice) (sourceReply request reply).
Proof.
  pose proof keeps_sticky_onError.
  unfold sourceReply, frontTask, factory. sticky_walk.
Qed.

Lemma keeps_sticky_handle (e : Event) :
  keeps_choice t choice e → keeps (sticky_relation t choice) (handle e).
Proof.
  pose proof keeps_sticky_onError.
  pose proof keeps_sticky_targetReply. pose proof keeps_sticky_sourceReply.
  pose proof (keeps_nothing_sticky _ keeps_nothing_onFinished).
  pose proof (λ o, keeps_nothing_sticky _ (keeps_nothing_doFrontTask o)).
  destruct e; simpl; intros Hchoice;
    [ | | by apply keeps_sticky_setAction | | | ];
    unfold start, stop, onReply, onQueueBuilderFinished, factory; sticky_walk.
Qed.

Lemma keeps_sticky_run (events : list Event) :
  Forall (keeps_choice t choice) events → keeps (sticky_relation t choice) (run events).
Proof.
  induction 1 as [|e events He _ IH]; simpl.
  - apply keeps_skip, sticky_relation_refl.
  - apply (keeps_bind _ sticky_relation_trans); [by apply keeps_sticky_handle | done].
Qed.

End Sticky.

(** ** Progress accounting *)

Lemma total_kept_refl (a : Fields) : total_kept a [] a.
Proof. reflexivity. Qed.

Lemma total_kept_trans (a1 : Fields) (c1 : list Call) (a2 : Fields) (c2 : list Call)
    (a3 : Fields) :
  total_kept a1 c1 a2 → total_kept a2 c2 a3 → total_kept a1 (c1 ++ c2) a3.
Proof. unfold total_kept. congruence. Qed.

Ltac total_base := intros; reflexivity.

Ltac total_walk := keeps_walk total_kept_refl total_kept_trans total_base.

Lemma keeps_total_doFrontTask overwrite : keeps total_kept (doFrontTask overwrite).
Proof. unfold doFrontTask, frontTask, factory. total_walk. Qed.

Lemma keeps_total_doNextTask : keeps total_kept doNextTask.
Proof.
  pose proof keeps_total_doFrontTask.
  unfold doNextTask, onFinished. total_walk.
Qed.

Lemma keeps_total_setAction t action : keeps total_kept (setAction t action).
Proof.
  pose proof keeps_total_doFrontTask. pose proof keeps_total_doNextTask.
  unfold setAction, setActionForErrorType, onFinished. destruct action; total_walk.
Qed.

Lemma keeps_total_onError t code path : keeps total_kept (onError t code path).
Proof. pose proof keeps_total_setAction. unfold onError. total_walk. Qed.

(** The reply to a written packet of a task with nonzero size, while the
    total size is nonzero, adds [packet_charge] to the total. *)
Lemma written_packet_charge (a a' : Fields) (request : FileRequest) (reply : FileReply)
    (written : FilePacket) (front : FileTransferTask) (rest : list FileTransferTask)
    (calls : list Call) :
  tasks_ a = front :: rest →
  create_directory_request request = None →
  upload_request request = None →
  packet request = Some written →
  error_code reply = FILE_ERROR_SUCCESS →
  size front ≠ 0 →
  total_size_ a ≠ 0 →
  targetReply request reply a = Some (tt, a', calls) →
  total_transfered_size_ a' =
    total_transfered_size_ a + packet_charge (size front) (task_transfered_size_ a).
Proof.
  intros Htasks Hdir Hupload Hpacket Hcode Hsize Htotal.
  unfold targetReply, frontTask, int64, factory, packet_charge. run_method.
  apply Z.eqb_neq in Hsize, Htotal.
  repeat (first [ rewrite Htasks | rewrite Hdir | rewrite Hupload | rewrite Hpacket
                | rewrite Hcode | rewrite Hsize | rewrite Htotal ]; simpl).
  repeat first
    [ discriminate
    | match goal with
      | |- context [doNextTask ?b] =>
          let E := fresh "E" in
          destruct (doNextTask b) as [[[[] ?] ?]|] eqn:E;
          [apply keeps_total_doNextTask in E; unfold total_kept in E; simpl in E|]
      | |- context [if ?c then _ else _] => destruct c eqn:?
      | |- context [request_factory_source_ a] => destruct (request_factory_source_ a)
      end; simpl ];
  intros [= <- <-]; simpl; congruence.
Qed.

(** A branch of a reply handler that is built from steps keeping the
    total. *)
Ltac kept_branch :=
  intros Hrun; left; revert Hrun;
  match goal with
  | |- ?m ?a = Some (?x, ?a', ?c) → _ =>
      let K := fresh "K" in
      assert (keeps total_kept m) as K;
      [ pose proof keeps_total_doNextTask; pose proof keeps_total_onError;
        unfold frontTask, factory; total_walk
      | exact (K a x a' c) ]
  end.

(** Any target reply leaves the total alone or adds the charge of one
    packet of the front task. *)
Lemma targetReply_total (a a' : Fields) (request : FileRequest) (reply : FileReply)
    (calls : list Call) :
  targetReply request reply a = Some (tt, a', calls) →
  total_transfered_size_ a' = total_transfered_size_ a ∨
  ∃ front rest,
    tasks_ a = front :: rest ∧
    total_transfered_size_ a' =
      total_transfered_size_ a + packet_charge (size front) (task_transfered_size_ a).
Proof.
  unfold targetReply. rewrite get_bind_run.
  destruct (tasks_ a) as [|front rest] eqn:Htasks; simpl.
  { intros [= <- <-]. by left. }
  destruct (create_directory_request request) as [?|] eqn:Hdir; simpl.
  { kept_branch. }
  destruct (upload_request request) as [?|] eqn:Hupload; simpl.
  { kept_branch. }
  destruct (packet request) as [written|] eqn:Hpacket; simpl.
  2:{ kept_branch. }
  destruct (bool_decide (error_code reply ≠ FILE_ERROR_SUCCESS)) eqn:Hcode.
  { kept_branch. }
  apply bool_decide_eq_false in Hcode. apply dec_stable in Hcode.
  destruct (decide (size front = 0 ∨ total_size_ a = 0)) as [Hzero | Hnonzero].
  - unfold frontTask, factory. run_method. rewrite Htasks. simpl.
    replace (negb (size front =? 0) && negb (total_size_ a =? 0)) with false
      by (destruct Hzero as [-> | ->]; simpl; rewrite ?andb_false_r; reflexivity).
    simpl.
    repeat first
      [ discriminate
      | match goal with
        | |- context [doNextTask ?b] =>
            let E := fresh "E" in
            destruct (doNextTask b) as [[[[] ?] ?]|] eqn:E;
            [apply keeps_total_doNextTask in E; unfold total_kept in E; simpl in E|]
        | |- context [if ?c then _ else _] => destruct c eqn:?
        | |- context [request_factory_source_ a] => destruct (request_factory_source_ a)
        end; simpl ];
    intros [= <- <-]; simpl; left; congruence.
  - intros Hrun. right. exists front, rest. split; [done|].
    eapply (written_packet_charge a a' request reply written front rest calls);
      try done; try tauto.
    unfold targetReply. rewrite get_bind_run, Htasks. simpl.
    rewrite Hdir, Hupload, Hpacket. simpl.
    rewrite (bool_decide_eq_false_2 _ (λ Hn, Hn Hcode)). exact Hrun.
Qed.

Lemma packet_charge_positive (task_size task_transfered : Z) :
  0 < kMaxFilePacketSize → 0 < packet_charge task_size task_transfered.
Proof.
  unfold packet_charge. intros Hmax.
  destruct (Z.ltb_spec task_size (task_transfered + kMaxFilePacketSize)); lia.
Qed.

Lemma total_grows_refl (a : Fields) : total_grows a [] a.
Proof. unfold total_grows. lia. Qed.

Lemma total_grows_trans (a1 : Fields) (c1 : list Call) (a2 : Fields) (c2 : list Call)
    (a3 : Fields) :
  total_grows a1 c1 a2 → total_grows a2 c2 a3 → total_grows a1 (c1 ++ c2) a3.
Proof. unfold total_grows. lia. Qed.

Lemma keeps_kept_grows {A} (m : Cmd Fields Call A) :
  keeps total_kept m → keeps total_grows m.
Proof.
  intros Hm a x a' calls Hrun. apply Hm in Hrun. unfold total_kept, total_grows in *. lia.
Qed.

Lemma keeps_total_sourceReply request reply : keeps total_kept (sourceReply request reply).
Proof.
  pose proof keeps_total_onError.
  unfold sourceReply, frontTask, factory. total_walk.
Qed.

Lemma keeps_grows_targetReply request reply :
  0 < kMaxFilePacketSize → keeps total_grows (targetReply request reply).
Proof.
  intros Hmax a [] a' calls Hrun. unfold total_grows.
  destruct (targetReply_total _ _ _ _ _ Hrun) as [-> | (front & rest & _ & ->)]; [lia|].
  pose proof (packet_charge_positive (size front) (task_transfered_size_ a) Hmax). lia.
Qed.

Ltac grows_base := intros; unfold total_grows; simpl; lia.

Ltac grows_walk := keeps_walk total_grows_refl total_grows_trans grows_base.

Lemma keeps_grows_handle (e : Event) :
  0 < kMaxFilePacketSize → keeps total_grows (handle e).
Proof.
  intros Hmax.
  pose proof (λ q r, keeps_grows_targetReply q r Hmax).
  pose proof (λ q r, keeps_kept_grows _ (keeps_total_sourceReply q r)).
  pose proof (λ t c p, keeps_kept_grows _ (keeps_total_onError t c p)).
  pose proof (λ t c, keeps_kept_grows _ (keeps_total_setAction t c)).
  pose proof (λ o, keeps_kept_grows _ (keeps_total_doFrontTask o)).
  destruct e; simpl;
    unfold start, stop, onReply, onQueueBuilderFinished, onFinished, factory;
    grows_walk.
Qed.

(** X17.  With a positive packet size the total of transferred bytes never
    decreases, whatever happens to the coordinator. *)
Lemma total_transfered_never_decreases (events : list Event) (a a' : Fields)
    (calls : list Call) :
  0 < kMaxFilePacketSize →
  run events a = Some (tt, a', calls) →
  total_transfered_size_ a ≤ total_transfered_size_ a'.
Proof.
  intros Hmax. revert a a' calls.
  assert (keeps total_grows (run events)) as Hkeeps.
  { induction events as [|e events IH]; simpl.
    - apply keeps_skip, total_grows_refl.
    - apply (keeps_bind _ total_grows_trans); [by apply keeps_grows_handle | done]. }
  intros a a' calls. apply Hkeeps.
Qed.

(** C7.  When an error of type [t] is answered with [ACTION_SKIP_ALL] or
    [ACTION_REPLACE_ALL], the answer is recorded for [t].  Through whatever
    happens afterwards, short of another "apply to all" answer for [t], it
    stays recorded and no error of type [t] is shown to the window proxy: a
    later error of type [t] is handled as [setAction] with the recorded
    answer, which shows nothing.  An answer [ACTION_SKIP] or [ACTION_REPLACE]
    records nothing. *)
Theorem sticky_actions (a a1 a2 : Fields) (t : ErrorType) (choice : Action)
    (calls1 calls2 : list Call) (events : list Event) (code : FileError) (path : string) :
  sticky choice →
  setAction t choice a = Some (tt, a1, calls1) →
  Forall (keeps_choice t choice) events →
  run events a1 = Some (tt, a2, calls2) →
  actions_ a1 !! t = Some choice ∧
  (actions_ a2 !! t = Some choice ∧ unprompted t calls2) ∧
  (onError t code path a2 = setAction t choice a2 ∧
   ∀ a3 calls3, onError t code path a2 = Some (tt, a3, calls3) → silent calls3) ∧
  (∀ action (b b' : Fields) calls,
     plain action → setAction t action b = Some (tt, b', calls) → actions_ b' = actions_ b).
Proof.
  intros Hsticky Hset Hevents Hrun.
  assert (actions_ a1 !! t = Some choice) as Hrec1.
  { apply setAction_records in Hset as [-> _].
    rewrite (bool_decide_eq_true_2 _ Hsticky). apply lookup_insert_eq. }
  destruct (keeps_sticky_run t choice events Hevents _ _ _ _ Hrun Hrec1) as [Hrec2 Hquiet].
  assert (onError t code path a2 = setAction t choice a2) as Hsame.
  { unfold onError. run_method. rewrite Hrec2.
    by destruct (setAction t choice a2) as [[[[] ?] ?]|]. }
  repeat split; try done.
  - intros a3 calls3. rewrite Hsame. intros Hrun3.
    by apply setAction_records in Hrun3 as [_ Hsilent].
  - intros action b b' calls Hplain Hrun'.
    apply setAction_records in Hrun' as [-> _].
    rewrite bool_decide_eq_false_2; [done|].
    destruct Hplain as [-> | ->]; intros [[=] | [=]].
Qed.

End CoordinatorProperties.

(** * The coordinator on concrete inputs *)

Section CoordinatorRuns.
Import FileTransfer.
#[local] Existing Instance Bench.coordinator.

Lemma replies_dropped_on_empty_queue_witness :
  let a := constructed UPLOADER in
  let request := packetOf {| packet_data := [Byte.x41]; packet_flags := 2 |} in
  let reply := Bench.answer FILE_ERROR_SUCCESS in
  tasks_ a = [] ∧
  targetReply request reply a = Some (tt, a, []) ∧
  sourceReply request reply a = Some (tt, a, []) ∧
  onReply REMOTE request reply a = Some (tt, a, []).
Proof.
  intros a request reply. split; [reflexivity|].
  apply (replies_dropped_on_empty_queue a REMOTE request reply). reflexivity.
Defined.

Example finish_four_times_calls :
  run (ev_start "src" "dst" [] (Some 7%nat) :: Bench.finish_four_times)
      (constructed DOWNLOADER) =
  Some (tt, Bench.after (ev_start "src" "dst" [] (Some 7%nat) :: Bench.finish_four_times),
        [window_start; queue_builder_start REMOTE "src" "dst" [];
         window_stop; callback 7%nat; cancel_timer_start]).
Proof. vm_compute. reflexivity. Qed.

Lemma finish_callback_at_most_once_witness :
  let events := Bench.finish_four_times in
  let calls :=
    [window_start; queue_builder_start REMOTE "src" "dst" [];
     window_stop; callback 7%nat; cancel_timer_start] in
  Forall (λ e, ¬ is_start e) events ∧
  run (ev_start "src" "dst" [] (Some 7%nat) :: events) (constructed DOWNLOADER) =
    Some (tt, Bench.after (ev_start "src" "dst" [] (Some 7%nat) :: events), calls) ∧
  (quiet calls ∨ ∃ f, Some 7%nat = Some f ∧ finished_once f calls).
Proof.
  intros events calls.
  assert (Forall (λ e, ¬ is_start e) events) as Hevents
    by (repeat constructor; simpl; tauto).
  assert (run (ev_start "src" "dst" [] (Some 7%nat) :: events) (constructed DOWNLOADER) =
          Some (tt, Bench.after (ev_start "src" "dst" [] (Some 7%nat) :: events), calls))
    as Hrun by (vm_compute; reflexivity).
  split; [exact Hevents|]. split; [exact Hrun|].
  exact (finish_callback_at_most_once (constructed DOWNLOADER) _ "src" "dst" []
           (Some 7%nat) events calls Hevents Hrun).
Defined.

Example collision_is_shown :
  Bench.calls_during Bench.collision (constructed DOWNLOADER) =
    [window_start;
     queue_builder_start REMOTE "src" "dst" [Bench.item "a" 1; Bench.item "b" 1];
     window_setCurrentItem "src/a" "dst/a";
     doRequest REMOTE (downloadRequest "src/a");
     doRequest LOCAL (uploadRequest "dst/a" false);
     window_errorOccurred
       {| Error_type := ALREADY_EXISTS; Error_code := FILE_ERROR_PATH_ALREADY_EXISTS;
          Error_path := "dst/a" |}].
Proof. vm_compute. reflexivity. Qed.

Example second_collision_is_replaced :
  Bench.calls_during Bench.second_collision
    (Bench.after (Bench.collision ++ [ev_setAction ALREADY_EXISTS ACTION_REPLACE_ALL])) =
    [doRequest LOCAL (uploadRequest "dst/a" true);
     doRequest REMOTE (packetRequest 0);
     doRequest LOCAL (packetOf {| packet_data := [Byte.x41]; packet_flags := 2 |});
     window_setCurrentProgress 52428750 100;
     window_setCurrentItem "src/b" "dst/b";
     doRequest REMOTE (downloadRequest "src/b");
     doRequest LOCAL (uploadRequest "dst/b" false);
     window_setCurrentItem "src/b" "dst/b";
     doRequest REMOTE (downloadRequest "src/b")].
Proof. vm_compute. reflexivity. Qed.

Lemma sticky_actions_witness :
  let recorded := Bench.collision ++ [ev_setAction ALREADY_EXISTS ACTION_REPLACE_ALL] in
  let a := Bench.after Bench.collision in
  let a1 := Bench.after recorded in
  let a2 := Bench.after (recorded ++ Bench.second_collision) in
  let calls1 :=
    [window_setCurrentItem "src/a" "dst/a"; doRequest REMOTE (downloadRequest "src/a")] in
  let calls2 := Bench.calls_during Bench.second_collision a1 in
  sticky ACTION_REPLACE_ALL ∧
  setAction ALREADY_EXISTS ACTION_REPLACE_ALL a = Some (tt, a1, calls1) ∧
  Forall (keeps_choice ALREADY_EXISTS ACTION_REPLACE_ALL) Bench.second_collision ∧
  run Bench.second_collision a1 = Some (tt, a2, calls2) ∧
  actions_ a1 !! ALREADY_EXISTS = Some ACTION_REPLACE_ALL ∧
  (actions_ a2 !! ALREADY_EXISTS = Some ACTION_REPLACE_ALL ∧
   unprompted ALREADY_EXISTS calls2) ∧
  (onError ALREADY_EXISTS FILE_ERROR_PATH_ALREADY_EXISTS "dst/b" a2 =
     setAction ALREADY_EXISTS ACTION_REPLACE_ALL a2 ∧
   ∀ a3 calls3,
     onError ALREADY_EXISTS FILE_ERROR_PATH_ALREADY_EXISTS "dst/b" a2 = Some (tt, a3, calls3) →
     silent calls3) ∧
  (∀ action (b b' : Fields) calls,
     plain action → setAction ALREADY_EXISTS action b = Some (tt, b', calls) →
     actions_ b' = actions_ b).
Proof.
  intros recorded a a1 a2 calls1 calls2.
  assert (sticky ACTION_REPLACE_ALL) as Hsticky by (right; reflexivity).
  assert (setAction ALREADY_EXISTS ACTION_REPLACE_ALL a = Some (tt, a1, calls1)) as Hset
    by (vm_compute; reflexivity).
  assert (Forall (keeps_choice ALREADY_EXISTS ACTION_REPLACE_ALL) Bench.second_collision)
    as Hevents by (repeat constructor).
  assert (run Bench.second_collision a1 = Some (tt, a2, calls2)) as Hrun
    by (vm_compute; reflexivity).
  split; [exact Hsticky|]. split; [exact Hset|]. split; [exact Hevents|].
  split; [exact Hrun|].
  exact (sticky_actions a a1 a2 ALREADY_EXISTS ACTION_REPLACE_ALL calls1 calls2
           Bench.second_collision FILE_ERROR_PATH_ALREADY_EXISTS "dst/b"
           Hsticky Hset Hevents Hrun).
Defined.

(** C2 against the code.  One file of one byte is copied in packets of one
    mebibyte.  When its only packet has been written the queue is finished,
    [total_size_] is 1 and [total_transfered_size_] is 1048575: the packet is
    charged with what exceeds the file size, not with what remained of the
    file, and the window is told a total progress of 104857500 percent. *)
Theorem total_transfered_exceeds_total_size :
  match run Bench.copy_one_byte (constructed DOWNLOADER) with
  | Some (_, a, calls) =>
      tasks_ a = [] ∧ total_size_ a = 1 ∧ total_transfered_size_ a = 1048575 ∧
      calls =
        [window_start; queue_builder_start REMOTE "src" "dst" [Bench.item "a" 1];
         window_setCurrentItem "src/a" "dst/a";
         doRequest REMOTE (downloadRequest "src/a");
         doRequest LOCAL (uploadRequest "dst/a" false);
         doRequest REMOTE (packetRequest 0);
         doRequest LOCAL (packetOf {| packet_data := [Byte.x41]; packet_flags := 2 |});
         window_setCurrentProgress 104857500 100;
         window_stop; callback 7%nat]
  | None => False
  end.
Proof. vm_compute. repeat split; reflexivity. Qed.

(** C3 against the code.  A file of a mebibyte and a byte is copied in
    packets of one mebibyte.  Before the reply to its second and last packet
    the task stands at 1048576 bytes, so one byte remains and the
    specification charges min(1048576, 1) = 1; the code adds 1048575, the
    amount by which the task counter overshot the file size. *)
Theorem last_packet_is_charged_the_excess :
  let a := Bench.after Bench.second_packet_read in
  tasks_ a = [Bench.file "a" 1048577] ∧
  total_size_ a = 1048577 ∧
  task_transfered_size_ a = 1048576 ∧
  kMaxFilePacketSize `min` (1048577 - task_transfered_size_ a) = 1 ∧
  match targetReply (packetOf {| packet_data := [Byte.x41]; packet_flags := 2 |})
          (Bench.answer FILE_ERROR_SUCCESS) a with
  | Some (_, a', _) => total_transfered_size_ a' - total_transfered_size_ a = 1048575
  | None => False
  end.
Proof. vm_compute. repeat split; reflexivity. Qed.

(** C4 as worded fails for [QUEUE], the error [start] raises when the queue
    cannot be built: no action is offered and the default is to abort. *)
Lemma queue_error_is_not_abort_only :
  ¬ abort_only_as_specified
      {| Error_type := QUEUE; Error_code := FILE_ERROR_UNKNOWN; Error_path := "" |}.
Proof. intros [Hmask Hdefault]. discriminate Hdefault. Qed.

End CoordinatorRuns.

(** * Further properties of the authenticator *)

Section AuthenticatorBehaviour.
Import ServerAuthenticator.
Context `{Platform}.


(** X2.  [start] on a stopped authenticator takes the channel and either
    goes on to listen (timer armed, listener set, channel resumed, state
    [PENDING]) when the configuration is consistent, or fails at once
    without sending anything (state [FAILED], channel destroyed) when it is
    not. The configuration stays as it was. *)
Theorem start_outcome (a : Fields) (user_list : option UserList) :
  state_ a = STOPPED →
  ∃ a' calls,
    start true user_list a = Some (tt, a', calls) ∧
    same_configuration a a' ∧
    ((consistent a ∧ state_ a' = PENDING ∧ channel_ a' = true ∧ calls = listen_calls) ∨
     (¬ consistent a ∧ state_ a' = FAILED ∧ channel_ a' = false ∧ calls = failure_calls)).
Proof.
  intros Hstate. unfold start, onFailed, on_channel, consistent, same_configuration.
  run_method. rewrite Hstate. simpl.
  destruct (anonymous_access_ a) eqn:Hanon; simpl;
    destruct (KeyPair_isValid (key_pair_ a)) eqn:Hkey; simpl;
    destruct (Z.eqb_spec (session_types_ a) 0) as [Hzero | Hnonzero]; simpl;
    eexists _, _; (split; [reflexivity|]); (split; [done|]);
    first [ left; split; [|done]; first [ left; done | right; done ]
          | right; split; [|done]; intros [(? & ? & ?) | (? & ?)]; congruence ].
Qed.

(** X3.  [onFailed] reports a failure once: the first call destroys the
    channel, sets [FAILED] and notifies the delegate; any later call,
    whoever makes it, changes nothing and notifies nobody. *)
Theorem onFailed_reports_once (a a1 : Fields) (calls : list Call) :
  onFailed a = Some (tt, a1, calls) →
  channel_ a1 = false ∧
  (channel_ a = true → state_ a1 = FAILED ∧ calls = failure_calls) ∧
  (channel_ a = false → a1 = a ∧ calls = []) ∧
  onFailed a1 = Some (tt, a1, []).
Proof.
  unfold onFailed. run_method.
  destruct (channel_ a) eqn:Hc; simpl; intros [= <- <-]; simpl.
  - repeat split; try done.
  - rewrite Hc. repeat split; try done.
Qed.

(** X4.  [takeChannel] hands the channel over only after success, and only
    once: it returns a channel exactly when the state is [SUCCESS] and the
    channel is still there, and afterwards it returns none. *)
Theorem takeChannel_once (a : Fields) :
  ∃ a',
    takeChannel a =
      Some (bool_decide (state_ a = SUCCESS) && channel_ a, a', []) ∧
    (state_ a ≠ SUCCESS → a' = a) ∧
    state_ a' = state_ a ∧
    takeChannel a' =
      Some (false, a', []).
Proof.
  unfold takeChannel. run_method.
  destruct (state_ a) eqn:Hs; simpl; eexists; (split; [reflexivity|]);
    repeat split; try done; simpl; rewrite ?Hs; simpl; try done.
Qed.

(** X5.  [setPrivateKey] on a stopped authenticator. An empty key is refused
    and nothing changes. A key that does not load is refused, too, but the
    stored key pair has been replaced by the invalid one. A key that loads
    is installed with the fresh IV, and the call succeeds unless that IV is
    empty. *)
Theorem setPrivateKey_outcome (a : Fields) (private_key random_iv : ByteArray) :
  state_ a = STOPPED →
  ∃ ok a',
    setPrivateKey private_key random_iv a = Some (ok, a', []) ∧
    (private_key = [] → ok = false ∧ a' = a) ∧
    (private_key ≠ [] → key_pair_ a' = KeyPair_fromPrivateKey private_key) ∧
    (private_key ≠ [] → KeyPair_isValid (KeyPair_fromPrivateKey private_key) = false →
       ok = false ∧ encrypt_iv_ a' = encrypt_iv_ a) ∧
    (private_key ≠ [] → KeyPair_isValid (KeyPair_fromPrivateKey private_key) = true →
       encrypt_iv_ a' = random_iv ∧ ok = negb (is_empty random_iv)) ∧
    (ok = true → KeyPair_isValid (key_pair_ a') = true ∧ encrypt_iv_ a' ≠ []).
Proof.
  intros Hstate. unfold setPrivateKey. run_method. rewrite Hstate. simpl.
  destruct private_key as [|k private_key]; simpl.
  { eexists _, _. split; [reflexivity|]. repeat split; try done. }
  destruct (KeyPair_isValid _) eqn:Hvalid; simpl.
  - destruct random_iv as [|i random_iv]; simpl;
      eexists _, _; (split; [reflexivity|]); repeat split; try done.
  - eexists _, _. split; [reflexivity|]. repeat split; try done.
Qed.

(** X6.  [setAnonymousAccess] on a stopped authenticator. Enabling is
    refused, with nothing changed, without a valid key pair or without a
    session type; otherwise the mode is set, with the given session types
    when enabling and with none when disabling. So an accepted call leaves a
    consistent configuration. *)
Theorem setAnonymousAccess_outcome (a : Fields) (anonymous_access : AnonymousAccess)
    (session_types : Z) :
  state_ a = STOPPED →
  ∃ ok a',
    setAnonymousAccess anonymous_access session_types a = Some (ok, a', []) ∧
    (ok = false ↔
       anonymous_access = ENABLE ∧
       (KeyPair_isValid (key_pair_ a) = false ∨ session_types = 0)) ∧
    (ok = false → a' = a) ∧
    (ok = true →
       anonymous_access_ a' = anonymous_access ∧
       session_types_ a' = (if bool_decide (anonymous_access = ENABLE)
                            then session_types else 0) ∧
       key_pair_ a' = key_pair_ a ∧ state_ a' = STOPPED ∧
       consistent a').
Proof.
  intros Hstate. unfold setAnonymousAccess, consistent. run_method. rewrite Hstate. simpl.
  destruct anonymous_access; simpl.
  - destruct (KeyPair_isValid (key_pair_ a)) eqn:Hkey; simpl;
      [destruct (Z.eqb_spec session_types 0) as [-> | Hne]; simpl|];
      eexists _, _; (split; [reflexivity|]); simpl.
    + split; [split; [tauto | done]|]. split; [done | discriminate].
    + split; [split; [discriminate | intros (_ & [? | ?]); congruence]|].
      split; [discriminate|]. intros _. repeat split; try done. left. by rewrite Hkey.
    + split; [split; [tauto | done]|]. split; [done | discriminate].
  - eexists _, _. split; [reflexivity|]. simpl.
    split; [split; [discriminate | intros [? _]; discriminate]|].
    split; [discriminate|]. intros _. repeat split; try done. by right.
Qed.

(** X7.  A configuration that [setAnonymousAccess] accepts is one [start]
    goes on with: started next, with a channel, the authenticator listens
    and does not fail. *)
Theorem accepted_configuration_starts (a a1 : Fields)
    (anonymous_access : AnonymousAccess) (session_types : Z)
    (user_list : option UserList) :
  setAnonymousAccess anonymous_access session_types a = Some (true, a1, []) →
  ∃ a2,
    start true user_list a1 = Some (tt, a2, listen_calls) ∧
    state_ a2 = PENDING ∧ channel_ a2 = true.
Proof.
  unfold setAnonymousAccess, start, on_channel, onFailed, listen_calls. run_method.
  destruct (state_ a) eqn:Hstate; simpl; try discriminate.
  destruct anonymous_access; simpl.
  - destruct (KeyPair_isValid (key_pair_ a)) eqn:Hkey; simpl; [|discriminate].
    destruct (session_types =? 0) eqn:Hzero; simpl; [discriminate|].
    intros [= <-]. simpl. rewrite Hstate, Hkey, Hzero. simpl.
    eexists. split; [reflexivity|]. by split.
  - intros [= <-]. simpl. rewrite Hstate. simpl.
    eexists. split; [reflexivity|]. by split.
Qed.

Lemma is_empty_true {A} (x : list A) : is_empty x = true ↔ x = [].
Proof. by destruct x. Qed.

Lemma is_empty_false {A} (x : list A) : is_empty x = false ↔ x ≠ [].
Proof. by destruct x. Qed.

(** X8.  A client hello that asks for SRP is answered exactly when it is
    usable. The answer is one server hello with the chosen cipher; with a
    key pair configured it carries the authenticator's IV, the client's IV
    is kept for decryption and the session key is the hash of the agreed
    secret; without a key pair the IV is empty and no session key is set. A
    hello that is not usable fails the authenticator, and nothing is sent. *)
Theorem srp_hello_outcome (a : Fields) (buffer : ByteArray) (client_hello : ClientHello) :
  channel_ a = true →
  parse_ClientHello buffer = Some client_hello →
  client_hello_identify client_hello = IDENTIFY_SRP →
  ∃ a' calls,
    onClientHello buffer a = Some (tt, a', calls) ∧
    (usable a client_hello →
       calls = [channel_send (MsgServerHello
                  {| server_hello_encryption := chosen_cipher client_hello;
                     server_hello_iv :=
                       if KeyPair_isValid (key_pair_ a) then encrypt_iv_ a else [] |})] ∧
       state_ a' = state_ a ∧
       internal_state_ a' = SEND_SERVER_HELLO ∧
       identify_ a' = IDENTIFY_SRP ∧
       encryption_ a' = chosen_cipher client_hello ∧
       session_key_ a' =
         (if KeyPair_isValid (key_pair_ a) then agreed_key a client_hello
          else session_key_ a) ∧
       decrypt_iv_ a' =
         (if KeyPair_isValid (key_pair_ a) then client_hello_iv client_hello
          else decrypt_iv_ a)) ∧
    (¬ usable a client_hello → state_ a' = FAILED ∧ calls = failure_calls).
Proof.
  intros Hc Hparse Hid.
  unfold onClientHello, usable, agreed_key, advertises, chosen_cipher.
  rewrite Hparse, Hid. unfold on_channel, onFailed. run_method.
  destruct (has_flag _ ENCRYPTION_AES256_GCM) eqn:Haes;
    destruct (has_flag _ ENCRYPTION_CHACHA20_POLY1305) eqn:Hchacha; simpl;
    repeat (rewrite Hc; simpl);
    try (eexists _, _; split; [reflexivity|];
         split; [intros [[? | ?] _]; discriminate | done]);
    (destruct (KeyPair_isValid (key_pair_ a)) eqn:Hkey; simpl;
     [ destruct (is_empty (client_hello_iv client_hello)) eqn:Hiv; simpl;
       [| destruct (is_empty (client_hello_public_key client_hello)) eqn:Hpk; simpl;
          [| destruct (is_empty (KeyPair_sessionKey _ _)) eqn:Hshared; simpl;
             [| destruct (is_empty (GenericHash_result _ _)) eqn:Hhash; simpl ]]]
     | ]);
    repeat (rewrite Hc; simpl);
    eexists _, _; (split; [reflexivity|]);
    rewrite ?is_empty_true, ?is_empty_false in *;
    first
      [ split; [done|]; intros Hno; exfalso; apply Hno; split; [tauto|];
        first [ done | intros _; done ]
      | split; [intros [_ Hm]; destruct (Hm eq_refl) as (? & ? & ? & ?); congruence
               | done] ].
Qed.

(** X9.  When the server hello of an SRP handshake has been written, the
    authenticator turns to the identify message. If a session key was agreed
    it first installs the encryptor and the decryptor of the negotiated
    cipher into the channel; if they cannot be created it fails instead and
    installs nothing. *)
Theorem server_hello_written (a : Fields) :
  channel_ a = true →
  internal_state_ a = SEND_SERVER_HELLO →
  identify_ a = IDENTIFY_SRP →
  ∃ a' calls,
    onMessageWritten a = Some (tt, a', calls) ∧
    (session_key_ a = [] → a' = set_internal_state_ READ_IDENTIFY a ∧ calls = []) ∧
    (session_key_ a ≠ [] →
       match session_ciphers a with
       | Some (e, d) =>
           a' = set_internal_state_ READ_IDENTIFY a ∧
           calls = [channel_setEncryptor e; channel_setDecryptor d]
       | None =>
           state_ a' = FAILED ∧ internal_state_ a' = SEND_SERVER_HELLO ∧
           calls = failure_calls
       end).
Proof.
  intros Hc Hi Hid.
  unfold onMessageWritten, onSessionKeyChanged, session_ciphers, on_channel, onFailed.
  run_method. rewrite Hi. simpl.
  destruct (is_empty (session_key_ a)) eqn:Hkey; simpl.
  { apply is_empty_true in Hkey. rewrite Hid.
    eexists _, _. split; [reflexivity|]. split; done. }
  apply is_empty_false in Hkey.
  destruct (encryption_ a =? ENCRYPTION_AES256_GCM); simpl;
    repeat match goal with
           | |- context [match ?f (session_key_ a) ?iv with _ => _ end] =>
               destruct (f (session_key_ a) iv); simpl
           end;
    repeat (rewrite ?Hc, ?Hid; simpl);
    eexists _, _; (split; [reflexivity|]); split; done.
Qed.

(** X10.  The identify message. An empty user name fails the authenticator.
    For a registered user the SRP numbers are the user's group, salt and
    verifier and the allowed session types are the user's. For any other
    name they are the 8192-bit group with a salt and a verifier made up from
    the seed key and the name, and no session type is allowed. Either way
    the server key exchange with these numbers and a fresh IV is sent,
    unless one of the numbers is invalid, which fails the authenticator. *)
Theorem identify_outcome (a : Fields) (buffer random_b random_iv : ByteArray)
    (identify : SrpIdentify) (user_list : UserList) :
  channel_ a = true →
  parse_SrpIdentify buffer = Some identify →
  user_list_ a = Some user_list →
  let username := identify_username identify in
  let user := UserList_find user_list (utf16FromUtf8 username) in
  ∃ a' calls,
    onIdentify buffer random_b random_iv a = Some (tt, a', calls) ∧
    user_name_ a' = utf16FromUtf8 username ∧
    (utf16FromUtf8 username = [] → state_ a' = FAILED ∧ calls = failure_calls) ∧
    (utf16FromUtf8 username ≠ [] →
       (registered user →
          ∃ Ng_pair, pairByGroup (user_group user) = Some Ng_pair ∧
            N_ a' = BigNum_fromStdString (Ng_pair.1) ∧
            g_ a' = BigNum_fromStdString (Ng_pair.2) ∧
            s_ a' = BigNum_fromByteArray (user_salt user) ∧
            v_ a' = BigNum_fromByteArray (user_verifier user) ∧
            session_types_ a' = user_sessions user) ∧
       (¬ registered user →
          N_ a' = BigNum_fromStdString (kSrpNgPair_8192.1) ∧
          g_ a' = BigNum_fromStdString (kSrpNgPair_8192.2) ∧
          s_ a' = decoy_salt user_list username ∧
          v_ a' = decoy_verifier user_list username ∧
          session_types_ a' = 0) ∧
       b_ a' = BigNum_fromByteArray random_b ∧
       B_ a' = SrpMath_calc_B (b_ a') (N_ a') (g_ a') (v_ a') ∧
       (valid_numbers a' →
          calls = [channel_send (server_key_exchange a')] ∧
          encrypt_iv_ a' = random_iv ∧
          internal_state_ a' = SEND_SERVER_KEY_EXCHANGE ∧
          state_ a' = state_ a) ∧
       (¬ valid_numbers a' → state_ a' = FAILED ∧ calls = failure_calls)).
Proof.
  intros Hc Hparse Hlist username user.
  unfold onIdentify. rewrite Hparse. fold username.
  unfold on_channel, onFailed, registered, valid_numbers, server_key_exchange,
    decoy_salt, decoy_verifier.
  run_method. fold username.
  destruct (is_empty (utf16FromUtf8 username)) eqn:Hname; simpl.
  { apply is_empty_true in Hname. rewrite Hc. simpl.
    eexists _, _. split; [reflexivity|]. repeat split; try done. }
  apply is_empty_false in Hname. rewrite Hlist. simpl. fold user.
  destruct (User_isValid user) eqn:Hvalid; simpl;
    [destruct (has_flag (user_flags user) User_ENABLED) eqn:Henabled; simpl;
     [destruct (pairByGroup (user_group user)) as [Ng_pair|] eqn:Hgroup; simpl|]|];
    match goal with
    | |- context [if ?c then _ else _] => destruct c eqn:Hcond; simpl
    end;
    repeat (rewrite Hc; simpl);
    eexists _, _; (split; [reflexivity|]); simpl;
    (split; [reflexivity|]); (split; [done|]); intros _;
    (split;
     [first [ intros (Hv & He & [x Hx]);
              first [discriminate Hv | discriminate He | discriminate Hx]
            | intros _; eexists; repeat split; reflexivity ]|]);
    (split;
     [first [ intros Hno; exfalso; apply Hno;
              split; [reflexivity|]; split; [reflexivity|]; eexists; reflexivity
            | intros _; repeat split; reflexivity ]|]);
    (split; [reflexivity|]); (split; [reflexivity|]);
    first [ split; [|intros _; split; reflexivity];
            intros (H1 & H2 & H3 & H4); rewrite H1, H2, H3, H4 in Hcond;
            discriminate Hcond
          | apply orb_false_elim in Hcond as [Hcond HB];
            apply orb_false_elim in Hcond as [Hcond Hs];
            apply orb_false_elim in Hcond as [HN Hg];
            apply negb_false_iff in HN, Hg, Hs, HB;
            split; [intros _; repeat split; reflexivity|];
            intros Hno; exfalso; apply Hno; repeat split; assumption ].
Qed.

(** X11.  The client key exchange. The authenticator either fails, sending
    nothing and installing nothing, or goes on: then the exchange was
    acceptable (a valid public value with [A mod N] not zero, an IV, a
    non-empty SRP key, a negotiated cipher), the session key is the hash of
    the earlier session key, if any, and the SRP key, the encryptor and the
    decryptor made from it are installed into the channel, and only then the
    session challenge with the allowed session types is sent. *)
Theorem key_exchange_outcome (a : Fields) (buffer : ByteArray) (m : SrpClientKeyExchange) :
  channel_ a = true →
  parse_SrpClientKeyExchange buffer = Some m →
  let A := BigNum_fromStdString (client_key_exchange_a m) in
  ∃ a' calls,
    onClientKeyExchange buffer a = Some (tt, a', calls) ∧
    session_types_ a' = session_types_ a ∧
    ((state_ a' = FAILED ∧ calls = failure_calls) ∨
     (acceptable_key_exchange a m ∧
      state_ a' = state_ a ∧
      internal_state_ a' = SEND_SESSION_CHALLENGE ∧
      decrypt_iv_ a' = client_key_exchange_iv m ∧
      session_key_ a' = rekeyed a (server_srp_key a A) ∧
      ∃ e d,
        session_ciphers a' = Some (e, d) ∧
        calls = [channel_setEncryptor e; channel_setDecryptor d;
                 channel_send (challenge (session_types_ a))])).
Proof.
  intros Hc Hparse A.
  unfold onClientKeyExchange. rewrite Hparse. fold A.
  unfold createSrpKey, onSessionKeyChanged, doSessionChallenge, on_channel, onFailed,
    acceptable_key_exchange, server_srp_key, rekeyed, session_ciphers, challenge.
  run_method. fold A.
  destruct (BigNum_isValid A) eqn:HA; simpl;
    [|rewrite Hc; eexists _, _; split; [reflexivity|]; split; [done|]; by left].
  destruct (is_empty (client_key_exchange_iv m)) eqn:Hiv; simpl;
    [rewrite Hc; eexists _, _; split; [reflexivity|]; split; [done|]; by left|].
  apply is_empty_false in Hiv.
  destruct (SrpMath_verify_A_mod_N A (N_ a)) eqn:Hverify; simpl;
    [|rewrite Hc; eexists _, _; split; [reflexivity|]; split; [done|]; by left].
  match goal with
  | |- context [is_empty (BigNum_toByteArray ?k)] =>
      destruct (is_empty (BigNum_toByteArray k)) eqn:Hkey; simpl
  end;
    [rewrite Hc; eexists _, _; split; [reflexivity|]; split; [done|]; by left|].
  apply is_empty_false in Hkey.
  destruct (encryption_ a =? ENCRYPTION_AES256_GCM) eqn:Haes; simpl.
  - repeat (rewrite Haes; simpl).
    repeat match goal with
           | |- context [match ?f ?k ?iv with Some _ => _ | None => _ end] =>
               destruct (f k iv) eqn:?; simpl
           end;
      repeat (rewrite Hc; simpl);
      eexists _, _; (split; [reflexivity|]); (split; [done|]);
      first [ by left
            | right; simpl; rewrite Haes; apply Z.eqb_eq in Haes;
              (split; [repeat split; try done; by left|]);
              repeat (split; [reflexivity|]);
              match goal with
              | He : _ = Some ?e, Hd : _ = Some ?d |- ∃ _ _, _ =>
                  exists e, d; rewrite He, Hd; split; reflexivity
              end ].
  - destruct (encryption_ a =? ENCRYPTION_CHACHA20_POLY1305) eqn:Hcha; simpl;
      [|rewrite Hc; eexists _, _; split; [reflexivity|]; split; [done|]; by left].
    repeat (rewrite Haes; simpl).
    repeat match goal with
           | |- context [match ?f ?k ?iv with Some _ => _ | None => _ end] =>
               destruct (f k iv) eqn:?; simpl
           end;
      repeat (rewrite Hc; simpl);
      eexists _, _; (split; [reflexivity|]); (split; [done|]);
      first [ by left
            | right; simpl; rewrite Haes; apply Z.eqb_eq in Hcha;
              (split; [repeat split; try done; by right|]);
              repeat (split; [reflexivity|]);
              match goal with
              | He : _ = Some ?e, Hd : _ = Some ?d |- ∃ _ _, _ =>
                  exists e, d; rewrite He, Hd; split; reflexivity
              end ].
Qed.

(** ** What the handlers leave alone *)

Lemma bind_Some {St Ev A B} (m : Cmd St Ev A) (k : A → Cmd St Ev B) s b s' calls :
  (m ≫= k) s = Some (b, s', calls) →
  ∃ x s1 c1 c2, m s = Some (x, s1, c1) ∧ k x s1 = Some (b, s', c2) ∧ calls = c1 ++ c2.
Proof.
  unfold mbind, Cmd_bind, cmd_bind.
  destruct (m s) as [[[x s1] c1]|] eqn:Em; [|discriminate].
  destruct (k x s1) as [[[b' s2] c2]|] eqn:Ek; [|discriminate].
  intros [= <- <- <-]. by exists x, s1, c1, c2.
Qed.

Lemma keeps_or_fails_refl (a : Fields) : keeps_or_fails a [] a.
Proof. by left. Qed.

Lemma keeps_or_fails_trans (a1 : Fields) (c1 : list Call) (a2 : Fields) (c2 : list Call)
    (a3 : Fields) :
  keeps_or_fails a1 c1 a2 → keeps_or_fails a2 c2 a3 → keeps_or_fails a1 (c1 ++ c2) a3.
Proof. unfold keeps_or_fails. intros [-> | E1] [-> | E2]; auto. Qed.

Ltac outcome_base :=
  intros; unfold keeps_or_fails; simpl; first [ by left | by right ].

Ltac outcome_walk := keeps_walk keeps_or_fails_refl keeps_or_fails_trans outcome_base.

Lemma keeps_outcome_onFailed : keeps keeps_or_fails onFailed.
Proof. unfold onFailed. outcome_walk. Qed.

Lemma keeps_outcome_on_channel c : keeps keeps_or_fails (on_channel c).
Proof. unfold on_channel. outcome_walk. Qed.

Lemma keeps_outcome_onSessionKeyChanged : keeps keeps_or_fails onSessionKeyChanged.
Proof.
  pose proof keeps_outcome_onFailed. pose proof keeps_outcome_on_channel.
  unfold onSessionKeyChanged. outcome_walk.
Qed.

Lemma keeps_outcome_doSessionChallenge : keeps keeps_or_fails doSessionChallenge.
Proof. pose proof keeps_outcome_on_channel. unfold doSessionChallenge. outcome_walk. Qed.

Lemma keeps_outcome_onClientHello buffer : keeps keeps_or_fails (onClientHello buffer).
Proof.
  pose proof keeps_outcome_onFailed. pose proof keeps_outcome_on_channel.
  unfold onClientHello. outcome_walk.
Qed.

Lemma keeps_outcome_onIdentify buffer random_b random_iv :
  keeps keeps_or_fails (onIdentify buffer random_b random_iv).
Proof.
  pose proof keeps_outcome_onFailed. pose proof keeps_outcome_on_channel.
  unfold onIdentify. outcome_walk.
Qed.

Lemma keeps_outcome_onClientKeyExchange buffer :
  keeps keeps_or_fails (onClientKeyExchange buffer).
Proof.
  pose proof keeps_outcome_onFailed. pose proof keeps_outcome_onSessionKeyChanged.
  pose proof keeps_outcome_doSessionChallenge.
  unfold onClientKeyExchange, createSrpKey. outcome_walk.
Qed.

Lemma keeps_outcome_onMessageWritten : keeps keeps_or_fails onMessageWritten.
Proof.
  pose proof keeps_outcome_onSessionKeyChanged. pose proof keeps_outcome_doSessionChallenge.
  unfold onMessageWritten. outcome_walk.
Qed.

Lemma keeps_session_types_refl (a : Fields) : keeps_session_types a [] a.
Proof. reflexivity. Qed.

Lemma keeps_session_types_trans (a1 : Fields) (c1 : list Call) (a2 : Fields)
    (c2 : list Call) (a3 : Fields) :
  keeps_session_types a1 c1 a2 → keeps_session_types a2 c2 a3 →
  keeps_session_types a1 (c1 ++ c2) a3.
Proof. unfold keeps_session_types. congruence. Qed.

Ltac types_base := intros; reflexivity.

Ltac types_walk :=
  keeps_walk keeps_session_types_refl keeps_session_types_trans types_base.

Lemma keeps_types_onFailed : keeps keeps_session_types onFailed.
Proof. unfold onFailed. types_walk. Qed.

Lemma keeps_types_on_channel c : keeps keeps_session_types (on_channel c).
Proof. unfold on_channel. types_walk. Qed.

Lemma keeps_types_onSessionKeyChanged : keeps keeps_session_types onSessionKeyChanged.
Proof.
  pose proof keeps_types_onFailed. pose proof keeps_types_on_channel.
  unfold onSessionKeyChanged. types_walk.
Qed.

Lemma keeps_types_doSessionChallenge : keeps keeps_session_types doSessionChallenge.
Proof. pose proof keeps_types_on_channel. unfold doSessionChallenge. types_walk. Qed.

Lemma keeps_types_onClientKeyExchange buffer :
  keeps keeps_session_types (onClientKeyExchange buffer).
Proof.
  pose proof keeps_types_onFailed. pose proof keeps_types_onSessionKeyChanged.
  pose proof keeps_types_doSessionChallenge.
  unfold onClientKeyExchange, createSrpKey. types_walk.
Qed.

Lemma keeps_types_onMessageWritten : keeps keeps_session_types onMessageWritten.
Proof.
  pose proof keeps_types_onSessionKeyChanged. pose proof keeps_types_doSessionChallenge.
  unfold onMessageWritten. types_walk.
Qed.

Lemma stays_refl (a : Fields) : stays a [] a.
Proof. by split. Qed.

Lemma stays_trans (a1 : Fields) (c1 : list Call) (a2 : Fields) (c2 : list Call)
    (a3 : Fields) :
  stays a1 c1 a2 → stays a2 c2 a3 → stays a1 (c1 ++ c2) a3.
Proof. unfold stays. intros [? ?] [? ?]. split; congruence. Qed.

Ltac stays_base := intros; split; reflexivity.

Ltac stays_walk := keeps_walk stays_refl stays_trans stays_base.

Lemma stays_onFailed : keeps stays onFailed.
Proof. unfold onFailed. stays_walk. Qed.

Lemma stays_on_channel c : keeps stays (on_channel c).
Proof. unfold on_channel. stays_walk. Qed.

Lemma stays_onSessionKeyChanged : keeps stays onSessionKeyChanged.
Proof.
  pose proof stays_onFailed. pose proof stays_on_channel.
  unfold onSessionKeyChanged. stays_walk.
Qed.

Lemma stays_doSessionChallenge : keeps stays doSessionChallenge.
Proof. pose proof stays_on_channel. unfold doSessionChallenge. stays_walk. Qed.

Lemma stays_or_challenges_refl (a : Fields) : stays_or_challenges a [] a.
Proof. by left. Qed.

Lemma stays_or_challenges_trans (a1 : Fields) (c1 : list Call) (a2 : Fields)
    (c2 : list Call) (a3 : Fields) :
  stays_or_challenges a1 c1 a2 → stays_or_challenges a2 c2 a3 →
  stays_or_challenges a1 (c1 ++ c2) a3.
Proof. unfold stays_or_challenges. intros [-> | E1] [-> | E2]; auto. Qed.

Ltac challenge_base :=
  intros; unfold stays_or_challenges; simpl; first [ by left | by right ].

Lemma challenges_onClientKeyExchange buffer :
  keeps stays_or_challenges (onClientKeyExchange buffer).
Proof.
  unfold onClientKeyExchange, createSrpKey, onSessionKeyChanged, doSessionChallenge,
    on_channel, onFailed.
  keeps_walk stays_or_challenges_refl stays_or_challenges_trans challenge_base.
Qed.

(** ** Without a channel *)

Lemma dead_refl (a : Fields) : dead a [] a.
Proof. by intros Hc. Qed.

Lemma dead_trans (a1 : Fields) (c1 : list Call) (a2 : Fields) (c2 : list Call)
    (a3 : Fields) :
  dead a1 c1 a2 → dead a2 c2 a3 → dead a1 (c1 ++ c2) a3.
Proof.
  intros H1 H2 Hc. destruct (H1 Hc) as (Hc2 & E1 & ->).
  destruct (H2 Hc2) as (Hc3 & E2 & ->). repeat split; [done | congruence].
Qed.

Ltac dead_base := intros; intros ?; repeat split; simpl; done.

Ltac dead_walk := keeps_walk dead_refl dead_trans dead_base.

Lemma dead_onFailed : keeps dead onFailed.
Proof.
  intros a [] a' calls. unfold onFailed. run_method. intros Hrun Hc. revert Hrun.
  rewrite Hc. simpl. by intros [= <- <-].
Qed.

Lemma dead_on_channel c : keeps dead (on_channel c).
Proof.
  intros a [] a' calls. unfold on_channel. run_method. intros Hrun Hc. revert Hrun.
  by rewrite Hc.
Qed.

Lemma dead_onSessionKeyChanged : keeps dead onSessionKeyChanged.
Proof.
  pose proof dead_onFailed. pose proof dead_on_channel.
  unfold onSessionKeyChanged. dead_walk.
Qed.

Lemma dead_doSessionChallenge : keeps dead doSessionChallenge.
Proof. pose proof dead_on_channel. unfold doSessionChallenge. dead_walk. Qed.

Lemma dead_onSessionResponse buffer : keeps dead (onSessionResponse buffer).
Proof.
  intros a [] a' calls Hrun Hc. revert Hrun.
  unfold onSessionResponse, on_channel. run_method. rewrite Hc. discriminate.
Qed.

Lemma dead_handle (e : Event) : keeps dead (handle e).
Proof.
  pose proof dead_onFailed. pose proof dead_on_channel.
  pose proof dead_onSessionKeyChanged. pose proof dead_doSessionChallenge.
  pose proof dead_onSessionResponse.
  destruct e; simpl;
    unfold onMessageReceived, onMessageWritten, onDisconnected, onClientHello, onIdentify,
      onClientKeyExchange, createSrpKey;
    dead_walk.
Qed.

(** ** The handshake as a whole *)

Lemma run_invariant (P : Fields → Prop) :
  (∀ e a a' calls, P a → handle e a = Some (tt, a', calls) → P a') →
  ∀ events a a' calls, P a → run events a = Some (tt, a', calls) → P a'.
Proof.
  intros Hhandle events.
  induction events as [|e rest IH]; intros a a' calls HP Hrun; simpl in Hrun.
  - by injection Hrun as <- <-.
  - apply bind_Some in Hrun as ([] & a1 & c1 & c2 & H1 & H2 & ->). eauto.
Qed.

Lemma run_keeps (R : Fields → list Call → Fields → Prop) :
  (∀ a, R a [] a) →
  (∀ a1 c1 a2 c2 a3, R a1 c1 a2 → R a2 c2 a3 → R a1 (c1 ++ c2) a3) →
  (∀ e, keeps R (handle e)) →
  ∀ events, keeps R (run events).
Proof.
  intros Hrefl Htrans Hhandle events.
  induction events as [|e rest IH]; simpl.
  - by apply keeps_skip.
  - apply keeps_bind; [done | apply Hhandle | intros _; apply IH].
Qed.

Lemma BitSet_count_value (v : Z) : BitSet_count (BitSet_value v) = BitSet_count v.
Proof. unfold BitSet_count, BitSet_value. by rewrite Zmod_mod. Qed.

Lemma onFailed_result (a a' : Fields) (calls : list Call) :
  onFailed a = Some (tt, a', calls) →
  (a' = a ∧ calls = []) ∨ (state_ a' = FAILED ∧ delegate_onComplete ∈ calls).
Proof.
  unfold onFailed. run_method.
  destruct (channel_ a); simpl; intros [= <- <-]; [right | left]; [|done].
  split; [reflexivity|]. rewrite !elem_of_cons. tauto.
Qed.

(** [onSessionResponse] decides the outcome and tells the delegate. *)
Lemma onSessionResponse_result (a a' : Fields) (buffer : ByteArray) (calls : list Call) :
  onSessionResponse buffer a = Some (tt, a', calls) →
  session_types_ a' = session_types_ a ∧ internal_state_ a' = internal_state_ a ∧
  delegate_onComplete ∈ calls ∧
  (state_ a' = FAILED ∨
   (state_ a' = SUCCESS ∧ BitSet_count (session_type_ a') = 1 ∧
    Z.land (session_types_ a') (session_type_ a') ≠ 0)).
Proof.
  unfold onSessionResponse, on_channel, onFailed. run_method.
  destruct (channel_ a) eqn:Hc; simpl; [|discriminate].
  repeat (rewrite Hc; simpl).
  destruct (parse_SessionResponse buffer) as [r|]; run_method.
  - destruct (BitSet_count _ =? 1) eqn:Hcount; simpl.
    + apply Z.eqb_eq in Hcount. unfold has_flag. simpl.
      match goal with
      | |- context [Z.land ?x ?y =? 0] => destruct (Z.land x y =? 0) eqn:Hand
      end; simpl.
      * repeat (rewrite Hc; simpl). intros [= <- <-]. simpl.
        repeat split; try done; [rewrite !elem_of_cons; tauto | by left].
      * apply Z.eqb_neq in Hand. intros [= <- <-]. simpl.
        repeat split; try done; [rewrite !elem_of_cons; tauto|].
        right. by rewrite BitSet_count_value.
    + repeat (rewrite Hc; simpl). intros [= <- <-]. simpl.
      repeat split; try done; [rewrite !elem_of_cons; tauto | by left].
  - repeat (rewrite Hc; simpl). intros [= <- <-]. simpl.
    repeat split; try done; [rewrite !elem_of_cons; tauto | by left].
Qed.

Lemma sound_handle (e : Event) (a a' : Fields) (calls : list Call) :
  success_is_sound a → handle e a = Some (tt, a', calls) → success_is_sound a'.
Proof.
  intros Hsound Hrun Hs'.
  assert (∀ c, keeps_or_fails a c a' → state_ a = SUCCESS) as Hkept.
  { intros c [E | E]; congruence. }
  destruct e; simpl in Hrun.
  - unfold onMessageReceived in Hrun. rewrite get_bind_run in Hrun. cbv beta in Hrun.
    destruct (internal_state_ a) eqn:Hi.
    + apply keeps_outcome_onClientHello, Hkept, Hsound in Hrun as [? _]. congruence.
    + injection Hrun as <- <-. auto.
    + apply keeps_outcome_onIdentify, Hkept, Hsound in Hrun as [? _]. congruence.
    + injection Hrun as <- <-. auto.
    + apply keeps_outcome_onClientKeyExchange, Hkept, Hsound in Hrun as [? _]. congruence.
    + injection Hrun as <- <-. auto.
    + apply onSessionResponse_result in Hrun as (_ & Hi' & _ & [E | (_ & ? & ?)]);
        [congruence|]. split; [congruence | done].
  - pose proof (Hsound (Hkept _ (keeps_outcome_onMessageWritten _ _ _ _ Hrun)))
      as (Hi & _).
    unfold onMessageWritten in Hrun. rewrite get_bind_run in Hrun. cbv beta in Hrun.
    rewrite Hi in Hrun. injection Hrun as <- <-. auto.
  - apply onFailed_result in Hrun as [[-> _] | [E _]]; [auto | congruence].
  - apply onFailed_result in Hrun as [[-> _] | [E _]]; [auto | congruence].
Qed.

(** X12.  An authenticator succeeds only on a session response: when a run
    from an authenticator that has not succeeded ends in [SUCCESS], the
    authenticator is in [READ_SESSION_RESPONSE] and the session type it took
    is exactly one bit, one of the allowed session types. *)
Theorem success_names_an_allowed_session_type (events : list Event) (a a' : Fields)
    (calls : list Call) :
  state_ a ≠ SUCCESS →
  run events a = Some (tt, a', calls) →
  state_ a' = SUCCESS →
  internal_state_ a' = READ_SESSION_RESPONSE ∧
  BitSet_count (session_type_ a') = 1 ∧
  Z.land (session_types_ a') (session_type_ a') ≠ 0.
Proof.
  intros Hs Hrun.
  apply (run_invariant success_is_sound sound_handle events a a' calls); [|done].
  by intros ?.
Qed.

Lemma stuck_handle (e : Event) (a a' : Fields) (calls : list Call) :
  stuck a → handle e a = Some (tt, a', calls) → stuck a'.
Proof.
  intros (Hs & Hi & Hid) Hrun.
  assert (keeps_or_fails a calls a' ∧ stays a calls a') as [Ho [Hi' Hid']].
  { destruct e; simpl in Hrun.
    - unfold onMessageReceived in Hrun. rewrite get_bind_run in Hrun. cbv beta in Hrun.
      rewrite Hi in Hrun. injection Hrun as <- <-. split; [by left | by split].
    - split; [by eapply keeps_outcome_onMessageWritten|].
      unfold onMessageWritten in Hrun. rewrite get_bind_run in Hrun. cbv beta in Hrun.
      rewrite Hi, Hid in Hrun. revert Hrun.
      match goal with
      | |- ?m a = _ → _ => assert (keeps stays m) as Hk
      end; [|by apply Hk].
      pose proof stays_onSessionKeyChanged. pose proof stays_doSessionChallenge.
      stays_walk.
    - split; [by eapply keeps_outcome_onFailed | by eapply stays_onFailed].
    - split; [by eapply keeps_outcome_onFailed | by eapply stays_onFailed]. }
  split; [|split; congruence].
  destruct Ho as [E | E]; congruence.
Qed.

(** X13.  A client that identified anonymously never gets through. When its
    server hello has been written [onMessageWritten] sends the session
    challenge but stays in [SEND_SERVER_HELLO], where every message received
    is dropped: whatever follows, the authenticator stays in
    [SEND_SERVER_HELLO] and does not succeed. *)
Theorem anonymous_client_never_succeeds (events : list Event) (a a' : Fields)
    (calls : list Call) :
  state_ a ≠ SUCCESS →
  internal_state_ a = SEND_SERVER_HELLO →
  identify_ a = IDENTIFY_ANONYMOUS →
  run events a = Some (tt, a', calls) →
  state_ a' ≠ SUCCESS ∧ internal_state_ a' = SEND_SERVER_HELLO.
Proof.
  intros Hs Hi Hid Hrun.
  destruct (run_invariant stuck stuck_handle events a a' calls) as (? & ? & _); done.
Qed.

Lemma dead_onIdentify buffer random_b random_iv :
  keeps dead (onIdentify buffer random_b random_iv).
Proof.
  pose proof dead_onFailed. pose proof dead_on_channel.
  unfold onIdentify. dead_walk.
Qed.

(** The identify message of a name that is not registered either fails the
    authenticator or leaves it with no session type allowed. *)
Lemma onIdentify_unregistered (a a' : Fields) (buffer random_b random_iv : ByteArray)
    (identify : SrpIdentify) (user_list : UserList) (calls : list Call) :
  parse_SrpIdentify buffer = Some identify →
  user_list_ a = Some user_list →
  ¬ registered (UserList_find user_list (utf16FromUtf8 (identify_username identify))) →
  onIdentify buffer random_b random_iv a = Some (tt, a', calls) →
  channel_ a' = false ∨
  (internal_state_ a' = SEND_SERVER_KEY_EXCHANGE ∧ session_types_ a' = 0).
Proof.
  intros Hparse Hlist Hno.
  destruct (channel_ a) eqn:Hc;
    [|intros Hrun; left; by destruct (dead_onIdentify _ _ _ _ _ _ _ Hrun Hc)].
  revert Hno. set (username := identify_username identify).
  set (user := UserList_find user_list (utf16FromUtf8 username)).
  unfold onIdentify. rewrite Hparse. fold username.
  unfold on_channel, onFailed, registered. run_method. fold username.
  destruct (is_empty (utf16FromUtf8 username)) eqn:Hname; simpl.
  { rewrite Hc. simpl. intros _ [= <- <-]. by left. }
  rewrite Hlist. simpl. fold user.
  destruct (User_isValid user) eqn:Hvalid; simpl;
    [destruct (has_flag (user_flags user) User_ENABLED) eqn:Henabled; simpl;
     [destruct (pairByGroup (user_group user)) as [Ng_pair|] eqn:Hgroup; simpl|]|];
    match goal with
    | |- context [if ?c then _ else _] => destruct c eqn:Hcond; simpl
    end;
    repeat (rewrite Hc; simpl);
    intros Hno [= <- <-]; simpl;
    first [ exfalso; apply Hno; split; [reflexivity|]; split; [reflexivity|];
            eexists; reflexivity
          | by left
          | by right ].
Qed.

Lemma barred_handle (e : Event) (a a' : Fields) (calls : list Call) :
  barred a → handle e a = Some (tt, a', calls) → barred a'.
Proof.
  intros [Hs [Hc | [Hid Ht]]] Hrun.
  { destruct (dead_handle e _ _ _ _ Hrun Hc) as (? & ? & _).
    split; [congruence | by left]. }
  assert (∀ c, keeps_or_fails a c a' → state_ a' ≠ SUCCESS) as Hkept.
  { intros c [E | E]; congruence. }
  destruct e; simpl in Hrun.
  - unfold onMessageReceived in Hrun. rewrite get_bind_run in Hrun. cbv beta in Hrun.
    destruct Hid as [Hi | [Hi | [Hi | Hi]]]; rewrite Hi in Hrun.
    + injection Hrun as <- <-. split; [done|]. right. split; [by left | done].
    + split; [by eapply Hkept, keeps_outcome_onClientKeyExchange|]. right.
      pose proof (keeps_types_onClientKeyExchange _ _ _ _ _ Hrun) as Et.
      split; [|unfold keeps_session_types in Et; congruence].
      destruct (challenges_onClientKeyExchange _ _ _ _ _ Hrun) as [E | E].
      * right. left. congruence.
      * right. right. by left.
    + injection Hrun as <- <-. split; [done|]. right. split; [|done].
      right. right. by left.
    + apply onSessionResponse_result in Hrun as (Et & Ei & _ & [E | (_ & _ & Hand)]).
      * split; [congruence|]. right. split; [|congruence].
        right. right. right. congruence.
      * rewrite Et, Ht in Hand. done.
  - split; [by eapply Hkept, keeps_outcome_onMessageWritten|]. right.
    pose proof (keeps_types_onMessageWritten _ _ _ _ Hrun) as Et.
    split; [|unfold keeps_session_types in Et; congruence].
    unfold onMessageWritten in Hrun. rewrite get_bind_run in Hrun. cbv beta in Hrun.
    destruct Hid as [Hi | [Hi | [Hi | Hi]]]; rewrite Hi in Hrun;
      injection Hrun as <- <-; unfold identified; simpl; tauto.
  - split; [by eapply Hkept, keeps_outcome_onFailed|]. right.
    pose proof (keeps_types_onFailed _ _ _ _ Hrun) as Et.
    destruct (stays_onFailed _ _ _ _ Hrun) as [Ei _].
    split; [|unfold keeps_session_types in Et; congruence].
    unfold identified in *. by rewrite Ei.
  - split; [by eapply Hkept, keeps_outcome_onFailed|]. right.
    pose proof (keeps_types_onFailed _ _ _ _ Hrun) as Et.
    destruct (stays_onFailed _ _ _ _ Hrun) as [Ei _].
    split; [|unfold keeps_session_types in Et; congruence].
    unfold identified in *. by rewrite Ei.
Qed.

(** X14.  A name that is not registered (unknown, invalid or disabled, or of
    an unknown group) gets a server key exchange like any other, but no
    session: once its identify message is handled the authenticator never
    succeeds, whatever the client sends afterwards. *)
Theorem unregistered_user_never_succeeds (events : list Event) (a a' : Fields)
    (buffer random_b random_iv : ByteArray) (identify : SrpIdentify)
    (user_list : UserList) (calls : list Call) :
  state_ a ≠ SUCCESS →
  internal_state_ a = READ_IDENTIFY →
  parse_SrpIdentify buffer = Some identify →
  user_list_ a = Some user_list →
  ¬ registered (UserList_find user_list (utf16FromUtf8 (identify_username identify))) →
  run (ev_message buffer random_b random_iv :: events) a = Some (tt, a', calls) →
  state_ a' ≠ SUCCESS.
Proof.
  intros Hs Hi Hparse Hlist Hno Hrun. simpl in Hrun.
  apply bind_Some in Hrun as ([] & a1 & c1 & c2 & H1 & H2 & ->).
  unfold onMessageReceived in H1. rewrite get_bind_run in H1. cbv beta in H1.
  rewrite Hi in H1.
  assert (barred a1) as Hbarred.
  { split.
    - destruct (keeps_outcome_onIdentify _ _ _ _ _ _ _ H1); congruence.
    - destruct (onIdentify_unregistered _ _ _ _ _ _ _ _ Hparse Hlist Hno H1)
        as [? | [Ei ?]]; [by left|].
      right. split; [by left | done]. }
  by destruct (run_invariant barred barred_handle events a1 a' c2 Hbarred H2).
Qed.

(** ** Telling the delegate *)

Lemma reports_refl (a : Fields) : reports a [] a.
Proof. split; [intros ?; split; [done | apply not_elem_of_nil] | done]. Qed.

Lemma reports_trans (a1 : Fields) (c1 : list Call) (a2 : Fields) (c2 : list Call)
    (a3 : Fields) :
  reports a1 c1 a2 → reports a2 c2 a3 → reports a1 (c1 ++ c2) a3.
Proof.
  intros [H1 H1'] [H2 H2']. split.
  - intros E3. destruct (H2 E3) as [E2 ?]. destruct (H1 E2) as [E1 ?].
    split; [done|]. rewrite elem_of_app. tauto.
  - intros E1 E3. rewrite elem_of_app.
    destruct (decide (state_ a2 = PENDING)) as [E2 | E2]; [right | left]; auto.
Qed.

Ltac reports_base :=
  intros; split; simpl;
  [ intros ?; split; [assumption|];
    first [ apply not_elem_of_nil
          | intros [? | ?%elem_of_nil]%elem_of_cons; [discriminate | done] ]
  | intros ? ?; contradiction ].

Ltac reports_walk := keeps_walk reports_refl reports_trans reports_base.

Lemma reports_onFailed : keeps reports onFailed.
Proof.
  intros a [] a' calls Hrun.
  apply onFailed_result in Hrun as [[-> ->] | [E ?]]; [apply reports_refl|].
  split; [congruence | done].
Qed.

Lemma reports_onSessionResponse buffer : keeps reports (onSessionResponse buffer).
Proof.
  intros a [] a' calls Hrun.
  apply onSessionResponse_result in Hrun as (_ & _ & ? & [E | [E _]]);
    (split; [congruence | done]).
Qed.

Lemma reports_handle (e : Event) : keeps reports (handle e).
Proof.
  pose proof reports_onFailed. pose proof reports_onSessionResponse.
  destruct e; simpl;
    unfold onMessageReceived, onMessageWritten, onDisconnected, onClientHello, onIdentify,
      onClientKeyExchange, createSrpKey, onSessionKeyChanged, doSessionChallenge,
      on_channel;
    reports_walk.
Qed.

(** X15.  The delegate is told exactly when the outcome is decided: in a run
    from a pending authenticator [onComplete] has been called if and only if
    the authenticator is not pending any more. *)
Theorem delegate_told_when_decided (events : list Event) (a a' : Fields)
    (calls : list Call) :
  state_ a = PENDING →
  run events a = Some (tt, a', calls) →
  delegate_onComplete ∈ calls ↔ state_ a' ≠ PENDING.
Proof.
  intros Hs Hrun.
  destruct (run_keeps reports reports_refl reports_trans reports_handle events
              _ _ _ _ Hrun) as [H1 H2].
  split; [|by auto]. intros Hin E. by destruct (H1 E).
Qed.

(** X16.  Without a channel, after a failure or after [takeChannel], a run
    that completes changes neither the outcome nor the missing channel and
    calls nobody: neither the timer nor the delegate hears of it again. *)
Theorem nothing_happens_without_channel (events : list Event) (a a' : Fields)
    (calls : list Call) :
  channel_ a = false →
  run events a = Some (tt, a', calls) →
  channel_ a' = false ∧ state_ a' = state_ a ∧ calls = [].
Proof.
  intros Hc Hrun.
  exact (run_keeps dead dead_refl dead_trans dead_handle events _ _ _ _ Hrun Hc).
Qed.

End AuthenticatorBehaviour.

(** * The coordinator's behaviour *)

Section CoordinatorBehaviour.
Import FileTransfer.
Context `{Platform}.

(** ** The queue *)

Lemma dequeues_refl (a : Fields) : dequeues a [] a.
Proof. unfold dequeues. reflexivity. Qed.

Lemma dequeues_trans (a1 : Fields) (c1 : list Call) (a2 : Fields) (c2 : list Call)
    (a3 : Fields) :
  dequeues a1 c1 a2 → dequeues a2 c2 a3 → dequeues a1 (c1 ++ c2) a3.
Proof. unfold dequeues. intros H1 H2. by etrans. Qed.

Ltac dequeues_base := intros; unfold dequeues; simpl; reflexivity.

Ltac dequeues_walk := keeps_walk dequeues_refl dequeues_trans dequeues_base.

Lemma pop_all_nil (tasks : list FileTransferTask) : pop_all tasks = [].
Proof. by induction tasks. Qed.

Lemma dequeues_onFinished : keeps dequeues onFinished.
Proof. unfold onFinished. dequeues_walk. Qed.

Lemma dequeues_doFrontTask overwrite : keeps dequeues (doFrontTask overwrite).
Proof.
  intros a [] a' calls. unfold doFrontTask, frontTask, factory, dequeues. run_method.
  destruct (tasks_ a) as [|front rest] eqn:Htasks; simpl; [discriminate|].
  destruct (isDirectory front); simpl;
    [destruct (request_factory_target_ a) | destruct (request_factory_source_ a)];
    simpl; try discriminate; intros [= <- <-]; simpl; by rewrite Htasks.
Qed.

Lemma dequeues_doNextTask : keeps dequeues doNextTask.
Proof.
  intros a [] a' calls. unfold doNextTask. rewrite get_bind_run.
  intros Hrun. apply bind_Some in Hrun as ([] & a1 & c1 & c2 & H1 & H2 & ->).
  rewrite get_bind_run in H2.
  apply bind_Some in H2 as ([] & a2 & c3 & c4 & H2 & H3 & ->).
  rewrite get_bind_run in H3.
  assert (dequeues a [] a1 ∧ c1 = []) as [D1 ->].
  { destruct (is_canceled_ a); injection H1 as <- <-; (split; [|done]);
      unfold dequeues; simpl; [|done].
    rewrite pop_all_nil. apply suffix_nil. }
  assert (dequeues a1 [] a2 ∧ c3 = []) as [D2 ->].
  { destruct (tasks_ a1) as [|front rest] eqn:Htasks; simpl in H2;
      injection H2 as <- <-; (split; [|done]); unfold dequeues; simpl; [done|].
    rewrite Htasks. simpl. apply suffix_cons_r. reflexivity. }
  assert (dequeues a2 c4 a') as D3.
  { revert H3.
    match goal with
    | |- ?m a2 = _ → _ => assert (keeps dequeues m) as K
    end; [|apply K].
    pose proof dequeues_onFinished. pose proof dequeues_doFrontTask. dequeues_walk. }
  exact (dequeues_trans _ _ _ _ _ (dequeues_trans _ _ _ _ _ D1 D2) D3).
Qed.

Lemma dequeues_setAction t action : keeps dequeues (setAction t action).
Proof.
  pose proof dequeues_onFinished. pose proof dequeues_doFrontTask.
  pose proof dequeues_doNextTask.
  unfold setAction, setActionForErrorType. destruct action; dequeues_walk.
Qed.

Lemma dequeues_onError t code path : keeps dequeues (onError t code path).
Proof. pose proof dequeues_setAction. unfold onError. dequeues_walk. Qed.

Lemma dequeues_handle (e : Event) : ¬ is_queue_built e → keeps dequeues (handle e).
Proof.
  intros He.
  pose proof dequeues_onFinished. pose proof dequeues_doNextTask.
  pose proof dequeues_setAction. pose proof dequeues_onError.
  destruct e; simpl in *; try tauto;
    unfold start, stop, onReply, targetReply, sourceReply, frontTask, factory, int64;
    dequeues_walk.
Qed.

(** X18.  The queue is worked off in order. Unless the queue builder
    delivers a new queue, whatever happens to the coordinator leaves a tail
    of the queue it had: tasks are only ever taken from the front, none is
    added, none is reordered, and retrying a task changes nothing but its
    overwrite flag. *)
Theorem queue_is_worked_off_in_order (events : list Event) (a a' : Fields)
    (calls : list Call) :
  Forall (λ e, ¬ is_queue_built e) events →
  run events a = Some (tt, a', calls) →
  (job <$> tasks_ a') `suffix_of` (job <$> tasks_ a).
Proof.
  intros Hevents. revert a a' calls.
  assert (keeps dequeues (run events)) as Hkeeps; [|exact (λ a, Hkeeps a tt)].
  induction Hevents as [|e events He _ IH]; simpl.
  - apply keeps_skip, dequeues_refl.
  - apply (keeps_bind _ dequeues_trans); [by apply dequeues_handle | done].
Qed.

(** ** Cancelling *)

(** X19.  Once the transfer is cancelled the current task is the last one.
    When the coordinator turns to the next task it drops the whole queue
    instead, sends no request, stops the cancel timer if it is running, and
    finishes: the window is stopped and the finish callback is called, if
    there still is one. *)
Theorem cancelled_transfer_ends_at_next_task (a : Fields) :
  is_canceled_ a = true →
  ∃ a',
    doNextTask a =
      Some (tt, a',
            (if cancel_timer_ a then [cancel_timer_stop] else []) ++
            finish_calls (finish_callback_ a)) ∧
    tasks_ a' = [] ∧ finish_callback_ a' = None ∧ cancel_timer_ a' = false ∧
    is_canceled_ a' = true.
Proof.
  intros Hcanceled. unfold doNextTask, onFinished, finish_calls. run_method.
  rewrite Hcanceled. simpl. rewrite pop_all_nil. simpl.
  destruct (cancel_timer_ a) eqn:Htimer; simpl;
    destruct (finish_callback_ a); simpl;
    eexists; (split; [reflexivity|]); simpl; by rewrite ?Htimer.
Qed.

Lemma stays_canceled_refl (a : Fields) : stays_canceled a [] a.
Proof. by intros ?. Qed.

Lemma stays_canceled_trans (a1 : Fields) (c1 : list Call) (a2 : Fields) (c2 : list Call)
    (a3 : Fields) :
  stays_canceled a1 c1 a2 → stays_canceled a2 c2 a3 → stays_canceled a1 (c1 ++ c2) a3.
Proof. unfold stays_canceled. auto. Qed.

Ltac canceled_base := intros; unfold stays_canceled; simpl; auto.

Lemma stays_canceled_handle (e : Event) : keeps stays_canceled (handle e).
Proof.
  destruct e; simpl;
    unfold start, stop, setAction, setActionForErrorType, onReply, targetReply, sourceReply,
      onQueueBuilderFinished, onError, setAction, setActionForErrorType, doNextTask,
      doFrontTask, onFinished, frontTask, factory, int64;
    keeps_walk stays_canceled_refl stays_canceled_trans canceled_base.
Qed.

(** X20.  A cancellation is never taken back. When [stop] is called while no
    queue is being built the coordinator is cancelled, and it stays
    cancelled through everything that follows, another [start] included. *)
Theorem cancellation_is_permanent (events : list Event) (a a' : Fields)
    (calls : list Call) :
  queue_builder_ a = false →
  run (ev_stop :: events) a = Some (tt, a', calls) →
  is_canceled_ a' = true.
Proof.
  intros Hbuilder Hrun. simpl in Hrun.
  apply bind_Some in Hrun as ([] & a1 & c1 & c2 & H1 & H2 & ->).
  assert (is_canceled_ a1 = true) as Hcanceled.
  { revert H1. unfold stop. run_method. rewrite Hbuilder. simpl. by intros [= <- <-]. }
  revert Hcanceled. revert H2. generalize a1 a' c2. clear.
  induction events as [|e events IH]; intros a a' calls Hrun Hcanceled; simpl in Hrun.
  - by injection Hrun as <- <-.
  - apply bind_Some in Hrun as ([] & a1 & c1 & c2 & H1 & H2 & ->).
    eapply IH; [done|]. by eapply stays_canceled_handle.
Qed.

(** ** Starting *)

(** X21.  [start] binds the factories by role and always gets the queue
    builder going. The source is the remote end for a downloader and the
    local end for an uploader, the target the other one; the window is
    started and the builder is started on the source. From then on a reply
    from the source end is handled by [sourceReply] and a reply from the
    target end by [targetReply]. *)
Theorem start_binds_the_ends_by_role (a : Fields) (source_path target_path : string)
    (items : list Item) (finish_callback : option FinishCallback) :
  ∃ a',
    start source_path target_path items finish_callback a =
      Some (tt, a',
            [window_start;
             queue_builder_start (source_of (type_ a)) source_path target_path items]) ∧
    request_factory_source_ a' = Some (source_of (type_ a)) ∧
    request_factory_target_ a' = Some (target_of (type_ a)) ∧
    queue_builder_ a' = true ∧
    finish_callback_ a' = finish_callback ∧
    tasks_ a' = tasks_ a ∧ actions_ a' = actions_ a ∧ is_canceled_ a' = is_canceled_ a ∧
    ∀ request reply,
      onReply (source_of (type_ a)) request reply a' = sourceReply request reply a' ∧
      onReply (target_of (type_ a)) request reply a' = targetReply request reply a'.
Proof.
  unfold start, factory. run_method.
  destruct (type_ a) eqn:Htype; simpl;
    eexists; (split; [reflexivity|]); simpl; repeat split; try done;
    unfold onReply; rewrite get_bind_run; simpl; by rewrite Htype.
Qed.

(** ** Failed replies *)

(** X22.  A failed reply of the target, while no answer is recorded for its
    kind of error, is shown to the window and nothing else happens: no
    request is sent, the queue and the counters stay as they are. The error
    carries the reply's code and the target path of the front task; its kind
    tells what failed: creating the directory, creating the file (or the
    file exists already), or writing a packet. A directory that exists
    already is no failure. *)
Theorem target_failure_is_shown (a : Fields) (request : FileRequest) (reply : FileReply)
    (front : FileTransferTask) (rest : list FileTransferTask) :
  tasks_ a = front :: rest →
  is_Some (create_directory_request request) ∨ is_Some (upload_request request) ∨
    is_Some (packet request) →
  error_code reply ≠ FILE_ERROR_SUCCESS →
  (is_Some (create_directory_request request) →
     error_code reply ≠ FILE_ERROR_PATH_ALREADY_EXISTS) →
  actions_ a !! target_failure request (error_code reply) = None →
  targetReply request reply a =
    Some (tt, a,
          [window_errorOccurred
             {| Error_type := target_failure request (error_code reply);
                Error_code := error_code reply;
                Error_path := targetPath front |}]).
Proof.
  intros Htasks Hkind Hcode Hdir. unfold target_failure, targetReply, frontTask, onError.
  run_method. rewrite Htasks. simpl.
  destruct (bool_decide (is_Some (create_directory_request request))) eqn:Hcreate; simpl.
  { apply bool_decide_eq_true in Hcreate.
    rewrite (bool_decide_eq_false_2 _ Hcode), (bool_decide_eq_false_2 _ (Hdir Hcreate)).
    simpl. rewrite Htasks. simpl. by intros ->. }
  apply bool_decide_eq_false in Hcreate.
  destruct (bool_decide (is_Some (upload_request request))) eqn:Hupload; simpl.
  { rewrite (bool_decide_eq_true_2 _ Hcode). simpl. rewrite Htasks. simpl.
    by intros ->. }
  apply bool_decide_eq_false in Hupload.
  destruct (packet request) as [written|] eqn:Hpacket;
    [|destruct Hkind as [? | [? | [? ?]]]; done].
  simpl. rewrite (bool_decide_eq_true_2 _ Hcode). simpl. rewrite Htasks. simpl.
  by intros ->.
Qed.

(** X23.  A failed reply of the source, while no answer is recorded for its
    kind of error, is shown to the window and nothing else happens. The
    error carries the reply's code and the source path of the front task;
    its kind tells whether opening the file or reading a packet failed. *)
Theorem source_failure_is_shown (a : Fields) (request : FileRequest) (reply : FileReply)
    (front : FileTransferTask) (rest : list FileTransferTask) :
  tasks_ a = front :: rest →
  is_Some (download_request request) ∨ is_Some (packet_request request) →
  error_code reply ≠ FILE_ERROR_SUCCESS →
  actions_ a !! source_failure request = None →
  sourceReply request reply a =
    Some (tt, a,
          [window_errorOccurred
             {| Error_type := source_failure request;
                Error_code := error_code reply;
                Error_path := sourcePath front |}]).
Proof.
  intros Htasks Hkind Hcode. unfold source_failure, sourceReply, frontTask, onError.
  run_method. rewrite Htasks. simpl.
  destruct (bool_decide (is_Some (download_request request))) eqn:Hdownload; simpl.
  { rewrite Htasks. simpl. rewrite (bool_decide_eq_true_2 _ Hcode). simpl.
    by intros ->. }
  apply bool_decide_eq_false in Hdownload.
  destruct Hkind as [? | Hpacket]; [done|].
  rewrite (bool_decide_eq_true_2 _ Hpacket). simpl.
  rewrite (bool_decide_eq_true_2 _ Hcode). simpl. rewrite Htasks. simpl. by intros ->.
Qed.

(** ** The copy loop *)

Lemma progress_only_nil : progress_only [].
Proof. intros c Hc. by apply elem_of_nil in Hc. Qed.

Lemma progress_only_one (total task : Z) :
  progress_only [window_setCurrentProgress total task].
Proof. intros c [-> | Hc%elem_of_nil]%elem_of_cons; [eauto | done]. Qed.

(** X24.  When the target has written a packet that is not the last one, the
    coordinator asks the source for the next packet, and this request is
    where a cancellation reaches the source: it carries [CANCEL] when the
    transfer is cancelled and no flag otherwise. Apart from that request
    only progress is reported, and the queue stays as it is. *)
Theorem next_packet_request_carries_the_cancellation (a a' : Fields)
    (request : FileRequest) (reply : FileReply) (written : FilePacket)
    (front : FileTransferTask) (rest : list FileTransferTask) (calls : list Call) :
  tasks_ a = front :: rest →
  create_directory_request request = None →
  upload_request request = None →
  packet request = Some written →
  error_code reply = FILE_ERROR_SUCCESS →
  has_flag (packet_flags written) LAST_PACKET = false →
  targetReply request reply a = Some (tt, a', calls) →
  ∃ source progress,
    request_factory_source_ a = Some source ∧
    calls = progress ++
      [doRequest source (packetRequest (if is_canceled_ a then CANCEL else NO_FLAGS))] ∧
    progress_only progress ∧
    tasks_ a' = tasks_ a ∧ is_canceled_ a' = is_canceled_ a.
Proof.
  intros Htasks Hdir Hupload Hpacket Hcode Hlast.
  unfold targetReply, frontTask, int64, factory. run_method.
  repeat (first [ rewrite Htasks | rewrite Hdir | rewrite Hupload | rewrite Hpacket
                | rewrite Hcode | rewrite Hlast ]; simpl).
  destruct (request_factory_source_ a) as [source|] eqn:Hsource;
    repeat first
      [ discriminate
      | progress (rewrite Hsource; simpl)
      | match goal with
        | |- context [if ?c then _ else _] => destruct c eqn:?
        end; simpl ];
    intros [= <- <-]; simpl; exists source;
    first [ exists []; split; [reflexivity|]; split; [reflexivity|];
            split; [apply progress_only_nil | by split]
          | eexists [_]; split; [reflexivity|]; split; [reflexivity|];
            split; [apply progress_only_one | by split] ].
Qed.

(** X25.  A packet read from the source goes to the target as it is: the
    reply to a packet request is answered with one request to the target
    endpoint that carries the reply's packet, data and flags unchanged, and
    nothing else changes. *)
Theorem read_packet_is_forwarded_unchanged (a : Fields) (request : FileRequest)
    (reply : FileReply) (target : FileTaskTarget) :
  tasks_ a ≠ [] →
  download_request request = None →
  is_Some (packet_request request) →
  error_code reply = FILE_ERROR_SUCCESS →
  request_factory_target_ a = Some target →
  sourceReply request reply a =
    Some (tt, a, [doRequest target (packetOf (reply_packet reply))]) ∧
  packet (packetOf (reply_packet reply)) = Some (reply_packet reply).
Proof.
  intros Htasks Hdownload Hrequest Hcode Htarget.
  unfold sourceReply, factory. run_method.
  destruct (tasks_ a) as [|front rest]; [done|]. simpl.
  rewrite Hdownload. simpl. rewrite (bool_decide_eq_true_2 _ Hrequest). simpl.
  rewrite Hcode. simpl. rewrite Htarget. done.
Qed.

(** ** Answers to an error *)

(** X26.  Answering an error with "replace" (or "replace all") starts the
    front task again with its overwrite flag set: the file is opened on the
    source once more, and when the source has opened it the upload request
    to the target carries [overwrite = true]. The queue keeps its tasks. *)
Theorem replace_retries_with_overwrite (a : Fields) (t : ErrorType) (action : Action)
    (request : FileRequest) (reply : FileReply)
    (front : FileTransferTask) (rest : list FileTransferTask)
    (source target : FileTaskTarget) :
  action = ACTION_REPLACE ∨ action = ACTION_REPLACE_ALL →
  tasks_ a = front :: rest →
  isDirectory front = false →
  request_factory_source_ a = Some source →
  request_factory_target_ a = Some target →
  is_Some (download_request request) →
  error_code reply = FILE_ERROR_SUCCESS →
  ∃ a',
    (setAction t action;; sourceReply request reply) a =
      Some (tt, a',
            [window_setCurrentItem (sourcePath front) (targetPath front);
             doRequest source (downloadRequest (sourcePath front));
             doRequest target (uploadRequest (targetPath front) true)]) ∧
    tasks_ a' = setOverwrite true front :: rest ∧
    task_transfered_size_ a' = 0 ∧
    total_transfered_size_ a' = total_transfered_size_ a.
Proof.
  intros Haction Htasks Hfile Hsource Htarget Hdownload Hcode.
  unfold setAction, setActionForErrorType, doFrontTask, sourceReply, frontTask, factory.
  destruct Haction as [-> | ->]; run_method;
    rewrite Htasks; simpl; rewrite Hfile; simpl; rewrite Hsource; simpl;
    rewrite (bool_decide_eq_true_2 _ Hdownload); simpl;
    rewrite Hcode; simpl; rewrite Htarget; simpl;
    eexists; (split; [reflexivity|]); simpl; by rewrite Htasks.
Qed.

(** X27.  Answering an error with "skip" (or "skip all") gives the front
    task up and turns to the next one, which starts from scratch without the
    overwrite flag; when there is none left the transfer finishes. *)
Theorem skip_turns_to_the_next_task (a : Fields) (t : ErrorType) (action : Action)
    (front : FileTransferTask) (rest : list FileTransferTask) :
  action = ACTION_SKIP ∨ action = ACTION_SKIP_ALL →
  is_canceled_ a = false →
  tasks_ a = front :: rest →
  match rest with
  | [] =>
      ∃ a',
        setAction t action a =
          Some (tt, a',
                (if cancel_timer_ a then [cancel_timer_stop] else []) ++
                finish_calls (finish_callback_ a)) ∧
        tasks_ a' = [] ∧ finish_callback_ a' = None
  | next :: later =>
      ∀ a' calls,
        setAction t action a = Some (tt, a', calls) →
        tasks_ a' = setOverwrite false next :: later ∧
        task_transfered_size_ a' = 0 ∧
        ∃ endpoint,
          calls =
            [window_setCurrentItem (sourcePath next) (targetPath next);
             doRequest endpoint
               (if isDirectory next then createDirectoryRequest (targetPath next)
                else downloadRequest (sourcePath next))] ∧
          (if isDirectory next then request_factory_target_ a
           else request_factory_source_ a) = Some endpoint
  end.
Proof.
  intros Haction Hcanceled Htasks.
  unfold setAction, setActionForErrorType, doNextTask, doFrontTask, onFinished, frontTask,
    factory, finish_calls.
  destruct rest as [|next later].
  - destruct Haction as [-> | ->]; run_method;
      rewrite Hcanceled; simpl; rewrite Htasks; simpl;
      destruct (cancel_timer_ a); simpl; destruct (finish_callback_ a); simpl;
      eexists; (split; [reflexivity|]); done.
  - intros a' calls.
    destruct Haction as [-> | ->]; run_method;
      rewrite Hcanceled; simpl; rewrite Htasks; simpl;
      destruct (isDirectory next); simpl;
      [ destruct (request_factory_target_ a) as [endpoint|]
      | destruct (request_factory_source_ a) as [endpoint|]
      | destruct (request_factory_target_ a) as [endpoint|]
      | destruct (request_factory_source_ a) as [endpoint|] ];
      simpl; try discriminate; intros [= <- <-]; simpl;
      (split; [reflexivity|]); (split; [reflexivity|]); by exists endpoint.
Qed.

(** ** The task counter *)

Lemma within_kept_refl (a : Fields) : within_kept a [] a.
Proof. by intros ?. Qed.

Lemma within_kept_trans (a1 : Fields) (c1 : list Call) (a2 : Fields) (c2 : list Call)
    (a3 : Fields) :
  within_kept a1 c1 a2 → within_kept a2 c2 a3 → within_kept a1 (c1 ++ c2) a3.
Proof. unfold within_kept. auto. Qed.

Ltac within_base := intros; unfold within_kept, within_task; simpl; auto.

Ltac within_walk := keeps_walk within_kept_refl within_kept_trans within_base.

Lemma within_onFinished : keeps within_kept onFinished.
Proof. unfold onFinished. within_walk. Qed.

Lemma doFrontTask_within (a a' : Fields) (overwrite : bool) (calls : list Call) :
  sized (tasks_ a) →
  doFrontTask overwrite a = Some (tt, a', calls) →
  sized (tasks_ a') ∧ within_task a'.
Proof.
  unfold doFrontTask, frontTask, factory, within_task, sized. run_method.
  intros Hsized.
  destruct (tasks_ a) as [|front rest] eqn:Htasks; simpl; [discriminate|].
  apply Forall_cons in Hsized as [Hfront Hrest].
  destruct (isDirectory front); simpl;
    [destruct (request_factory_target_ a) | destruct (request_factory_source_ a)];
    simpl; try discriminate; intros [= <- <-]; simpl; rewrite Htasks; simpl;
    (split; [by apply Forall_cons | lia]).
Qed.

Lemma doNextTask_within (a a' : Fields) (calls : list Call) :
  sized (tasks_ a) →
  doNextTask a = Some (tt, a', calls) →
  sized (tasks_ a') ∧ within_task a'.
Proof.
  intros Hsized. unfold doNextTask. rewrite get_bind_run.
  intros Hrun. apply bind_Some in Hrun as ([] & a1 & c1 & c2 & H1 & H2 & ->).
  rewrite get_bind_run in H2.
  apply bind_Some in H2 as ([] & a2 & c3 & c4 & H2 & H3 & ->).
  rewrite get_bind_run in H3.
  assert (sized (tasks_ a1)) as Hsized1.
  { destruct (is_canceled_ a); injection H1 as <- <-; simpl; [|done].
    rewrite pop_all_nil. constructor. }
  assert (sized (tasks_ a2)) as Hsized2.
  { destruct (tasks_ a1) as [|front rest] eqn:Htasks; simpl in H2;
      injection H2 as <- <-; simpl; [by rewrite Htasks|].
    by apply Forall_cons in Hsized1 as [_ ?]. }
  destruct (tasks_ a2) as [|front rest] eqn:Htasks; simpl in H3.
  - assert (dequeues a2 c4 a') as Hdone.
    { revert H3.
      match goal with
      | |- ?m a2 = _ → _ => assert (keeps dequeues m) as K
      end; [|apply K].
      pose proof dequeues_onFinished. dequeues_walk. }
    unfold dequeues in Hdone. rewrite Htasks in Hdone.
    apply suffix_nil_inv, fmap_nil_inv in Hdone.
    unfold within_task. rewrite Hdone. split; [constructor | done].
  - eapply doFrontTask_within; [|done]. by rewrite Htasks.
Qed.

Lemma within_doFrontTask overwrite : keeps within_kept (doFrontTask overwrite).
Proof. intros a [] a' calls Hrun [Hsized _]. by eapply doFrontTask_within. Qed.

Lemma within_doNextTask : keeps within_kept doNextTask.
Proof. intros a [] a' calls Hrun [Hsized _]. by eapply doNextTask_within. Qed.

Lemma within_setAction t action : keeps within_kept (setAction t action).
Proof.
  pose proof within_onFinished. pose proof within_doFrontTask.
  pose proof within_doNextTask.
  unfold setAction, setActionForErrorType. destruct action; within_walk.
Qed.

Lemma within_onError t code path : keeps within_kept (onError t code path).
Proof. pose proof within_setAction. unfold onError. within_walk. Qed.

Lemma within_sourceReply request reply : keeps within_kept (sourceReply request reply).
Proof.
  pose proof within_onError. unfold sourceReply, frontTask, factory. within_walk.
Qed.

(** A branch of [targetReply] built from steps that keep the counter within
    the task. *)
Ltac within_branch :=
  match goal with
  | |- ?m ?a = Some (?x, ?a', ?c) → _ =>
      let K := fresh "K" in
      assert (keeps within_kept m) as K;
      [ pose proof within_doNextTask; pose proof within_onError;
        unfold frontTask, factory; within_walk
      | exact (K a x a' c) ]
  end.

Lemma within_targetReply request reply :
  0 < kMaxFilePacketSize → keeps within_kept (targetReply request reply).
Proof.
  intros Hmax a [] a' calls. unfold targetReply. rewrite get_bind_run.
  destruct (tasks_ a) as [|front rest] eqn:Htasks; simpl.
  { intros [= <- <-]. apply within_kept_refl. }
  destruct (create_directory_request request) as [?|] eqn:Hdir; simpl.
  { within_branch. }
  destruct (upload_request request) as [?|] eqn:Hupload; simpl.
  { within_branch. }
  destruct (packet request) as [written|] eqn:Hpacket; simpl.
  2:{ within_branch. }
  destruct (bool_decide (error_code reply ≠ FILE_ERROR_SUCCESS)) eqn:Hcode.
  { within_branch. }
  intros Hrun [Hsized Hwithin].
  unfold within_task in Hwithin. rewrite Htasks in Hwithin.
  pose proof Hsized as Hall. rewrite Htasks in Hall.
  apply Forall_cons in Hall as [Hfront _].
  revert Hrun. unfold frontTask, int64, factory. run_method. rewrite Htasks. simpl.
  repeat first
    [ discriminate
    | match goal with
      | |- context [doNextTask ?b] =>
          let E := fresh "E" in
          destruct (doNextTask b) as [[[[] ?] ?]|] eqn:E;
          [apply doNextTask_within in E; [|exact Hsized]|]
      | |- context [if ?c then _ else _] => destruct c eqn:?
      | |- context [request_factory_source_ a] => destruct (request_factory_source_ a)
      end; simpl ];
    intros [= <- <-]; try assumption;
    (split; [exact Hsized|]); unfold within_task; simpl; rewrite Htasks;
    repeat match goal with
           | E : (_ <? _) = true |- _ => apply Z.ltb_lt in E
           | E : (_ <? _) = false |- _ => apply Z.ltb_ge in E
           end;
    lia.
Qed.

Lemma within_handle (e : Event) :
  0 < kMaxFilePacketSize → sane e → keeps within_kept (handle e).
Proof.
  intros Hmax He.
  pose proof within_onFinished. pose proof within_setAction.
  pose proof within_onError.
  pose proof (λ q r, within_targetReply q r Hmax).
  pose proof within_sourceReply.
  destruct e; simpl in *;
    [ unfold start, factory; within_walk
    | unfold stop; within_walk
    | within_walk
    | unfold onReply; within_walk
    |
    | within_walk ].
  intros a [] a' calls. rewrite get_bind_run.
  destruct (queue_builder_ a) eqn:Hbuilder; [|intros [= <- <-]; apply within_kept_refl].
  unfold onQueueBuilderFinished.
  intros Hrun. apply bind_Some in Hrun as ([] & a1 & c1 & c2 & R1 & R2 & ->).
  injection R2 as <- <-. intros Hbefore.
  assert (sized (tasks_ a1) ∧ within_task a1) as [? ?]; [|by split].
  match type of R1 with
  | context [bool_decide ?P] => destruct (bool_decide P)
  end.
  - rewrite get_bind_run, Hbuilder in R1.
    apply bind_Some in R1 as ([] & b1 & d1 & d2 & [= <- <-] & R1 & ->).
    apply bind_Some in R1 as ([] & b2 & d3 & d4 & [= <- <-] & R1 & ->).
    destruct queue as [|front rest]; simpl in R1.
    + apply within_onFinished in R1. apply R1. split; [constructor | done].
    + by apply doFrontTask_within in R1.
  - apply within_onError in R1. by apply R1.
Qed.

(** X28.  The bytes counted for the front task stay within the task. With a
    positive packet size and no task of negative size, the task counter
    [task_transfered_size_] is at least 0 and at most the size of the front
    task, whatever happens to the coordinator: a packet that would carry the
    counter past the size sets it to the size. *)
Theorem task_counter_stays_within_the_task (events : list Event) (a a' : Fields)
    (calls : list Call) :
  0 < kMaxFilePacketSize →
  Forall sane events →
  sized (tasks_ a) →
  within_task a →
  run events a = Some (tt, a', calls) →
  sized (tasks_ a') ∧ within_task a'.
Proof.
  intros Hmax Hevents Hsized Hwithin Hrun.
  assert (keeps within_kept (run events)) as Hkeeps; [|by apply (Hkeeps a tt a' calls)].
  clear a a' calls Hsized Hwithin Hrun.
  induction Hevents as [|e events He _ IH]; simpl.
  - apply keeps_skip, within_kept_refl.
  - apply (keeps_bind _ within_kept_trans); [by apply within_handle | done].
Qed.

End CoordinatorBehaviour.

(** * Executions of the authenticator's behaviour *)

Section AuthenticatorBehaviourRuns.
Import ServerAuthenticator.
#[local] Existing Instance Bench.accelerated.


Lemma start_outcome_witness :
  let a := Bench.keyed true in
  let user_list := Some Bench.one_user in
  state_ a = STOPPED ∧
  ∃ a' calls,
    start true user_list a = Some (tt, a', calls) ∧
    same_configuration a a' ∧
    ((consistent a ∧ state_ a' = PENDING ∧ channel_ a' = true ∧ calls = listen_calls) ∨
     (¬ consistent a ∧ state_ a' = FAILED ∧ channel_ a' = false ∧ calls = failure_calls)).
Proof.
  intros a user_list.
  assert (state_ a = STOPPED) as Hstate by reflexivity.
  split; [exact Hstate|].
  exact (start_outcome (H := Bench.accelerated) a user_list Hstate).
Defined.

Lemma onFailed_reports_once_witness :
  let a := Bench.pending true in
  let a1 := set_state_ FAILED (set_channel_ false a) in
  let calls := failure_calls in
  onFailed a = Some (tt, a1, calls) ∧
  channel_ a1 = false ∧
  (channel_ a = true → state_ a1 = FAILED ∧ calls = failure_calls) ∧
  (channel_ a = false → a1 = a ∧ calls = []) ∧
  onFailed a1 = Some (tt, a1, []).
Proof.
  intros a a1 calls.
  assert (onFailed a = Some (tt, a1, calls)) as Hrun by reflexivity.
  split; [exact Hrun|].
  exact (onFailed_reports_once (H := Bench.accelerated) a a1 calls Hrun).
Defined.

Lemma setPrivateKey_outcome_witness :
  let a : Fields := constructed in
  let private_key := [Byte.x07] in
  let random_iv := Bench.iv12 in
  state_ a = STOPPED ∧
  ∃ ok a',
    setPrivateKey private_key random_iv a = Some (ok, a', []) ∧
    (private_key = [] → ok = false ∧ a' = a) ∧
    (private_key ≠ [] → key_pair_ a' = KeyPair_fromPrivateKey private_key) ∧
    (private_key ≠ [] → KeyPair_isValid (KeyPair_fromPrivateKey private_key) = false →
       ok = false ∧ encrypt_iv_ a' = encrypt_iv_ a) ∧
    (private_key ≠ [] → KeyPair_isValid (KeyPair_fromPrivateKey private_key) = true →
       encrypt_iv_ a' = random_iv ∧ ok = negb (is_empty random_iv)) ∧
    (ok = true → KeyPair_isValid (key_pair_ a') = true ∧ encrypt_iv_ a' ≠ []).
Proof.
  intros a private_key random_iv.
  assert (state_ a = STOPPED) as Hstate by reflexivity.
  split; [exact Hstate|].
  exact (setPrivateKey_outcome (H := Bench.accelerated) a private_key random_iv
           Hstate).
Defined.

Lemma setAnonymousAccess_outcome_witness :
  let a := Bench.keyed true in
  let anonymous_access := ENABLE in
  let session_types := 1 in
  state_ a = STOPPED ∧
  ∃ ok a',
    setAnonymousAccess anonymous_access session_types a = Some (ok, a', []) ∧
    (ok = false ↔
       anonymous_access = ENABLE ∧
       (KeyPair_isValid (key_pair_ a) = false ∨ session_types = 0)) ∧
    (ok = false → a' = a) ∧
    (ok = true →
       anonymous_access_ a' = anonymous_access ∧
       session_types_ a' = (if bool_decide (anonymous_access = ENABLE)
                            then session_types else 0) ∧
       key_pair_ a' = key_pair_ a ∧ state_ a' = STOPPED ∧
       consistent a').
Proof.
  intros a anonymous_access session_types.
  assert (state_ a = STOPPED) as Hstate by reflexivity.
  split; [exact Hstate|].
  exact (setAnonymousAccess_outcome (H := Bench.accelerated) a anonymous_access
           session_types Hstate).
Defined.

Lemma accepted_configuration_starts_witness :
  let a := Bench.keyed true in
  let a1 := set_anonymous_access_ ENABLE (set_session_types_ 1 a) in
  let user_list := Some Bench.no_users in
  setAnonymousAccess ENABLE 1 a = Some (true, a1, []) ∧
  ∃ a2,
    start true user_list a1 = Some (tt, a2, listen_calls) ∧
    state_ a2 = PENDING ∧ channel_ a2 = true.
Proof.
  intros a a1 user_list.
  assert (setAnonymousAccess ENABLE 1 a = Some (true, a1, [])) as Hset by reflexivity.
  split; [exact Hset|].
  exact (accepted_configuration_starts (H := Bench.accelerated) a a1 ENABLE 1
           user_list Hset).
Defined.

Lemma srp_hello_outcome_witness :
  let a := Bench.reached true [] in
  let buffer := Bench.client_hello Byte.x03 Byte.x00 in
  let client_hello :=
    {| client_hello_encryption := 3; client_hello_identify := IDENTIFY_SRP;
       client_hello_iv := Bench.iv12; client_hello_public_key := [Byte.x33] |} in
  channel_ a = true ∧
  parse_ClientHello buffer = Some client_hello ∧
  client_hello_identify client_hello = IDENTIFY_SRP ∧
  ∃ a' calls,
    onClientHello buffer a = Some (tt, a', calls) ∧
    (usable a client_hello →
       calls = [channel_send (MsgServerHello
                  {| server_hello_encryption := chosen_cipher client_hello;
                     server_hello_iv :=
                       if KeyPair_isValid (key_pair_ a) then encrypt_iv_ a else [] |})] ∧
       state_ a' = state_ a ∧
       internal_state_ a' = SEND_SERVER_HELLO ∧
       identify_ a' = IDENTIFY_SRP ∧
       encryption_ a' = chosen_cipher client_hello ∧
       session_key_ a' =
         (if KeyPair_isValid (key_pair_ a) then agreed_key a client_hello
          else session_key_ a) ∧
       decrypt_iv_ a' =
         (if KeyPair_isValid (key_pair_ a) then client_hello_iv client_hello
          else decrypt_iv_ a)) ∧
    (¬ usable a client_hello → state_ a' = FAILED ∧ calls = failure_calls).
Proof.
  intros a buffer client_hello.
  assert (channel_ a = true) as Hchannel by (vm_compute; reflexivity).
  assert (parse_ClientHello buffer = Some client_hello) as Hparse
    by (vm_compute; reflexivity).
  assert (client_hello_identify client_hello = IDENTIFY_SRP) as Hsrp by reflexivity.
  split; [exact Hchannel|]. split; [exact Hparse|]. split; [exact Hsrp|].
  exact (srp_hello_outcome (H := Bench.accelerated) a buffer client_hello
           Hchannel Hparse Hsrp).
Defined.

Lemma server_hello_written_witness :
  let a := Bench.reached true [ev_message (Bench.client_hello Byte.x03 Byte.x00) [] []] in
  channel_ a = true ∧
  internal_state_ a = SEND_SERVER_HELLO ∧
  identify_ a = IDENTIFY_SRP ∧
  ∃ a' calls,
    onMessageWritten a = Some (tt, a', calls) ∧
    (session_key_ a = [] → a' = set_internal_state_ READ_IDENTIFY a ∧ calls = []) ∧
    (session_key_ a ≠ [] →
       match session_ciphers a with
       | Some (e, d) =>
           a' = set_internal_state_ READ_IDENTIFY a ∧
           calls = [channel_setEncryptor e; channel_setDecryptor d]
       | None =>
           state_ a' = FAILED ∧ internal_state_ a' = SEND_SERVER_HELLO ∧
           calls = failure_calls
       end).
Proof.
  intros a.
  assert (channel_ a = true) as Hchannel by (vm_compute; reflexivity).
  assert (internal_state_ a = SEND_SERVER_HELLO) as Hstep by (vm_compute; reflexivity).
  assert (identify_ a = IDENTIFY_SRP) as Hsrp by (vm_compute; reflexivity).
  split; [exact Hchannel|]. split; [exact Hstep|]. split; [exact Hsrp|].
  exact (server_hello_written (H := Bench.accelerated) a Hchannel Hstep Hsrp).
Defined.

Lemma identify_outcome_witness :
  let a := Bench.reached true Bench.greeting in
  let buffer := [Byte.x61] in
  let random_b := [Byte.x62] in
  let random_iv := Bench.iv12 in
  let identify := {| identify_username := [Byte.x61] |} in
  let user_list := Bench.one_user in
  channel_ a = true ∧
  parse_SrpIdentify buffer = Some identify ∧
  user_list_ a = Some user_list ∧
  let username := identify_username identify in
  let user := UserList_find user_list (utf16FromUtf8 username) in
  ∃ a' calls,
    onIdentify buffer random_b random_iv a = Some (tt, a', calls) ∧
    user_name_ a' = utf16FromUtf8 username ∧
    (utf16FromUtf8 username = [] → state_ a' = FAILED ∧ calls = failure_calls) ∧
    (utf16FromUtf8 username ≠ [] →
       (registered user →
          ∃ Ng_pair, pairByGroup (user_group user) = Some Ng_pair ∧
            N_ a' = BigNum_fromStdString (Ng_pair.1) ∧
            g_ a' = BigNum_fromStdString (Ng_pair.2) ∧
            s_ a' = BigNum_fromByteArray (user_salt user) ∧
            v_ a' = BigNum_fromByteArray (user_verifier user) ∧
            session_types_ a' = user_sessions user) ∧
       (¬ registered user →
          N_ a' = BigNum_fromStdString (kSrpNgPair_8192.1) ∧
          g_ a' = BigNum_fromStdString (kSrpNgPair_8192.2) ∧
          s_ a' = decoy_salt user_list username ∧
          v_ a' = decoy_verifier user_list username ∧
          session_types_ a' = 0) ∧
       b_ a' = BigNum_fromByteArray random_b ∧
       B_ a' = SrpMath_calc_B (b_ a') (N_ a') (g_ a') (v_ a') ∧
       (valid_numbers a' →
          calls = [channel_send (server_key_exchange a')] ∧
          encrypt_iv_ a' = random_iv ∧
          internal_state_ a' = SEND_SERVER_KEY_EXCHANGE ∧
          state_ a' = state_ a) ∧
       (¬ valid_numbers a' → state_ a' = FAILED ∧ calls = failure_calls)).
Proof.
  intros a buffer random_b random_iv identify user_list.
  assert (channel_ a = true) as Hchannel by (vm_compute; reflexivity).
  assert (parse_SrpIdentify buffer = Some identify) as Hparse by reflexivity.
  assert (user_list_ a = Some user_list) as Hlist by (vm_compute; reflexivity).
  split; [exact Hchannel|]. split; [exact Hparse|]. split; [exact Hlist|].
  exact (identify_outcome (H := Bench.accelerated) a buffer random_b random_iv
           identify user_list Hchannel Hparse Hlist).
Defined.

Lemma key_exchange_outcome_witness :
  let a := Bench.reached true (Bench.greeting ++ Bench.introduction Byte.x61) in
  let buffer := Byte.x41 :: Bench.iv12 in
  let m := {| client_key_exchange_a := [Byte.x41];
              client_key_exchange_iv := Bench.iv12 |} in
  channel_ a = true ∧
  parse_SrpClientKeyExchange buffer = Some m ∧
  let A := BigNum_fromStdString (client_key_exchange_a m) in
  ∃ a' calls,
    onClientKeyExchange buffer a = Some (tt, a', calls) ∧
    session_types_ a' = session_types_ a ∧
    ((state_ a' = FAILED ∧ calls = failure_calls) ∨
     (acceptable_key_exchange a m ∧
      state_ a' = state_ a ∧
      internal_state_ a' = SEND_SESSION_CHALLENGE ∧
      decrypt_iv_ a' = client_key_exchange_iv m ∧
      session_key_ a' = rekeyed a (server_srp_key a A) ∧
      ∃ e d,
        session_ciphers a' = Some (e, d) ∧
        calls = [channel_setEncryptor e; channel_setDecryptor d;
                 channel_send (challenge (session_types_ a))])).
Proof.
  intros a buffer m.
  assert (channel_ a = true) as Hchannel by (vm_compute; reflexivity).
  assert (parse_SrpClientKeyExchange buffer = Some m) as Hparse
    by (vm_compute; reflexivity).
  split; [exact Hchannel|]. split; [exact Hparse|].
  exact (key_exchange_outcome (H := Bench.accelerated) a buffer m Hchannel Hparse).
Defined.

Lemma success_names_an_allowed_session_type_witness :
  let events :=
    Bench.greeting ++ Bench.introduction Byte.x61 ++ Bench.exchange ++
    [Bench.response Byte.x02] in
  let a := Bench.reached true [] in
  let a' := Bench.reached true events in
  let calls := Bench.heard true events a in
  state_ a ≠ SUCCESS ∧
  run events a = Some (tt, a', calls) ∧
  state_ a' = SUCCESS ∧
  internal_state_ a' = READ_SESSION_RESPONSE ∧
  BitSet_count (session_type_ a') = 1 ∧
  Z.land (session_types_ a') (session_type_ a') ≠ 0.
Proof.
  intros events a a' calls.
  assert (state_ a ≠ SUCCESS) as Hstate by (vm_compute; discriminate).
  assert (run events a = Some (tt, a', calls)) as Hrun by (vm_compute; reflexivity).
  assert (state_ a' = SUCCESS) as Hsuccess by (vm_compute; reflexivity).
  split; [exact Hstate|]. split; [exact Hrun|]. split; [exact Hsuccess|].
  exact (success_names_an_allowed_session_type (H := Bench.accelerated) events
           a a' calls Hstate Hrun Hsuccess).
Defined.

Lemma anonymous_client_never_succeeds_witness :
  let events := [ev_written; Bench.response Byte.x02; ev_written] in
  let a := Bench.reached true [Bench.anonymous_greeting] in
  let a' := Bench.reached true (Bench.anonymous_greeting :: events) in
  let calls := Bench.heard true events a in
  state_ a ≠ SUCCESS ∧
  internal_state_ a = SEND_SERVER_HELLO ∧
  identify_ a = IDENTIFY_ANONYMOUS ∧
  run events a = Some (tt, a', calls) ∧
  state_ a' ≠ SUCCESS ∧ internal_state_ a' = SEND_SERVER_HELLO.
Proof.
  intros events a a' calls.
  assert (state_ a ≠ SUCCESS) as Hstate by (vm_compute; discriminate).
  assert (internal_state_ a = SEND_SERVER_HELLO) as Hstep by (vm_compute; reflexivity).
  assert (identify_ a = IDENTIFY_ANONYMOUS) as Hanonymous by (vm_compute; reflexivity).
  assert (run events a = Some (tt, a', calls)) as Hrun by (vm_compute; reflexivity).
  split; [exact Hstate|]. split; [exact Hstep|]. split; [exact Hanonymous|].
  split; [exact Hrun|].
  exact (anonymous_client_never_succeeds (H := Bench.accelerated) events a a' calls
           Hstate Hstep Hanonymous Hrun).
Defined.

Lemma unregistered_user_never_succeeds_witness :
  let events := [ev_written] ++ Bench.exchange ++ [Bench.response Byte.x02] in
  let a := Bench.reached true Bench.greeting in
  let a' := Bench.reached true (Bench.greeting ++ Bench.introduction Byte.x62 ++
                                Bench.exchange ++ [Bench.response Byte.x02]) in
  let buffer := [Byte.x62] in
  let identify := {| identify_username := [Byte.x62] |} in
  let calls :=
    Bench.heard true (ev_message buffer [Byte.x62] Bench.iv12 :: events) a in
  state_ a ≠ SUCCESS ∧
  internal_state_ a = READ_IDENTIFY ∧
  parse_SrpIdentify buffer = Some identify ∧
  user_list_ a = Some Bench.one_user ∧
  ¬ registered (UserList_find Bench.one_user (utf16FromUtf8 (identify_username identify))) ∧
  run (ev_message buffer [Byte.x62] Bench.iv12 :: events) a = Some (tt, a', calls) ∧
  state_ a' ≠ SUCCESS.
Proof.
  intros events a a' buffer identify calls.
  assert (state_ a ≠ SUCCESS) as Hstate by (vm_compute; discriminate).
  assert (internal_state_ a = READ_IDENTIFY) as Hstep by (vm_compute; reflexivity).
  assert (parse_SrpIdentify buffer = Some identify) as Hparse by reflexivity.
  assert (user_list_ a = Some Bench.one_user) as Hlist by (vm_compute; reflexivity).
  assert (¬ registered (UserList_find Bench.one_user
                          (utf16FromUtf8 (identify_username identify)))) as Hunknown
    by (intros [Hvalid _]; vm_compute in Hvalid; discriminate Hvalid).
  assert (run (ev_message buffer [Byte.x62] Bench.iv12 :: events) a =
          Some (tt, a', calls)) as Hrun by (vm_compute; reflexivity).
  split; [exact Hstate|]. split; [exact Hstep|]. split; [exact Hparse|].
  split; [exact Hlist|]. split; [exact Hunknown|]. split; [exact Hrun|].
  exact (unregistered_user_never_succeeds (H := Bench.accelerated) events a a'
           buffer [Byte.x62] Bench.iv12 identify Bench.one_user calls
           Hstate Hstep Hparse Hlist Hunknown Hrun).
Defined.

Lemma delegate_told_when_decided_witness :
  let events :=
    Bench.greeting ++ Bench.introduction Byte.x61 ++ Bench.exchange ++
    [Bench.response Byte.x01] in
  let a := Bench.reached true [] in
  let a' := Bench.reached true events in
  let calls := Bench.heard true events a in
  state_ a = PENDING ∧
  run events a = Some (tt, a', calls) ∧
  (delegate_onComplete ∈ calls ↔ state_ a' ≠ PENDING).
Proof.
  intros events a a' calls.
  assert (state_ a = PENDING) as Hstate by (vm_compute; reflexivity).
  assert (run events a = Some (tt, a', calls)) as Hrun by (vm_compute; reflexivity).
  split; [exact Hstate|]. split; [exact Hrun|].
  exact (delegate_told_when_decided (H := Bench.accelerated) events a a' calls
           Hstate Hrun).
Defined.

Lemma nothing_happens_without_channel_witness :
  let events := [ev_timeout; ev_written; ev_message [] [] []; ev_disconnected] in
  let a := Bench.reached true [ev_disconnected] in
  channel_ a = false ∧
  run events a = Some (tt, a, []) ∧
  channel_ a = false ∧ state_ a = state_ a ∧ @nil Call = [].
Proof.
  intros events a.
  assert (channel_ a = false) as Hchannel by (vm_compute; reflexivity).
  assert (run events a = Some (tt, a, [])) as Hrun by (vm_compute; reflexivity).
  split; [exact Hchannel|]. split; [exact Hrun|].
  exact (nothing_happens_without_channel (H := Bench.accelerated) events a a []
           Hchannel Hrun).
Defined.

End AuthenticatorBehaviourRuns.

(** * Executions of the coordinator's behaviour *)

Section CoordinatorBehaviourRuns.
Import FileTransfer.
#[local] Existing Instance Bench.coordinator.

Lemma total_transfered_never_decreases_witness :
  let events := Bench.copy_one_byte in
  let a := constructed DOWNLOADER in
  let a' := Bench.after events in
  let calls := Bench.calls_during events a in
  0 < kMaxFilePacketSize ∧
  run events a = Some (tt, a', calls) ∧
  total_transfered_size_ a ≤ total_transfered_size_ a'.
Proof.
  intros events a a' calls.
  assert (0 < kMaxFilePacketSize) as Hmax by reflexivity.
  assert (run events a = Some (tt, a', calls)) as Hrun by (vm_compute; reflexivity).
  split; [exact Hmax|]. split; [exact Hrun|].
  exact (total_transfered_never_decreases events a a' calls Hmax Hrun).
Defined.

Lemma queue_is_worked_off_in_order_witness :
  let events := ev_setAction ALREADY_EXISTS ACTION_REPLACE_ALL :: Bench.second_collision in
  let a := Bench.after Bench.collision in
  let a' := Bench.after (Bench.collision ++ events) in
  let calls := Bench.calls_during events a in
  Forall (λ e, ¬ is_queue_built e) events ∧
  run events a = Some (tt, a', calls) ∧
  (job <$> tasks_ a') `suffix_of` (job <$> tasks_ a).
Proof.
  intros events a a' calls.
  assert (Forall (λ e, ¬ is_queue_built e) events) as Hevents
    by (repeat constructor; simpl; tauto).
  assert (run events a = Some (tt, a', calls)) as Hrun by (vm_compute; reflexivity).
  split; [exact Hevents|]. split; [exact Hrun|].
  exact (queue_is_worked_off_in_order events a a' calls Hevents Hrun).
Defined.

Lemma cancelled_transfer_ends_at_next_task_witness :
  let a := Bench.after (Bench.collision ++ [ev_stop]) in
  is_canceled_ a = true ∧
  ∃ a',
    doNextTask a =
      Some (tt, a',
            (if cancel_timer_ a then [cancel_timer_stop] else []) ++
            finish_calls (finish_callback_ a)) ∧
    tasks_ a' = [] ∧ finish_callback_ a' = None ∧ cancel_timer_ a' = false ∧
    is_canceled_ a' = true.
Proof.
  intros a.
  assert (is_canceled_ a = true) as Hcanceled by (vm_compute; reflexivity).
  split; [exact Hcanceled|].
  exact (cancelled_transfer_ends_at_next_task a Hcanceled).
Defined.

Lemma cancellation_is_permanent_witness :
  let events := [ev_setAction ALREADY_EXISTS ACTION_SKIP; ev_cancel_timer] in
  let a := Bench.after Bench.collision in
  let a' := Bench.after (Bench.collision ++ ev_stop :: events) in
  let calls := Bench.calls_during (ev_stop :: events) a in
  queue_builder_ a = false ∧
  run (ev_stop :: events) a = Some (tt, a', calls) ∧
  is_canceled_ a' = true.
Proof.
  intros events a a' calls.
  assert (queue_builder_ a = false) as Hbuilder by (vm_compute; reflexivity).
  assert (run (ev_stop :: events) a = Some (tt, a', calls)) as Hrun
    by (vm_compute; reflexivity).
  split; [exact Hbuilder|]. split; [exact Hrun|].
  exact (cancellation_is_permanent events a a' calls Hbuilder Hrun).
Defined.

Lemma target_failure_is_shown_witness :
  let a :=
    Bench.after
      (Bench.begin [Bench.item "a" 1; Bench.item "b" 1]
         [Bench.file "a" 1; Bench.file "b" 1] 2 ++
       [ev_reply REMOTE (downloadRequest "src/a") (Bench.answer FILE_ERROR_SUCCESS)]) in
  let request := uploadRequest "dst/a" false in
  let reply := Bench.answer FILE_ERROR_PATH_ALREADY_EXISTS in
  let front := Bench.file "a" 1 in
  let rest := [Bench.file "b" 1] in
  tasks_ a = front :: rest ∧
  (is_Some (create_directory_request request) ∨ is_Some (upload_request request) ∨
     is_Some (packet request)) ∧
  error_code reply ≠ FILE_ERROR_SUCCESS ∧
  (is_Some (create_directory_request request) →
     error_code reply ≠ FILE_ERROR_PATH_ALREADY_EXISTS) ∧
  actions_ a !! target_failure request (error_code reply) = None ∧
  targetReply request reply a =
    Some (tt, a,
          [window_errorOccurred
             {| Error_type := target_failure request (error_code reply);
                Error_code := error_code reply;
                Error_path := targetPath front |}]).
Proof.
  intros a request reply front rest.
  assert (tasks_ a = front :: rest) as Htasks by (vm_compute; reflexivity).
  assert (is_Some (create_directory_request request) ∨ is_Some (upload_request request) ∨
            is_Some (packet request)) as Hkind by (right; left; by eexists).
  assert (error_code reply ≠ FILE_ERROR_SUCCESS) as Hcode by discriminate.
  assert (is_Some (create_directory_request request) →
            error_code reply ≠ FILE_ERROR_PATH_ALREADY_EXISTS) as Hdir
    by (intros [? Hnone]; discriminate Hnone).
  assert (actions_ a !! target_failure request (error_code reply) = None) as Hasked
    by (vm_compute; reflexivity).
  split; [exact Htasks|]. split; [exact Hkind|]. split; [exact Hcode|].
  split; [exact Hdir|]. split; [exact Hasked|].
  exact (target_failure_is_shown a request reply front rest Htasks Hkind Hcode Hdir Hasked).
Defined.

Lemma source_failure_is_shown_witness :
  let a :=
    Bench.after
      (Bench.begin [Bench.item "a" 1; Bench.item "b" 1]
         [Bench.file "a" 1; Bench.file "b" 1] 2) in
  let request := downloadRequest "src/a" in
  let reply := Bench.answer FILE_ERROR_UNKNOWN in
  let front := Bench.file "a" 1 in
  let rest := [Bench.file "b" 1] in
  tasks_ a = front :: rest ∧
  (is_Some (download_request request) ∨ is_Some (packet_request request)) ∧
  error_code reply ≠ FILE_ERROR_SUCCESS ∧
  actions_ a !! source_failure request = None ∧
  sourceReply request reply a =
    Some (tt, a,
          [window_errorOccurred
             {| Error_type := source_failure request;
                Error_code := error_code reply;
                Error_path := sourcePath front |}]).
Proof.
  intros a request reply front rest.
  assert (tasks_ a = front :: rest) as Htasks by (vm_compute; reflexivity).
  assert (is_Some (download_request request) ∨ is_Some (packet_request request)) as Hkind
    by (left; by eexists).
  assert (error_code reply ≠ FILE_ERROR_SUCCESS) as Hcode by discriminate.
  assert (actions_ a !! source_failure request = None) as Hasked
    by (vm_compute; reflexivity).
  split; [exact Htasks|]. split; [exact Hkind|]. split; [exact Hcode|].
  split; [exact Hasked|].
  exact (source_failure_is_shown a request reply front rest Htasks Hkind Hcode Hasked).
Defined.

Lemma next_packet_request_carries_the_cancellation_witness :
  let before :=
    Bench.begin [Bench.item "a" 1048577] [Bench.file "a" 1048577] 1048577 ++
    Bench.opened "a" ++ [Bench.read 0; ev_stop] in
  let a := Bench.after before in
  let a' := Bench.after (before ++ [Bench.written 0]) in
  let calls := Bench.calls_during [Bench.written 0] a in
  let written := reply_packet (Bench.data 0) in
  let request := packetOf written in
  let reply := Bench.answer FILE_ERROR_SUCCESS in
  let front := Bench.file "a" 1048577 in
  let rest := [] in
  tasks_ a = front :: rest ∧
  create_directory_request request = None ∧
  upload_request request = None ∧
  packet request = Some written ∧
  error_code reply = FILE_ERROR_SUCCESS ∧
  has_flag (packet_flags written) LAST_PACKET = false ∧
  targetReply request reply a = Some (tt, a', calls) ∧
  ∃ source progress,
    request_factory_source_ a = Some source ∧
    calls = progress ++
      [doRequest source (packetRequest (if is_canceled_ a then CANCEL else NO_FLAGS))] ∧
    progress_only progress ∧
    tasks_ a' = tasks_ a ∧ is_canceled_ a' = is_canceled_ a.
Proof.
  intros before a a' calls written request reply front rest.
  assert (tasks_ a = front :: rest) as Htasks by (vm_compute; reflexivity).
  assert (create_directory_request request = None) as Hdir by reflexivity.
  assert (upload_request request = None) as Hupload by reflexivity.
  assert (packet request = Some written) as Hpacket by reflexivity.
  assert (error_code reply = FILE_ERROR_SUCCESS) as Hcode by reflexivity.
  assert (has_flag (packet_flags written) LAST_PACKET = false) as Hlast by reflexivity.
  assert (targetReply request reply a = Some (tt, a', calls)) as Hrun
    by (vm_compute; reflexivity).
  split; [exact Htasks|]. split; [exact Hdir|]. split; [exact Hupload|].
  split; [exact Hpacket|]. split; [exact Hcode|]. split; [exact Hlast|].
  split; [exact Hrun|].
  exact (next_packet_request_carries_the_cancellation a a' request reply written front rest
           calls Htasks Hdir Hupload Hpacket Hcode Hlast Hrun).
Defined.

Lemma read_packet_is_forwarded_unchanged_witness :
  let a :=
    Bench.after
      (Bench.begin [Bench.item "a" 1] [Bench.file "a" 1] 1 ++ Bench.opened "a") in
  let request := packetRequest 0 in
  let reply := Bench.data 2 in
  let target := LOCAL in
  tasks_ a ≠ [] ∧
  download_request request = None ∧
  is_Some (packet_request request) ∧
  error_code reply = FILE_ERROR_SUCCESS ∧
  request_factory_target_ a = Some target ∧
  sourceReply request reply a =
    Some (tt, a, [doRequest target (packetOf (reply_packet reply))]) ∧
  packet (packetOf (reply_packet reply)) = Some (reply_packet reply).
Proof.
  intros a request reply target.
  assert (tasks_ a ≠ []) as Htasks by (vm_compute; discriminate).
  assert (download_request request = None) as Hdownload by reflexivity.
  assert (is_Some (packet_request request)) as Hrequest by (by eexists).
  assert (error_code reply = FILE_ERROR_SUCCESS) as Hcode by reflexivity.
  assert (request_factory_target_ a = Some target) as Htarget by (vm_compute; reflexivity).
  split; [exact Htasks|]. split; [exact Hdownload|]. split; [exact Hrequest|].
  split; [exact Hcode|]. split; [exact Htarget|].
  exact (read_packet_is_forwarded_unchanged a request reply target Htasks Hdownload
           Hrequest Hcode Htarget).
Defined.

Lemma replace_retries_with_overwrite_witness :
  let a := Bench.after Bench.collision in
  let t := ALREADY_EXISTS in
  let action := ACTION_REPLACE in
  let request := downloadRequest "src/a" in
  let reply := Bench.answer FILE_ERROR_SUCCESS in
  let front := Bench.file "a" 1 in
  let rest := [Bench.file "b" 1] in
  let source := REMOTE in
  let target := LOCAL in
  (action = ACTION_REPLACE ∨ action = ACTION_REPLACE_ALL) ∧
  tasks_ a = front :: rest ∧
  isDirectory front = false ∧
  request_factory_source_ a = Some source ∧
  request_factory_target_ a = Some target ∧
  is_Some (download_request request) ∧
  error_code reply = FILE_ERROR_SUCCESS ∧
  ∃ a',
    (setAction t action;; sourceReply request reply) a =
      Some (tt, a',
            [window_setCurrentItem (sourcePath front) (targetPath front);
             doRequest source (downloadRequest (sourcePath front));
             doRequest target (uploadRequest (targetPath front) true)]) ∧
    tasks_ a' = setOverwrite true front :: rest ∧
    task_transfered_size_ a' = 0 ∧
    total_transfered_size_ a' = total_transfered_size_ a.
Proof.
  intros a t action request reply front rest source target.
  assert (action = ACTION_REPLACE ∨ action = ACTION_REPLACE_ALL) as Haction
    by (left; reflexivity).
  assert (tasks_ a = front :: rest) as Htasks by (vm_compute; reflexivity).
  assert (isDirectory front = false) as Hfile by reflexivity.
  assert (request_factory_source_ a = Some source) as Hsource by (vm_compute; reflexivity).
  assert (request_factory_target_ a = Some target) as Htarget by (vm_compute; reflexivity).
  assert (is_Some (download_request request)) as Hdownload by (by eexists).
  assert (error_code reply = FILE_ERROR_SUCCESS) as Hcode by reflexivity.
  split; [exact Haction|]. split; [exact Htasks|]. split; [exact Hfile|].
  split; [exact Hsource|]. split; [exact Htarget|]. split; [exact Hdownload|].
  split; [exact Hcode|].
  exact (replace_retries_with_overwrite a t action request reply front rest source target
           Haction Htasks Hfile Hsource Htarget Hdownload Hcode).
Defined.

Lemma skip_turns_to_the_next_task_witness :
  let a := Bench.after Bench.collision in
  let t := ALREADY_EXISTS in
  let action := ACTION_SKIP in
  let front := Bench.file "a" 1 in
  let next := Bench.file "b" 1 in
  (action = ACTION_SKIP ∨ action = ACTION_SKIP_ALL) ∧
  is_canceled_ a = false ∧
  tasks_ a = [front; next] ∧
  ∀ a' calls,
    setAction t action a = Some (tt, a', calls) →
    tasks_ a' = [setOverwrite false next] ∧
    task_transfered_size_ a' = 0 ∧
    ∃ endpoint,
      calls =
        [window_setCurrentItem (sourcePath next) (targetPath next);
         doRequest endpoint
           (if isDirectory next then createDirectoryRequest (targetPath next)
            else downloadRequest (sourcePath next))] ∧
      (if isDirectory next then request_factory_target_ a
       else request_factory_source_ a) = Some endpoint.
Proof.
  intros a t action front next.
  assert (action = ACTION_SKIP ∨ action = ACTION_SKIP_ALL) as Haction
    by (left; reflexivity).
  assert (is_canceled_ a = false) as Hgoing by (vm_compute; reflexivity).
  assert (tasks_ a = [front; next]) as Htasks by (vm_compute; reflexivity).
  split; [exact Haction|]. split; [exact Hgoing|]. split; [exact Htasks|].
  exact (skip_turns_to_the_next_task a t action front [next] Haction Hgoing Htasks).
Defined.

Lemma task_counter_stays_within_the_task_witness :
  let events := Bench.second_packet_read in
  let a := constructed DOWNLOADER in
  let a' := Bench.after events in
  let calls := Bench.calls_during events a in
  0 < kMaxFilePacketSize ∧
  Forall sane events ∧
  sized (tasks_ a) ∧
  within_task a ∧
  run events a = Some (tt, a', calls) ∧
  sized (tasks_ a') ∧ within_task a'.
Proof.
  intros events a a' calls.
  assert (0 < kMaxFilePacketSize) as Hmax by reflexivity.
  assert (Forall sane events) as Hevents
    by (repeat constructor; simpl; unfold Z.le; discriminate).
  assert (sized (tasks_ a)) as Hsized by constructor.
  assert (within_task a) as Hwithin by exact I.
  assert (run events a = Some (tt, a', calls)) as Hrun by (vm_compute; reflexivity).
  split; [exact Hmax|]. split; [exact Hevents|]. split; [exact Hsized|].
  split; [exact Hwithin|]. split; [exact Hrun|].
  exact (task_counter_stays_within_the_task events a a' calls Hmax Hevents Hsized Hwithin
           Hrun).
Defined.

End CoordinatorBehaviourRuns.
